(** * AML transaction monitoring: a shallow embedding of the detection pipeline

    The development follows the layout of [backend/app]:
    - [trainer.py]            : module [Trainer]
    - [metrics.py]            : module [Metrics]
    - [gnn_model.py]          : module [Gnn]
    - [explainer.py]          : module [Explainer]
    - [pipeline_service.py]   : module [Pipeline]
    - [data_generator.py]     : modules [Features] and [Generator]

    Conventions.  Python exceptions are values of [exn] carried by the
    [result] monad.  Python floats are modelled by exact rationals ([Q]),
    extended with the IEEE special values where the code can produce them
    (module [Float]); rounding is not modelled. *)

From Stdlib Require Import List String Ascii ZArith QArith Qround Qabs Lia Lqa Bool
  Permutation DecimalString DecimalNat Sorted.
From stdpp Require Import gmap strings.

Local Open Scope Z_scope.
Local Open Scope nat_scope.
Local Open Scope string_scope.
Local Open Scope list_scope.

(** ** Exceptions *)

Inductive exn : Type :=
  | ValueError (msg : string)
  | ZeroDivisionError
  | IndexError
  | KeyError
  | IntegrityError
  | RuntimeError.

Inductive result (A : Type) : Type :=
  | Ok (a : A)
  | Raise (e : exn).
Arguments Ok {A} a.
Arguments Raise {A} e.

#[global] Instance result_ret : MRet result := fun A a => Ok a.
#[global] Instance result_bind : MBind result := fun A B f m =>
  match m with
  | Ok a => f a
  | Raise e => Raise e
  end.

(** Rational comparisons as booleans. *)
Definition Qltb (x y : Q) : bool := negb (Qle_bool y x).
Definition Qgtb (x y : Q) : bool := Qltb y x.
Definition Qgeb (x y : Q) : bool := Qle_bool y x.

(** ** scikit-learn's [train_test_split] (external)

    Only the size rule of [_validate_shuffle_split] matters here: with a
    float [test_size] and no [train_size], [n_test = ceil(test_size * n)]
    and [n_train = n - n_test]; an empty train part is a [ValueError]. *)
Module Sklearn.

Definition n_test_of (test_size : Q) (n : nat) : nat :=
  Z.to_nat (Qceiling (test_size * inject_Z (Z.of_nat n))).

(** The interface the trainer relies on. *)
Class Splitter := train_test_split :
  list nat -> Q -> list bool -> Z -> result (list nat * list nat).

Class SplitterLaws (S : Splitter) := {
  tts_perm : forall arr ts strat seed tr te,
    train_test_split arr ts strat seed = Ok (tr, te) ->
    Permutation (tr ++ te) arr;
  tts_test_size : forall arr ts strat seed tr te,
    train_test_split arr ts strat seed = Ok (tr, te) ->
    length te = n_test_of ts (length arr)
}.

(** A reference splitter with scikit-learn's sizes: the tail of the array
    is the test part. *)
Definition tail_split : Splitter := fun arr ts _ _ =>
  let n := length arr in
  let k := n_test_of ts n in
  if (n <=? k)%nat then Raise (ValueError "empty train set")
  else Ok (firstn (n - k) arr, skipn (n - k) arr).

End Sklearn.

(** ** numpy indexing helpers *)
Module Np.

(** [a[indices]] with an integer index array (fancy indexing). *)
Definition take {A} (a : list A) (indices : list nat) : result (list A) :=
  mapM (fun i => match a !! i with Some x => Ok x | None => Raise IndexError end) indices.

(** [a[mask]] with a boolean mask: the selected entries in index order. *)
Fixpoint select {A} (a : list A) (mask : list bool) : list A :=
  match a, mask with
  | x :: a', b :: mask' => if b then x :: select a' mask' else select a' mask'
  | _, _ => []
  end.

(** [m = zeros(n, bool); m[indices] = True]. *)
Definition mask (n : nat) (indices : list nat) : result (list bool) :=
  foldl (fun acc i =>
           m ← acc;
           if (i <? n)%nat then Ok (<[i := true]> m) else Raise IndexError)
        (Ok (replicate n false)) indices.

(** [(a > t).astype(int)], the integers 0/1 kept as booleans. *)
Definition gt_threshold (a : list Q) (t : Q) : list bool := map (fun p => Qgtb p t) a.

End Np.

(** ** metrics.py *)
Module Metrics.

Record metrics := {
  precision : Q;
  recall : Q;
  f1 : Q;
  roc_auc : option Q
}.

Definition count2 (p : bool -> bool -> bool) (y_true y_pred : list bool) : nat :=
  length (filter (fun '(t, y) => p t y = true) (zip y_true y_pred)).

Definition tp := count2 (fun t y => t && y).
Definition fp := count2 (fun t y => negb t && y).
Definition fn := count2 (fun t y => t && negb y).

(** [num / den] with scikit-learn's [zero_division=0]. *)
Definition ratio0 (num den : nat) : Q :=
  match den with
  | O => 0%Q
  | _ => (inject_Z (Z.of_nat num) / inject_Z (Z.of_nat den))%Q
  end.

Definition precision_score (y_true y_pred : list bool) : Q :=
  ratio0 (tp y_true y_pred) (tp y_true y_pred + fp y_true y_pred).
Definition recall_score (y_true y_pred : list bool) : Q :=
  ratio0 (tp y_true y_pred) (tp y_true y_pred + fn y_true y_pred).
Definition f1_score (y_true y_pred : list bool) : Q :=
  ratio0 (2 * tp y_true y_pred)
         (2 * tp y_true y_pred + fp y_true y_pred + fn y_true y_pred).

(** Area under the ROC curve as the normalised Mann-Whitney statistic:
    a positive/negative pair counts 1 when the positive is ranked higher
    and 1/2 on a tie. *)
Definition roc_auc_score (y_true : list bool) (y_prob : list Q) : Q :=
  let scored := zip y_true y_prob in
  let pos := map snd (filter (fun '(t, _) => t = true) scored) in
  let neg := map snd (filter (fun '(t, _) => t = false) scored) in
  let pair (p n : Q) : Q :=
    (if Qltb n p then 1 else if Qeq_bool n p then 1 # 2 else 0)%Q in
  let total := fold_right Qplus 0%Q (flat_map (fun p => map (pair p) neg) pos) in
  (total / inject_Z (Z.of_nat (length pos * length neg)))%Q.

Definition both_classes (y_true : list bool) : bool :=
  existsb id y_true && existsb negb y_true.

(** scikit-learn rejects inputs of inconsistent length. *)
Definition compute_classification_metrics
    (y_true y_pred : list bool) (y_prob : option (list Q)) : result metrics :=
  if negb (length y_true =? length y_pred)%nat
  then Raise (ValueError "inconsistent numbers of samples")
  else
    Ok {| precision := precision_score y_true y_pred;
          recall := recall_score y_true y_pred;
          f1 := f1_score y_true y_pred;
          roc_auc := match y_prob with
                     | Some p => if both_classes y_true
                                 then Some (roc_auc_score y_true p) else None
                     | None => None
                     end |}.

End Metrics.

(** ** trainer.py *)
Module Trainer.
Import Np Metrics Sklearn.

(** The torch side of [train]: the network together with its optimizer and
    scheduler.  [train_step] is one pass of lines 112-119 (forward, loss,
    backward, clipping, optimizer and scheduler step); [predict_proba] is
    [softmax(model(x, edge_index))[:, 1]] in eval mode, one probability
    per node. *)
Class Learner := {
  state : Type;
  snapshot : Type;
  init_state : list nat -> state;
  train_step : state -> state;
  state_dict : state -> snapshot;
  load_state_dict : snapshot -> state -> state;
  predict_proba : state -> list Q;
  embed : state -> list (list Q)
}.

Definition test_size : Q := 15 # 100.

Section Train.
Context {S : Splitter} {L : Learner}.

(** Lines 78-82: two successive stratified splits. *)
Definition stratified_split (labels : list bool) (seed : Z)
  : result (list nat * list nat * list nat) :=
  let n := length labels in
  let idx := seq 0 n in
  '(idx_tv, idx_test) ← train_test_split idx test_size labels seed;
  labels_tv ← take labels idx_tv;
  '(idx_train, idx_val) ← train_test_split idx_tv test_size labels_tv seed;
  Ok (idx_train, idx_val, idx_test).

Record loop_state := {
  model : state;
  best_val_f1 : Q;
  best_state : option snapshot
}.

(** Lines 122-126: the validation metrics of the current parameters. *)
Definition validate (labels : list bool) (idx_val : list nat)
    (val_mask : list bool) (m : state) : result metrics :=
  let val_prob := predict_proba m in
  let val_pred := gt_threshold (select val_prob val_mask) (1 # 2) in
  y_true ← take labels idx_val;
  y_prob ← take val_prob idx_val;
  compute_classification_metrics y_true val_pred (Some y_prob).

(** One iteration of the epoch loop (lines 111-131). *)
Definition epoch_body (labels : list bool) (idx_val : list nat)
    (val_mask : list bool) (ls : loop_state) (epoch : nat) : result loop_state :=
  let m := train_step (model ls) in
  if (epoch mod 10 =? 0)%nat then
    vm ← validate labels idx_val val_mask m;
    if Qgtb (f1 vm) (best_val_f1 ls)
    then Ok {| model := m; best_val_f1 := f1 vm;
               best_state := Some (state_dict m) |}
    else Ok {| model := m; best_val_f1 := best_val_f1 ls;
               best_state := best_state ls |}
  else Ok {| model := m; best_val_f1 := best_val_f1 ls;
             best_state := best_state ls |}.

Definition training_loop (labels : list bool) (idx_val : list nat)
    (val_mask : list bool) (epochs : nat) (m0 : state) : result loop_state :=
  foldl (fun acc epoch => ls ← acc; epoch_body labels idx_val val_mask ls epoch)
        (Ok {| model := m0; best_val_f1 := (-1)%Q; best_state := None |})
        (seq 1 epochs).

(** Lines 133-134; a state dict of a network with parameters is truthy. *)
Definition restore_best (ls : loop_state) : state :=
  match best_state ls with
  | Some s => load_state_dict s (model ls)
  | None => model ls
  end.

Record gnn_output := {
  all_probs : list Q;
  embeddings : list (list Q);
  gnn_metrics : metrics;
  selected_val_f1 : Q;
  idx_val_used : list nat
}.

(** Steps 2-4 of [train]: split, train, restore the checkpoint, infer. *)
Definition train_gnn (labels : list bool) (epochs : nat) (seed : Z)
  : result gnn_output :=
  let n := length labels in
  '(idx_train, idx_val, idx_test) ← stratified_split labels seed;
  _ ← mask n idx_train;
  val_mask ← mask n idx_val;
  _ ← mask n idx_test;
  ls ← training_loop labels idx_val val_mask epochs (init_state idx_train);
  let final := restore_best ls in
  let probs := predict_proba final in
  test_probs ← take probs idx_test;
  test_labels ← take labels idx_test;
  gm ← compute_classification_metrics
         test_labels (gt_threshold test_probs (1 # 2)) (Some test_probs);
  Ok {| all_probs := probs; embeddings := embed final; gnn_metrics := gm;
        selected_val_f1 := best_val_f1 ls; idx_val_used := idx_val |}.

(** The validation F1 the claim describes: every validation entity's
    thresholded prediction is paired with that entity's own label. *)
Definition aligned_val_f1 (labels : list bool) (idx_val : list nat)
    (m : state) : result Q :=
  y_true ← take labels idx_val;
  y_prob ← take (predict_proba m) idx_val;
  Ok (f1_score y_true (gt_threshold y_prob (1 # 2))).

End Train.
(** A computation that returned a number of the given value. *)
Definition returns_value (r : result Q) (q : Q) : Prop :=
  match r with Ok x => (x == q)%Q | Raise _ => False end.

End Trainer.

(** ** gnn_model.py: the pure-PyTorch GraphSAGE fallback *)
Module Gnn.

Abbreviation vec := (list Q).
Abbreviation matrix := (list (list Q)).

Definition vadd (a b : vec) : vec := zip_with Qplus a b.
Definition dot (a b : vec) : Q := fold_right Qplus 0%Q (zip_with Qmult a b).

(** [nn.Linear]: [y = W x + b], one row of [weight] per output feature. *)
Record Linear := {
  weight : matrix;
  bias : vec;
  in_features : nat
}.

Definition affine (l : Linear) (v : vec) : vec :=
  zip_with (fun w b => (dot w v + b)%Q) (weight l) (bias l).

(** A shape mismatch is a [RuntimeError]. *)
Definition linear_row (l : Linear) (v : vec) : result vec :=
  if (length v =? in_features l)%nat then Ok (affine l v) else Raise RuntimeError.

Definition linear (l : Linear) (x : matrix) : result matrix :=
  mapM (linear_row l) x.

Definition eps : Q := 1 # 100000000.

(** [t.scatter_add_(0, index, src)] on rows: [t[index[e]] += src[e]] for
    every [e], in order; an index outside [t] is a [RuntimeError]. *)
Definition scatter_add_rows (t : matrix) (index : list nat) (src : matrix)
  : result matrix :=
  foldl (fun acc '(v, row) =>
           a ← acc;
           if (v <? length a)%nat
           then Ok (alter (fun cur => vadd cur row) v a)
           else Raise RuntimeError)
        (Ok t) (zip index src).

(** The effect of [scatter_add_] when every index is in range. *)
Definition scatter (t : matrix) (l : list (nat * vec)) : matrix :=
  foldl (fun a '(v, row) => alter (fun cur => vadd cur row) v a) t l.

(** Number of columns of a tensor given by its rows. *)
Definition ncols (x : matrix) : nat :=
  match x with
  | [] => 0
  | r :: _ => length r
  end.

(** [GraphSAGE._sage]; [edge_index] is given by its columns
    [(src[e], dst[e])]. *)
Definition _sage (lin_self lin_neigh : Linear) (x : matrix)
    (edge_index : list (nat * nat)) : result matrix :=
  let n := length x in
  let d := ncols x in
  let src := map fst edge_index in
  let dst := map snd edge_index in
  x_src ← Np.take x src;
  agg ← scatter_add_rows (replicate n (replicate d 0%Q)) dst x_src;
  counts ← scatter_add_rows (replicate n [0%Q]) dst
             (replicate (length src) [1%Q]);
  let agg := zip_with (fun row c => map (fun a => (a / (hd 0%Q c + eps))%Q) row)
                      agg counts in
  hs ← linear lin_self x;
  hn ← linear lin_neigh agg;
  Ok (zip_with app hs hn).

(** The aggregation in the words of the specification: the sum of the
    input vectors of the in-neighbours of [v], one term per incoming
    edge, divided by the in-degree plus epsilon. *)
Definition in_edges (edge_index : list (nat * nat)) (v : nat) : list nat :=
  map fst (filter (fun e => snd e = v) edge_index).

Definition in_degree (edge_index : list (nat * nat)) (v : nat) : nat :=
  length (in_edges edge_index v).

Definition neighbour_sum (x : matrix) (edge_index : list (nat * nat)) (v : nat)
  : vec :=
  foldl (fun acc s => vadd acc (x !!! s)) (replicate (ncols x) 0%Q)
        (in_edges edge_index v).

Definition neighbour_mean (x : matrix) (edge_index : list (nat * nat)) (v : nat)
  : vec :=
  map (fun a => (a / (inject_Z (Z.of_nat (in_degree edge_index v)) + eps))%Q)
      (neighbour_sum x edge_index v).

Definition veq (a b : vec) : Prop := Forall2 Qeq a b.

End Gnn.

(** ** Python string and formatting helpers (ASCII case mapping) *)
Module Str.

Definition nl : string := String "010" "".

Definition is_upper (c : ascii) : bool :=
  let n := nat_of_ascii c in (65 <=? n)%nat && (n <=? 90)%nat.
Definition is_lower (c : ascii) : bool :=
  let n := nat_of_ascii c in (97 <=? n)%nat && (n <=? 122)%nat.
Definition to_upper (c : ascii) : ascii :=
  if is_lower c then ascii_of_nat (nat_of_ascii c - 32) else c.
Definition to_lower (c : ascii) : ascii :=
  if is_upper c then ascii_of_nat (nat_of_ascii c + 32) else c.

Fixpoint smap (f : ascii -> ascii) (s : string) : string :=
  match s with
  | EmptyString => EmptyString
  | String c s' => String (f c) (smap f s')
  end.

Definition upper : string -> string := smap to_upper.
Definition lower : string -> string := smap to_lower.

(** [s.replace("_", " ")]. *)
Definition underscores_to_spaces : string -> string :=
  smap (fun c => if Ascii.eqb c "_" then " "%char else c).

(** [s.title()]: a letter is upper-cased after an uncased character and
    lower-cased after a cased one. *)
Fixpoint title_from (previous_is_cased : bool) (s : string) : string :=
  match s with
  | EmptyString => EmptyString
  | String c s' =>
      if is_lower c then
        String (if previous_is_cased then c else to_upper c) (title_from true s')
      else if is_upper c then
        String (if previous_is_cased then to_lower c else c) (title_from true s')
      else String c (title_from false s')
  end.
Definition title : string -> string := title_from false.

Definition is_space (c : ascii) : bool :=
  let n := nat_of_ascii c in
  ((9 <=? n)%nat && (n <=? 13)%nat) || ((28 <=? n)%nat && (n <=? 32)%nat).

Fixpoint lstrip (s : string) : string :=
  match s with
  | String c s' => if is_space c then lstrip s' else s
  | EmptyString => EmptyString
  end.

Definition srev (s : string) : string :=
  string_of_list_ascii (rev (list_ascii_of_string s)).

Definition strip (s : string) : string := srev (lstrip (srev (lstrip s))).

(** [needle in hay]. *)
Fixpoint contains (needle hay : string) : bool :=
  String.prefix needle hay ||
  match hay with
  | EmptyString => false
  | String _ hay' => contains needle hay'
  end.

Definition of_nat (n : nat) : string := NilZero.string_of_uint (Nat.to_uint n).
Definition of_Z (z : Z) : string := NilZero.string_of_int (Z.to_int z).

(** Round a non-negative rational to the nearest integer, ties to even. *)
Definition round_half_even (q : Q) : Z :=
  let f := Qfloor q in
  match (q - inject_Z f ?= 1 # 2)%Q with
  | Lt => f
  | Gt => (f + 1)%Z
  | Eq => if Z.even f then f else (f + 1)%Z
  end.

Definition pad4 (s : string) : string :=
  string_of_list_ascii (replicate (4 - String.length s) "0"%char) +:+ s.

(** [format(q, ".4f")], or [format(q, "+.4f")] when [plus] is set. *)
Definition format_4f (plus : bool) (q : Q) : string :=
  let m := round_half_even (Qabs q * 10000) in
  let sign := if Qltb q 0 then "-" else if plus then "+" else "" in
  sign +:+ of_Z (m / 10000) +:+ "." +:+ pad4 (of_Z (m mod 10000)).

End Str.

(** ** IEEE special values *)
Module Float.

Inductive t : Type :=
  | Fin (q : Q)
  | PInf
  | NInf
  | NaN.

Definition of_nat (n : nat) : t := Fin (inject_Z (Z.of_nat n)).

(** [x < y]; every comparison with NaN is false. *)
Definition ltb (x y : t) : bool :=
  match x, y with
  | NaN, _ | _, NaN => false
  | _, NInf | PInf, _ => false
  | NInf, _ | _, PInf => true
  | Fin a, Fin b => Qltb a b
  end.

Definition add (x y : t) : t :=
  match x, y with
  | NaN, _ | _, NaN => NaN
  | PInf, NInf | NInf, PInf => NaN
  | PInf, _ | _, PInf => PInf
  | NInf, _ | _, NInf => NInf
  | Fin a, Fin b => Fin (a + b)
  end.

Definition sub (x y : t) : t :=
  match y with
  | Fin b => add x (Fin (- b))
  | PInf => add x NInf
  | NInf => add x PInf
  | NaN => NaN
  end.

(** The sign of a value that is neither zero nor NaN. *)
Definition negative (x : t) : bool :=
  match x with
  | Fin a => Qltb a 0
  | NInf => true
  | _ => false
  end.

Definition is_zero (x : t) : bool :=
  match x with
  | Fin a => Qeq_bool a 0
  | _ => false
  end.

(** IEEE division of numpy scalars: never an exception. *)
Definition np_div (x y : t) : t :=
  match x, y with
  | NaN, _ | _, NaN => NaN
  | Fin a, Fin b =>
      if Qeq_bool b 0 then
        if Qeq_bool a 0 then NaN else if Qltb a 0 then NInf else PInf
      else Fin (a / b)
  | Fin _, _ => Fin 0
  | _, Fin b =>
      if xorb (negative x) (Qltb b 0) then NInf else PInf
  | _, _ => NaN
  end.

(** Division of Python floats and ints: a zero divisor is a
    [ZeroDivisionError]. *)
Definition py_div (x y : t) : result t :=
  if is_zero y then Raise ZeroDivisionError else Ok (np_div x y).

(** Python's [sum], [min] of two values and [max] of a non-empty list. *)
Definition py_sum (l : list t) : t := foldl add (Fin 0) l.
Definition py_min (a b : t) : t := if ltb b a then b else a.
Definition py_max (l : list t) : result t :=
  match l with
  | [] => Raise (ValueError "max() arg is an empty sequence")
  | x :: l' => Ok (foldl (fun m y => if ltb m y then y else m) x l')
  end.

(** [np.mean] of a non-empty list. *)
Definition np_mean (l : list t) : t := np_div (py_sum l) (of_nat (length l)).

(** [np.diff]. *)
Fixpoint np_diff (l : list t) : list t :=
  match l with
  | a :: (b :: _) as l' => sub b a :: np_diff l'
  | _ => []
  end.

(** [np.nan_to_num(x, nan=0.0, posinf=10.0, neginf=0.0)]. *)
Definition nan_to_num (x : t) : t :=
  match x with
  | Fin q => Fin q
  | PInf => Fin 10
  | NInf => Fin 0
  | NaN => Fin 0
  end.

Definition is_finite (x : t) : Prop :=
  match x with Fin _ => True | _ => False end.

(** [x >= 0.0]. *)
Definition nonneg (x : t) : Prop :=
  match x with Fin q => (0 <= q)%Q | PInf => True | _ => False end.

(** Not below zero: non-negative, or NaN. *)
Definition nonneg_or_nan (x : t) : Prop :=
  match x with Fin q => (0 <= q)%Q | PInf | NaN => True | NInf => False end.

(** The numeric kernels taken from numpy: [np.log1p], [np.std] and the
    conversion to [float32] done by [np.array(rows, dtype=np.float32)]. *)
Class Kernels := {
  log1p : t -> t;
  np_std : list t -> t;
  float32 : t -> t
}.

(** What the properties below use of them: a value that is not below
    zero is sent to a value that is not below zero, and a standard
    deviation is never below zero. *)
Class KernelLaws (K : Kernels) := {
  log1p_nonneg : forall x, nonneg_or_nan x -> nonneg_or_nan (log1p x);
  np_std_nonneg : forall l, nonneg_or_nan (np_std l);
  float32_nonneg : forall x, nonneg_or_nan x -> nonneg_or_nan (float32 x)
}.

End Float.

(** ** data_generator.py: records and constants *)
Module Data.

Definition HIGH_RISK_COUNTRIES : list string :=
  ["PA"; "VG"; "KY"; "MH"; "BZ"; "WS"; "SC"; "AE"; "LI"].
Definition COUNTRIES : list string :=
  ["US"; "GB"; "DE"; "FR"; "NL"; "CH"; "SG"; "HK"; "AE"; "PA";
   "VG"; "KY"; "LU"; "MT"; "CY"; "LI"; "MH"; "BZ"; "WS"; "SC"].
Definition NORMAL_COUNTRIES : list string :=
  filter (fun c => c ∉ HIGH_RISK_COUNTRIES) COUNTRIES.
Definition CHANNELS : list string :=
  ["wire"; "cash"; "crypto"; "ach"; "check"; "swift"].
Definition HIGH_RISK_CHANNELS : list string := ["cash"; "crypto"].
Definition ENTITY_TYPES : list string := ["individual"; "business"].
Definition SUSPICIOUS_TYPES : list string := ["mule"; "shell"].

(** An insertion-ordered [dict[str, float]]. *)
Abbreviation attribution := (list (string * Q)).

Record EntityRecord := {
  id : string;
  entity_type : string;
  country : string;
  is_suspicious : bool;
  cluster_id : option string;
  risk_score : Q;
  features : attribution
}.

(** Timestamps are microseconds since [BASE_DATE]. *)
Record TransactionRecord := {
  tx_id : string;
  src : string;
  dst : string;
  amount : Float.t;
  timestamp : Z;
  channel : string;
  tx_country : string;
  risk_flags : list string;
  tx_is_suspicious : bool
}.

End Data.

(** ** explainer.py *)
Module Explainer.
Import Data.

Definition risk_level (risk_score : Q) : string :=
  if Qgtb risk_score (75 # 100) then "HIGH"
  else if Qgtb risk_score (50 # 100) then "MEDIUM" else "ELEVATED".

Definition risk_tier (risk_score : Q) : string :=
  if Qgtb risk_score (75 # 100) then "1"
  else if Qgtb risk_score (50 # 100) then "2" else "3".

Definition pattern_descriptions : list (string * string) :=
  [("smurfing",
    "structuring / smurfing — multiple transactions just below the $10,000 " +:+
    "reporting threshold, consistent with deliberate avoidance of CTR requirements");
   ("layering",
    "multi-hop transaction layering — funds routed through a chain of intermediary " +:+
    "entities across multiple high-risk jurisdictions to obscure beneficial ownership");
   ("circular",
    "circular fund flows — transactions forming closed loops among a small set of " +:+
    "entities, consistent with wash transactions or value-inflation schemes");
   ("mixed", "multiple co-occurring suspicious transaction patterns")].

Fixpoint dict_get {V} (d : list (string * V)) (k : string) (default : V) : V :=
  match d with
  | [] => default
  | (k', v) :: d' => if String.eqb k' k then v else dict_get d' k default
  end.

Definition pattern_desc (pattern_type : string) : string :=
  dict_get pattern_descriptions (Str.lower pattern_type)
           "anomalous transaction behavior".


(** Two attribution maps with the same keys in the same order and the
    same value under each key. *)
Definition attr_eq (a b : attribution) : Prop :=
  Forall2 (fun x y => fst x = fst y /\ (snd x == snd y)%Q) a b.

(** [sorted(items, key=lambda kv: abs(kv[1]), reverse=True)]: a stable
    sort, so entries of equal magnitude keep their dictionary order. *)
Fixpoint insert_desc (x : string * Q) (l : attribution) : attribution :=
  match l with
  | [] => [x]
  | y :: l' =>
      if Qltb (Qabs (snd y)) (Qabs (snd x)) then x :: y :: l'
      else y :: insert_desc x l'
  end.

Definition sorted_by_magnitude (items : attribution) : attribution :=
  foldl (fun acc x => insert_desc x acc) [] items.

(** [l[:k]] for any integer [k]. *)
Definition slice_to {A} (l : list A) (k : Z) : list A :=
  if (0 <=? k)%Z then take (Z.to_nat k) l
  else take (length l - Z.to_nat (- k)) l.

Definition driver_line (kv : string * Q) : string :=
  let readable := Str.title (Str.underscores_to_spaces (fst kv)) in
  let direction := if Qgtb (snd kv) 0 then "↑ Elevates" else "↓ Mitigates" in
  "    • " +:+ readable +:+ ": " +:+ direction +:+ " risk  (attribution: "
  +:+ Str.format_4f true (snd kv) +:+ ")".

Definition drivers_str (shap_values : attribution) (top_k : Z) : string :=
  String.concat Str.nl
    (map driver_line (slice_to (sorted_by_magnitude shap_values) top_k)).

(** Truthiness of [cluster_id]: neither [None] nor the empty string. *)
Definition truthy (cluster_id : option string) : option string :=
  match cluster_id with
  | Some EmptyString => None
  | other => other
  end.

Definition cluster_sentence (cluster_id : option string) (cluster_size : Z)
  : string :=
  match truthy cluster_id with
  | Some cid =>
      "This entity is a member of suspicious cluster " +:+ cid +:+ " comprising "
      +:+ Str.of_Z cluster_size +:+ " interconnected entities."
  | None =>
      "No cluster association was identified; the entity's individual transaction patterns drive this alert."
  end.

Definition scope_phrase (cluster_id : option string) : string :=
  match truthy cluster_id with
  | Some _ => "cluster members"
  | None => "first-degree counterparties"
  end.

Definition narrative_lines (entity_id entity_type country : string)
    (risk_score : Q) (cluster_id : option string) (cluster_size : Z)
    (pattern_type : string) (shap_values : attribution) (top_k : Z)
  : list string :=
  [
    "━━━━━━━━━━━━━━━━━━━━━━━━━━━━━━━━━━━━━━━━━━━━━━━━━━";
    "SUSPICIOUS ACTIVITY REPORT — CASE SUMMARY";
    "━━━━━━━━━━━━━━━━━━━━━━━━━━━━━━━━━━━━━━━━━━━━━━━━━━";
    "";
    "ENTITY:       " +:+ entity_id;
    "TYPE:         " +:+ (Str.upper entity_type);
    "JURISDICTION: " +:+ country;
    "RISK LEVEL:   " +:+ (risk_level risk_score) +:+ "  (Tier " +:+ (risk_tier risk_score) +:+ " — Score: " +:+ (Str.format_4f false risk_score) +:+ ")";
    "";
    "── EXECUTIVE SUMMARY ──────────────────────────────";
    "";
    "Entity " +:+ entity_id +:+ " (" +:+ entity_type +:+ ", " +:+ country +:+ ") has been flagged by the Graph Neural";
    "Network with a suspicion score of " +:+ (Str.format_4f false risk_score) +:+ ", placing it in the " +:+ (risk_level risk_score) +:+ " risk tier.";
    (cluster_sentence cluster_id cluster_size);
    "";
    "The predominant typology detected is " +:+ (pattern_desc pattern_type) +:+ ".";
    "";
    "── KEY RISK DRIVERS (SHAP Attributions) ───────────";
    "";
    (drivers_str shap_values top_k);
    "";
    "── RECOMMENDED ACTIONS ────────────────────────────";
    "";
    "  1. File a Suspicious Activity Report (SAR) with FinCEN within 30 days.";
    "  2. Freeze account pending enhanced due diligence review.";
    "  3. Conduct full 12-month transaction history analysis for entity and";
    "     all " +:+ (scope_phrase cluster_id) +:+ ".";
    "  4. Escalate to Compliance Officer (Level 2) and Legal Counsel.";
    "  5. Preserve all records per BSA record-retention requirements.";
    "";
    "── REGULATORY REFERENCES ──────────────────────────";
    "";
    "  31 U.S.C. § 5318(g)  — SAR Filing Obligation";
    "  31 CFR § 1020.320    — Reports of Suspicious Transactions";
    "  FinCEN Advisory FIN-2014-A007 — Layering Typologies";
    "";
    "━━━━━━━━━━━━━━━━━━━━━━━━━━━━━━━━━━━━━━━━━━━━━━━━━━";
    "Generated by AML GNN System v1.0 | Explainability: XGBoost-SHAP Surrogate"
  ].

Definition generate_narrative (entity_id entity_type country : string)
    (risk_score : Q) (cluster_id : option string) (cluster_size : Z)
    (pattern_type : string) (shap_values : attribution) (top_k : Z) : string :=
  Str.strip
    (String.concat Str.nl
       (narrative_lines entity_id entity_type country risk_score cluster_id
          cluster_size pattern_type shap_values top_k) +:+ Str.nl).

End Explainer.

(** ** db/models.py: the tables seen by the pipeline *)
Module Db.
Import Data.

Record Entity := {
  e_id : string;
  e_entity_type : string;
  e_country : string;
  e_is_suspicious : bool;
  e_cluster_id : option string;
  e_risk_score : Q;
  e_features_json : attribution
}.

Record Transaction := {
  t_id : string;
  t_src_entity_id : string;
  t_dst_entity_id : string;
  t_amount : Float.t;
  t_timestamp : Z;
  t_channel : string;
  t_country : string;
  t_risk_flags_json : list string;
  t_is_suspicious : bool
}.

Record Cluster := {
  c_id : string;
  c_entity_ids_json : list string;
  c_size : nat;
  c_suspicion_score : Q;
  c_pattern_type : string
}.

Record Alert := {
  a_id : string;
  a_entity_id : string;
  a_cluster_id : option string;
  a_score : Q;
  a_narrative : string;
  a_shap_values_json : attribution;
  a_status : string;
  a_created_at : Z
}.

Record train_metrics := {
  gnn : Metrics.metrics;
  rule_based : Metrics.metrics;
  logistic_regression : Metrics.metrics;
  pr_curve : list Q * list Q
}.

Record ModelRun := {
  r_mode : string;
  r_metrics_json : train_metrics;
  r_is_active : bool;
  r_created_at : Z
}.

(** The committed content of the database. *)
Record t := {
  entities : list Entity;
  transactions : list Transaction;
  clusters : list Cluster;
  alerts : list Alert;
  model_runs : list ModelRun
}.

End Db.

(** ** services/pipeline_service.py *)
Module Pipeline.
Import Data.

Record train_result := {
  node_scores : gmap string Q;
  node_shap : gmap string attribution;
  metrics : Db.train_metrics
}.

(** What [run_train] calls outside this module: the trainer, the uuid
    source (the [k]-th alert id, already cut to 8 characters and
    upper-cased) and the clock. *)
Class Env := {
  train : list EntityRecord -> list TransactionRecord -> string -> Z
          -> result train_result;
  alert_uuid : nat -> string;
  utcnow : Z
}.

Record summary := {
  alerts_created : nat;
  clusters_created : nat;
  gnn_f1 : Q;
  gnn_precision : Q;
  gnn_recall : Q
}.

Definition threshold : Q := 50 # 100.

Definition _pattern (cid : string) : string :=
  if Str.contains "SMURF" cid then "smurfing"
  else if Str.contains "LAYER" cid then "layering"
  else if Str.contains "CIRC" cid then "circular"
  else "mixed".

(** [cluster_map.setdefault(cid, []).append(e)] on an insertion-ordered
    dictionary. *)
Fixpoint setdefault_append (cm : list (string * list EntityRecord))
    (cid : string) (e : EntityRecord) : list (string * list EntityRecord) :=
  match cm with
  | [] => [(cid, [e])]
  | (k, members) :: cm' =>
      if String.eqb k cid then (k, members ++ [e]) :: cm'
      else (k, members) :: setdefault_append cm' cid e
  end.

Definition build_cluster_map (ents : list EntityRecord)
  : list (string * list EntityRecord) :=
  foldl (fun cm e =>
           match Explainer.truthy (cluster_id e) with
           | Some cid => setdefault_append cm cid e
           | None => cm
           end) [] ents.

(** Python's [max] on a non-empty list of floats. *)
Definition py_max (l : list Q) : result Q :=
  match l with
  | [] => Raise (ValueError "max() arg is an empty sequence")
  | x :: l' => Ok (foldl (fun m y => if Qgtb y m then y else m) x l')
  end.

Definition to_record (e : Db.Entity) : EntityRecord :=
  {| id := Db.e_id e; entity_type := Db.e_entity_type e;
     country := Db.e_country e; is_suspicious := Db.e_is_suspicious e;
     cluster_id := Db.e_cluster_id e; risk_score := 0; features := [] |}.

Definition to_tx_record (tx : Db.Transaction) : TransactionRecord :=
  {| tx_id := Db.t_id tx; src := Db.t_src_entity_id tx;
     dst := Db.t_dst_entity_id tx; amount := Db.t_amount tx;
     timestamp := Db.t_timestamp tx; channel := Db.t_channel tx;
     tx_country := Db.t_country tx; risk_flags := Db.t_risk_flags_json tx;
     tx_is_suspicious := Db.t_is_suspicious tx |}.

Section RunTrain.
Context {E : Env}.

(** Lines 117-119: the entity rows after the score update. *)
Definition update_entity (res : train_result) (e : Db.Entity) : Db.Entity :=
  {| Db.e_id := Db.e_id e;
     Db.e_entity_type := Db.e_entity_type e;
     Db.e_country := Db.e_country e;
     Db.e_is_suspicious := Db.e_is_suspicious e;
     Db.e_cluster_id := Db.e_cluster_id e;
     Db.e_risk_score := default 0%Q (node_scores res !! Db.e_id e);
     Db.e_features_json := default [] (node_shap res !! Db.e_id e) |}.

(** Lines 138-146. *)
Definition mk_cluster (res : train_result)
    (entry : string * list EntityRecord) : result Db.Cluster :=
  let '(cid, members) := entry in
  let scores := map (fun m => default 0%Q (node_scores res !! id m)) members in
  top ← py_max scores;
  Ok {| Db.c_id := cid;
        Db.c_entity_ids_json := map id members;
        Db.c_size := length members;
        Db.c_suspicion_score := top;
        Db.c_pattern_type := _pattern cid |}.

(** Lines 158-183 for one entity at or above the threshold; [k] alerts
    were created before it. *)
Definition mk_alert (res : train_result)
    (cluster_map : list (string * list EntityRecord)) (k : nat)
    (db_e : Db.Entity) : Db.Alert :=
  let score := Db.e_risk_score db_e in
  let shap_vals := default [] (node_shap res !! Db.e_id db_e) in
  let cid := Db.e_cluster_id db_e in
  let c_size := length (Explainer.dict_get cluster_map (default "" cid) []) in
  let pattern := match Explainer.truthy cid with
                 | Some c => _pattern c
                 | None => "mixed"
                 end in
  let narrative :=
    Explainer.generate_narrative (Db.e_id db_e) (Db.e_entity_type db_e)
      (Db.e_country db_e) score cid (Z.of_nat c_size) pattern shap_vals 4 in
  {| Db.a_id := alert_uuid k;
     Db.a_entity_id := Db.e_id db_e;
     Db.a_cluster_id := cid;
     Db.a_score := score;
     Db.a_narrative := narrative;
     Db.a_shap_values_json := shap_vals;
     Db.a_status := "open";
     Db.a_created_at := utcnow |}.

(** An entity is alerted unless its score is below the threshold. *)
Definition alertable (e : Db.Entity) : Prop :=
  Qltb (Db.e_risk_score e) threshold = false.

(** Lines 153-184: entities below the threshold are skipped. *)
Definition create_alerts (res : train_result)
    (cluster_map : list (string * list EntityRecord))
    (db_entities : list Db.Entity) : list Db.Alert :=
  foldl (fun acc db_e =>
           if Qltb (Db.e_risk_score db_e) threshold then acc
           else acc ++ [mk_alert res cluster_map (length acc) db_e])
        [] db_entities.

Definition deactivate (r : Db.ModelRun) : Db.ModelRun :=
  {| Db.r_mode := Db.r_mode r; Db.r_metrics_json := Db.r_metrics_json r;
     Db.r_is_active := false; Db.r_created_at := Db.r_created_at r |}.

Definition no_data : exn :=
  ValueError "No entities in database. Call POST /generate first.".

(** [run_train]: the value returned or the exception raised, and the
    content of the database afterwards.  Every [db.commit()] makes the
    writes before it durable; a primary-key clash among the new alerts
    fails the last flush and leaves the state of the previous commit. *)
Definition run_train (d : Db.t) (mode : string) (seed : Z)
  : result summary * Db.t :=
  let db_entities := Db.entities d in
  let db_transactions := Db.transactions d in
  match db_entities with
  | [] => (Raise no_data, d)
  | _ :: _ =>
    let ents := map to_record db_entities in
    let txs := map to_tx_record db_transactions in
    match train ents txs mode seed with
    | Raise e => (Raise e, d)
    | Ok res =>
      let db_entities := map (update_entity res) db_entities in
      let cluster_map := build_cluster_map ents in
      let cleared :=
        {| Db.entities := db_entities; Db.transactions := db_transactions;
           Db.clusters := []; Db.alerts := [];
           Db.model_runs := Db.model_runs d |} in
      match mapM (mk_cluster res) cluster_map with
      | Raise e => (Raise e, cleared)
      | Ok new_clusters =>
        let clustered :=
          {| Db.entities := db_entities; Db.transactions := db_transactions;
             Db.clusters := new_clusters; Db.alerts := [];
             Db.model_runs := Db.model_runs d |} in
        let new_alerts := create_alerts res cluster_map db_entities in
        if bool_decide (NoDup (map Db.a_id new_alerts)) then
          (Ok {| alerts_created := length new_alerts;
                 clusters_created := length cluster_map;
                 gnn_f1 := Metrics.f1 (Db.gnn (metrics res));
                 gnn_precision := Metrics.precision (Db.gnn (metrics res));
                 gnn_recall := Metrics.recall (Db.gnn (metrics res)) |},
           {| Db.entities := db_entities; Db.transactions := db_transactions;
              Db.clusters := new_clusters; Db.alerts := new_alerts;
              Db.model_runs :=
                map deactivate (Db.model_runs d)
                ++ [{| Db.r_mode := mode; Db.r_metrics_json := metrics res;
                       Db.r_is_active := true; Db.r_created_at := utcnow |}] |})
        else (Raise IntegrityError, clustered)
      end
    end
  end.



End RunTrain.
End Pipeline.

(** ** networkx (external): the part of [DiGraph] the features use *)
Module Nx.

(** Nodes in insertion order, without repetition; each directed edge once
    (a [DiGraph] keeps one edge per ordered pair). *)
Record DiGraph := {
  nodes : list string;
  edges : list (string * string)
}.

Definition empty : DiGraph := {| nodes := []; edges := [] |}.

Definition add_node (G : DiGraph) (v : string) : DiGraph :=
  if bool_decide (v ∈ nodes G) then G
  else {| nodes := nodes G ++ [v]; edges := edges G |}.

Definition add_edge (G : DiGraph) (u v : string) : DiGraph :=
  let G := add_node (add_node G u) v in
  if bool_decide ((u, v) ∈ edges G) then G
  else {| nodes := nodes G; edges := edges G ++ [(u, v)] |}.

Definition out_degree (G : DiGraph) (v : string) : nat :=
  length (filter (fun e => fst e = v) (edges G)).
Definition in_degree (G : DiGraph) (v : string) : nat :=
  length (filter (fun e => snd e = v) (edges G)).
(** A self-loop counts twice. *)
Definition degree (G : DiGraph) (v : string) : nat :=
  out_degree G v + in_degree G v.

(** [nx.degree_centrality] and [nx.in_degree_centrality]: the constant 1
    on graphs with at most one node, else [d / (n - 1)]. *)
Definition centrality (deg : DiGraph -> string -> nat) (G : DiGraph)
  : gmap string Float.t :=
  let n := length (nodes G) in
  if (n <=? 1)%nat then list_to_map (map (fun v => (v, Float.Fin 1)) (nodes G))
  else list_to_map
         (map (fun v => (v, Float.Fin (inject_Z (Z.of_nat (deg G v))
                                       / inject_Z (Z.of_nat (n - 1)))))
              (nodes G)).

Definition degree_centrality := centrality degree.
Definition in_degree_centrality := centrality in_degree.

End Nx.

(** ** data_generator.py: graph construction and feature extraction *)
Module Features.
Import Data.

Definition build_networkx_graph (entities : list EntityRecord)
    (transactions : list TransactionRecord) : Nx.DiGraph :=
  let G := foldl (fun G e => Nx.add_node G (id e)) Nx.empty entities in
  foldl (fun G tx => Nx.add_edge G (src tx) (dst tx)) G transactions.

(** The nine accumulators of one entity.  The source keeps nine
    dictionaries with the same keys (the entity ids); here one dictionary
    holds, per id, the nine values. *)
Record accumulators := {
  out_amounts : list Float.t;
  in_amounts : list Float.t;
  out_countries : gset string;
  in_countries : gset string;
  out_channels : gset string;
  in_channels : gset string;
  timestamps : list Z;
  counterparts : gset string;
  flag_counts : nat
}.

Definition fresh : accumulators :=
  {| out_amounts := []; in_amounts := []; out_countries := ∅;
     in_countries := ∅; out_channels := ∅; in_channels := ∅;
     timestamps := []; counterparts := ∅; flag_counts := 0 |}.

(** Lines 402-407. *)
Definition record_out (tx : TransactionRecord) (a : accumulators) : accumulators :=
  {| out_amounts := out_amounts a ++ [amount tx];
     in_amounts := in_amounts a;
     out_countries := out_countries a ∪ {[tx_country tx]};
     in_countries := in_countries a;
     out_channels := out_channels a ∪ {[channel tx]};
     in_channels := in_channels a;
     timestamps := timestamps a ++ [timestamp tx];
     counterparts := counterparts a ∪ {[dst tx]};
     flag_counts := flag_counts a + length (risk_flags tx) |}.

(** Lines 409-414. *)
Definition record_in (tx : TransactionRecord) (a : accumulators) : accumulators :=
  {| out_amounts := out_amounts a;
     in_amounts := in_amounts a ++ [amount tx];
     out_countries := out_countries a;
     in_countries := in_countries a ∪ {[tx_country tx]};
     out_channels := out_channels a;
     in_channels := in_channels a ∪ {[channel tx]};
     timestamps := timestamps a ++ [timestamp tx];
     counterparts := counterparts a ∪ {[src tx]};
     flag_counts := flag_counts a + length (risk_flags tx) |}.

(** The single pass over the transactions (lines 399-414); [alter] leaves
    the dictionary unchanged for an id that is not a key. *)
Definition accumulate (eids : list string) (transactions : list TransactionRecord)
  : gmap string accumulators :=
  foldl (fun m tx => alter (record_in tx) (dst tx) (alter (record_out tx) (src tx) m))
        (list_to_map (map (fun eid => (eid, fresh)) eids)) transactions.

(** No amount gathered for the entity is below zero. *)
Definition amounts_ok (acc : accumulators) : Prop :=
  Forall Float.nonneg_or_nan (out_amounts acc) /\
  Forall Float.nonneg_or_nan (in_amounts acc).

(** No centrality in the dictionary is below zero. *)
Definition values_nonneg (m : gmap string Float.t) : Prop :=
  forall eid, Float.nonneg_or_nan (default (Float.Fin 0) (m !! eid)).

(** [max(iterable, default=d)]: the default is used for an empty
    iterable only. *)
Definition max_default (l : list nat) (d : nat) : nat :=
  match l with
  | [] => d
  | x :: l' => foldl Nat.max x l'
  end.

(** [a / b] on Python ints. *)
Definition int_div (a b : nat) : result Float.t :=
  if (b =? 0)%nat then Raise ZeroDivisionError
  else Ok (Float.Fin (inject_Z (Z.of_nat a) / inject_Z (Z.of_nat b))).

(** Lines 422-425: degree over the largest degree. *)
Definition fallback_centrality (deg : Nx.DiGraph -> string -> nat)
    (G : Nx.DiGraph) : result (gmap string Float.t) :=
  let max_d := max_default (map (deg G) (Nx.nodes G)) 1 in
  kvs ← mapM (fun nd => c ← int_div (deg G nd) max_d; Ok (nd, c)) (Nx.nodes G);
  Ok (list_to_map kvs).

(** Lines 417-425. *)
Definition centralities (G : Nx.DiGraph)
  : result (gmap string Float.t * gmap string Float.t) :=
  let n := length (Nx.nodes G) in
  if (Z.of_nat n <=? 8000)%Z
  then Ok (Nx.degree_centrality G, Nx.in_degree_centrality G)
  else
    deg_cent ← fallback_centrality Nx.degree G;
    in_deg_cent ← fallback_centrality Nx.in_degree G;
    Ok (deg_cent, in_deg_cent).

Definition etype_enc : list (string * nat) :=
  [("individual", 0); ("business", 1); ("mule", 2); ("shell", 3)].

Definition feature_names : list string :=
  ["total_sent"; "total_received"; "num_sent"; "num_received";
   "avg_sent"; "avg_received"; "max_sent"; "max_received";
   "in_out_ratio"; "geo_diversity"; "channel_diversity";
   "unique_counterparties"; "burstiness"; "risk_flag_count";
   "degree_centrality"; "in_degree_centrality";
   "entity_type_enc"; "country_risk"].

(** [sorted] on timestamps. *)
Fixpoint insert_sorted (t : Z) (l : list Z) : list Z :=
  match l with
  | [] => [t]
  | u :: l' => if (t <=? u)%Z then t :: l else u :: insert_sorted t l'
  end.
Definition sorted (l : list Z) : list Z := foldr insert_sorted [] l.

Definition eps9 : Q := 1 # 1000000000.

(** [(t - t0).total_seconds()] for timestamps in microseconds. *)
Definition total_seconds (t t0 : Z) : Float.t := Float.Fin ((t - t0) # 1000000).

Section Compute.
Context {K : Float.Kernels}.

(** Lines 459-464. *)
Definition burstiness (ts : list Z) : Float.t :=
  let ts_list := sorted ts in
  match ts_list with
  | t0 :: _ :: _ :: _ =>
      let deltas := Float.np_diff (map (fun t => total_seconds t t0) ts_list) in
      Float.np_div (Float.np_std deltas)
                   (Float.add (Float.np_mean deltas) (Float.Fin eps9))
  | _ => Float.Fin 0
  end.

(** [float(np.mean(l)) if l else 0.0] and [float(max(l)) if l else 0.0]. *)
Definition mean_or_zero (l : list Float.t) : Float.t :=
  match l with [] => Float.Fin 0 | _ => Float.np_mean l end.
Definition max_or_zero (l : list Float.t) : Float.t :=
  match l with
  | [] => Float.Fin 0
  | x :: l' => foldl (fun m y => if Float.ltb m y then y else m) x l'
  end.

(** Lines 440-479: the row of one entity. *)
Definition feature_row (acc : accumulators) (e : EntityRecord)
    (deg_cent in_deg_cent : gmap string Float.t) (eid : string)
  : result (list Float.t) :=
  let oa := out_amounts acc in
  let ia := in_amounts acc in
  let total_s := Float.py_sum oa in
  let total_r := Float.py_sum ia in
  let n_s := length oa in
  let n_r := length ia in
  let avg_s := mean_or_zero oa in
  let avg_r := mean_or_zero ia in
  let max_s := max_or_zero oa in
  let max_r := max_or_zero ia in
  ratio ← Float.py_div total_r (Float.add total_s (Float.Fin eps9));
  let geo := size (out_countries acc ∪ in_countries acc) in
  let ch_div := size (out_channels acc ∪ in_channels acc) in
  let cp := size (counterparts acc) in
  let crisk := if bool_decide (country e ∈ HIGH_RISK_COUNTRIES)
               then Float.Fin 1 else Float.Fin 0 in
  Ok [Float.log1p total_s; Float.log1p total_r;
      Float.log1p (Float.of_nat n_s); Float.log1p (Float.of_nat n_r);
      Float.log1p avg_s; Float.log1p avg_r;
      Float.log1p max_s; Float.log1p max_r;
      Float.log1p ratio;
      Float.of_nat geo; Float.of_nat ch_div; Float.log1p (Float.of_nat cp);
      Float.py_min (burstiness (timestamps acc)) (Float.Fin 10);
      Float.log1p (Float.of_nat (flag_counts acc));
      default (Float.Fin 0) (deg_cent !! eid);
      default (Float.Fin 0) (in_deg_cent !! eid);
      Float.of_nat (Explainer.dict_get etype_enc (entity_type e) 0);
      crisk].

(** A numpy array by its shape and rows. *)
Record ndarray := {
  shape : list nat;
  data : list (list Float.t)
}.

(** [np.array(rows, dtype=np.float32)] for rows of equal length; an empty
    list gives a one-dimensional array of shape [(0,)]. *)
Definition np_array (rows : list (list Float.t)) : ndarray :=
  match rows with
  | [] => {| shape := [0]; data := [] |}
  | r :: _ => {| shape := [length rows; length r];
                 data := map (map Float.float32) rows |}
  end.

Definition nan_to_num (a : ndarray) : ndarray :=
  {| shape := shape a; data := map (map Float.nan_to_num) (data a) |}.

Definition compute_node_features (G : Nx.DiGraph) (entities : list EntityRecord)
    (transactions : list TransactionRecord)
  : result (ndarray * list string * list string) :=
  let entity_lookup : gmap string EntityRecord :=
    foldl (fun m e => <[id e := e]> m) ∅ entities in
  let eids := map id entities in
  let accs := accumulate eids transactions in
  '(deg_cent, in_deg_cent) ← centralities G;
  rows ← mapM (fun eid =>
                 match accs !! eid, entity_lookup !! eid with
                 | Some acc, Some e => feature_row acc e deg_cent in_deg_cent eid
                 | _, _ => Raise KeyError
                 end) eids;
  let feat_matrix := np_array rows in
  let feat_matrix := nan_to_num feat_matrix in
  Ok (feat_matrix, eids, feature_names).

(** The call made by the trainer (lines 68-69 of trainer.py). *)
Definition extract_features (entities : list EntityRecord)
    (transactions : list TransactionRecord)
  : result (ndarray * list string * list string) :=
  compute_node_features (build_networkx_graph entities transactions)
                        entities transactions.

End Compute.
End Features.

(** ** Python's [random] (and [np.random]) as an explicit generator

    The state of the generators is a list of raw draws, consumed one per
    primitive call (an exhausted list keeps giving 0); every outcome of a
    primitive is reached by some draw.  A seed fixes one such list. *)
Module Random.

Definition Gen (A : Type) : Type := list nat -> result (A * list nat).

#[global] Instance gen_ret : MRet Gen := fun A a s => Ok (a, s).
#[global] Instance gen_bind : MBind Gen := fun A B f m s =>
  match m s with
  | Ok (a, s') => f a s'
  | Raise e => Raise e
  end.

Definition raise {A} (e : exn) : Gen A := fun _ => Raise e.

Definition draw : Gen nat := fun s =>
  match s with
  | [] => Ok (0, [])
  | d :: s' => Ok (d, s')
  end.

(** [random.randint(a, b)], both ends included. *)
Definition randint (a b : nat) : Gen nat :=
  d ← draw; mret (a + d mod (b - a + 1)).

(** [random.choice(l)]; an empty sequence is an [IndexError]. *)
Definition choice {A} (l : list A) : Gen A :=
  d ← draw;
  match l !! (d mod length l) with
  | Some x => mret x
  | None => raise IndexError
  end.

(** [random.sample(pool, k)]: [k] positions of the pool, each at most
    once. *)
Fixpoint sample_from {A} (k : nat) (pool : list A) : Gen (list A) :=
  match k with
  | 0 => mret []
  | S k' =>
      d ← draw;
      let i := d mod length pool in
      match pool !! i with
      | Some x => rest ← sample_from k' (delete i pool); mret (x :: rest)
      | None => raise (ValueError "Sample larger than population")
      end
  end.

Definition sample {A} (pool : list A) (k : nat) : Gen (list A) :=
  if (length pool <? k)%nat then raise (ValueError "Sample larger than population")
  else sample_from k pool.

(** [random.uniform(a, b)] on a grid of 1001 points. *)
Definition uniform (a b : Q) : Gen Q :=
  d ← draw;
  mret (a + (b - a) * (inject_Z (Z.of_nat (d mod 1001)) / 1000))%Q.

(** [random.random()], in [[0, 1)]. *)
Definition random : Gen Q :=
  d ← draw; mret (inject_Z (Z.of_nat (d mod 1000)) / 1000)%Q.

(** [np.random.lognormal]: some positive number. *)
Definition lognormal : Gen Q :=
  d ← draw; mret (inject_Z (Z.of_nat (d + 1)) / 100)%Q.

(** A [for] loop that threads a value through its iterations. *)
Fixpoint for_each {A S} (l : list A) (body : S -> A -> Gen S) (s : S) : Gen S :=
  match l with
  | [] => mret s
  | a :: l' => s' ← body s a; for_each l' body s'
  end.

End Random.

(** ** data_generator.py: the synthetic network *)
Module Generator.
Import Data Random.

(** [f"{n:0{width}d}"]. *)
Definition zfill (width : nat) (n : nat) : string :=
  let s := Str.of_nat n in
  string_of_list_ascii (replicate (width - String.length s) "0"%char) +:+ s.

(** Reading a decimal numeral back, leading zeros allowed. *)
Definition decode (s : string) : option nat :=
  Nat.of_uint <$> NilEmpty.uint_of_string s.

(** [round(q, 2)]. *)
Definition round2 (q : Q) : Q :=
  let m := Str.round_half_even (Qabs q * 100) in
  if Qltb q 0 then (inject_Z (- m) / 100)%Q else (inject_Z m / 100)%Q.

Definition with_default {A} (given : option A) (draw_it : Gen A) : Gen A :=
  match given with
  | Some a => mret a
  | None => draw_it
  end.

Definition risk_flags_of (amount : Q) (channel country : string) : list string :=
  (if Qle_bool 9000 amount && Qltb amount 10000 then ["structuring_threshold"] else [])
  ++ (if bool_decide (channel ∈ HIGH_RISK_CHANNELS) then ["high_risk_channel"] else [])
  ++ (if bool_decide (country ∈ HIGH_RISK_COUNTRIES) then ["high_risk_country"] else [])
  ++ (if Qgtb amount 100000 then ["large_value"] else []).

(** [AMLDataGenerator._make_tx]. *)
Definition _make_tx (src dst : string) (is_suspicious : bool) (tx_idx : nat)
    (amount : option Q) (channel country : option string) (days_spread : nat)
  : Gen TransactionRecord :=
  amount ← with_default amount lognormal;
  channel ← with_default channel
              (if is_suspicious then choice HIGH_RISK_CHANNELS else choice CHANNELS);
  country ← with_default country
              (if is_suspicious then choice HIGH_RISK_COUNTRIES
               else choice NORMAL_COUNTRIES);
  days ← randint 0 days_spread;
  hours ← randint 0 23;
  minutes ← randint 0 59;
  mret {| tx_id := "T" +:+ zfill 10 tx_idx;
          Data.src := src;
          Data.dst := dst;
          Data.amount := Float.Fin (round2 amount);
          timestamp := (Z.of_nat ((days * 24 + hours) * 60 + minutes) * 60000000)%Z;
          Data.channel := channel;
          tx_country := country;
          risk_flags := risk_flags_of amount channel country;
          tx_is_suspicious := is_suspicious |}.

(** [AMLDataGenerator._create_entities]. *)
Definition _create_entities (n : nat) : Gen (list EntityRecord) :=
  let n_suspicious := Nat.max 10 (n / 20) in
  mapM (fun i =>
          let is_susp := (i <? n_suspicious)%nat in
          etype ← (if is_susp then choice SUSPICIOUS_TYPES else choice ENTITY_TYPES);
          country ← (if is_susp then choice HIGH_RISK_COUNTRIES
                     else choice NORMAL_COUNTRIES);
          mret {| id := "E" +:+ zfill 7 i; entity_type := etype;
                  Data.country := country; is_suspicious := is_susp;
                  cluster_id := None; risk_score := 0; features := [] |})
       (seq 0 n).

Definition wire_crypto_swift : list string := ["wire"; "crypto"; "swift"].
Definition wire_swift_crypto : list string := ["wire"; "swift"; "crypto"].

(** [choice(susp_ids) if susp_ids else choice(normal_ids)]. *)
Definition choice_preferring (susp_ids normal_ids : list string) : Gen string :=
  match susp_ids with
  | [] => choice normal_ids
  | _ => choice susp_ids
  end.

(** [AMLDataGenerator._generate_smurfing]. *)
Definition _generate_smurfing (susp_ids normal_ids : list string) (tx_offset : nat)
  : Gen (list TransactionRecord * list string) :=
  n_smurfs ← randint 5 14;
  smurfs ← sample normal_ids (Nat.min n_smurfs (length normal_ids));
  mule ← choice_preferring susp_ids normal_ids;
  beneficiary ← choice_preferring susp_ids normal_ids;
  _ ← randint 0 300;
  '(txs, total) ←
    for_each (imap (fun i smurf => (i, smurf)) smurfs)
      (fun '(txs, total) '(i, smurf) =>
         amount ← uniform 2500 9490;
         let amount := round2 amount in
         country ← choice NORMAL_COUNTRIES;
         tx ← _make_tx smurf mule true (tx_offset + i) (Some amount)
                (Some "cash") (Some country) 7;
         mret (txs ++ [tx], (total + amount)%Q))
      ([], 0%Q);
  channel ← choice wire_crypto_swift;
  country ← choice HIGH_RISK_COUNTRIES;
  tx ← _make_tx mule beneficiary true (tx_offset + length smurfs)
         (Some (round2 (total * (93 # 100)))) (Some channel) (Some country) 365;
  mret (txs ++ [tx], smurfs ++ [mule; beneficiary]).

(** [AMLDataGenerator._generate_layering]. *)
Definition _generate_layering (susp_ids normal_ids : list string) (tx_offset : nat)
  : Gen (list TransactionRecord * list string) :=
  chain_length ← randint 4 9;
  chain ← mapM (fun _ : nat =>
                  r ← random;
                  if Qltb r (55 # 100) && negb (bool_decide (susp_ids = []))
                  then choice susp_ids else choice normal_ids)
               (seq 0 chain_length);
  amount ← uniform 50000 800000;
  '(txs, _) ←
    for_each (seq 0 (length chain - 1))
      (fun '(txs, amount) i =>
         shrink ← uniform (88 # 100) (97 # 100);
         let hop_amount := round2 (amount * shrink) in
         country ← choice HIGH_RISK_COUNTRIES;
         channel ← choice wire_swift_crypto;
         match chain !! i, chain !! (i + 1) with
         | Some a, Some b =>
             tx ← _make_tx a b true (tx_offset + i) (Some hop_amount)
                    (Some channel) (Some country) 90;
             mret (txs ++ [tx], hop_amount)
         | _, _ => raise IndexError
         end)
      ([], round2 amount);
  mret (txs, chain).

(** [AMLDataGenerator._generate_circular]. *)
Definition _generate_circular (susp_ids normal_ids : list string) (tx_offset : nat)
  : Gen (list TransactionRecord * list string) :=
  cycle_size ← randint 3 7;
  let pool := if (cycle_size <=? length susp_ids)%nat then susp_ids else normal_ids in
  cycle ← sample pool (Nat.min cycle_size (length pool));
  amount ← uniform 15000 300000;
  let amount := round2 amount in
  txs ← mapM (fun i =>
                match cycle !! i, cycle !! ((i + 1) mod length cycle) with
                | Some src, Some dst =>
                    jitter ← uniform (92 # 100) (108 # 100);
                    channel ← choice wire_crypto_swift;
                    country ← choice HIGH_RISK_COUNTRIES;
                    _make_tx src dst true (tx_offset + i)
                      (Some (round2 (amount * jitter))) (Some channel)
                      (Some country) 30
                | _, _ => raise IndexError
                end)
             (seq 0 (length cycle));
  mret (txs, cycle).

(** What one pattern left behind: its cluster id, its transactions and
    the members it returned. *)
Inductive pattern := Smurfing | Layering | Circular.

Record cluster_trace := {
  trace_kind : pattern;
  trace_id : string;
  trace_txs : list TransactionRecord;
  trace_members : list string
}.

(** The state of [_generate_dataset] while the patterns are generated.
    [assembled] is not in the source: it records, per pattern, what the
    pattern generator returned. *)
Record dataset := {
  entity_map : list EntityRecord;
  transactions : list TransactionRecord;
  tx_offset : nat;
  assembled : list cluster_trace
}.

(** [entity_map[mid].cluster_id = cluster_id; entity_map[mid].is_suspicious = True]
    for every member; the records keep their place. *)
Definition label (cluster_id : string) (members : list string)
    (entity_map : list EntityRecord) : list EntityRecord :=
  map (fun e =>
         if bool_decide (id e ∈ members)
         then {| id := id e; entity_type := entity_type e; country := country e;
                 is_suspicious := true; cluster_id := Some cluster_id;
                 risk_score := risk_score e; features := features e |}
         else e)
      entity_map.

(** One of the three pattern loops of [_generate_dataset] (lines 145-175). *)
Definition pattern_loop
    (generate_pattern : list string -> list string -> nat
                        -> Gen (list TransactionRecord * list string))
    (kind : pattern) (prefix : string) (susp_ids normal_ids : list string)
    (n : nat) (d : dataset) : Gen dataset :=
  for_each (seq 0 n)
    (fun d k =>
       let cluster_id := prefix +:+ zfill 4 k in
       '(new_txs, members) ← generate_pattern susp_ids normal_ids (tx_offset d);
       mret {| entity_map := label cluster_id members (entity_map d);
               transactions := transactions d ++ new_txs;
               tx_offset := tx_offset d + length new_txs;
               assembled := assembled d
                            ++ [{| trace_kind := kind; trace_id := cluster_id;
                                   trace_txs := new_txs;
                                   trace_members := members |}] |})
    d.

(** [_generate_dataset], returning its whole final state. *)
Definition assemble (n_entities n_normal_tx n_smurfing_clusters
    n_layering_chains n_circular_clusters : nat) : Gen dataset :=
  entities ← _create_entities n_entities;
  let normal_ids := map id (filter (fun e => is_suspicious e = false) entities) in
  let susp_ids := map id (filter (fun e => is_suspicious e = true) entities) in
  normal_txs ← mapM (fun i =>
                       pair ← sample normal_ids 2;
                       match pair with
                       | [src; dst] => _make_tx src dst false i None None None 365
                       | _ => raise (ValueError "not enough values to unpack")
                       end)
                    (seq 0 n_normal_tx);
  let d := {| entity_map := entities; transactions := normal_txs;
              tx_offset := n_normal_tx; assembled := [] |} in
  d ← pattern_loop _generate_smurfing Smurfing "CLU_SMURF_" susp_ids normal_ids
        n_smurfing_clusters d;
  d ← pattern_loop _generate_layering Layering "CLU_LAYER_" susp_ids normal_ids
        n_layering_chains d;
  pattern_loop _generate_circular Circular "CLU_CIRC_" susp_ids normal_ids
    n_circular_clusters d.

Definition _generate_dataset (n_entities n_normal_tx n_smurfing_clusters
    n_layering_chains n_circular_clusters : nat)
  : Gen (list EntityRecord * list TransactionRecord) :=
  d ← assemble n_entities n_normal_tx n_smurfing_clusters n_layering_chains
        n_circular_clusters;
  mret (entity_map d, transactions d).

(** [AMLDataGenerator.generate]; the draws stand for the seeded generators
    after [_reset_rng]. *)
Definition sizes (mode : string) : nat * nat * nat * nat * nat :=
  if String.eqb mode "demo" then (1000, 4000, 6, 10, 5)
  else (Z.to_nat 15000, Z.to_nat 120000, 90, 140, 70).

Definition generate (mode : string)
  : Gen (list EntityRecord * list TransactionRecord) :=
  let '(n_entities, n_normal_tx, n_smurf, n_layer, n_circ) := sizes mode in
  _generate_dataset n_entities n_normal_tx n_smurf n_layer n_circ.

(** The same run, with its final state. *)
Definition generate_traced (mode : string) : Gen dataset :=
  let '(n_entities, n_normal_tx, n_smurf, n_layer, n_circ) := sizes mode in
  assemble n_entities n_normal_tx n_smurf n_layer n_circ.

(** The arcs of the closed walk through [order]:
    [order[i] -> order[(i + 1) % len(order)]]. *)
Definition cycle_edges (order : list string) : list (string * string) :=
  match order with
  | [] => []
  | a :: rest => zip order (rest ++ [a])
  end.

Definition endpoints (txs : list TransactionRecord) : list (string * string) :=
  map (fun tx => (src tx, dst tx)) txs.

(** The transactions form a closed directed cycle that visits each of the
    members exactly once. *)
Definition closed_cycle (txs : list TransactionRecord) (members : list string)
  : Prop :=
  exists order, order ≡ₚ members /\ NoDup order /\
                endpoints txs = cycle_edges order.

(** Every circular pattern assembled so far returned members without
    repetition and transactions, all kept, along the closed walk through
    them. *)
Definition circular_ok (d : dataset) : Prop :=
  forall t, t ∈ assembled d -> trace_kind t = Circular ->
    NoDup (trace_members t) /\
    endpoints (trace_txs t) = cycle_edges (trace_members t) /\
    trace_txs t ⊆ transactions d.

(** Every cluster label carried by an entity is the id of a pattern that
    returned the entity among its members. *)
Definition labels_ok (d : dataset) : Prop :=
  forall e cid, e ∈ entity_map d -> cluster_id e = Some cid ->
    exists t, t ∈ assembled d /\ trace_id t = cid /\ id e ∈ trace_members t.

(** The entities that carry a cluster label in the end, and the
    transactions among them. *)
Definition final_members (cid : string) (entities : list EntityRecord)
  : list string :=
  map id (filter (fun e => cluster_id e = Some cid) entities).

Definition restricted (txs : list TransactionRecord) (members : list string)
  : list TransactionRecord :=
  filter (fun tx => src tx ∈ members /\ dst tx ∈ members) txs.

End Generator.

(** ** data_generator.py: vocabulary for the generated dataset *)
Module Dataset.
Import Data Generator.

(** [f"E{i:07d}"] and [f"T{i:010d}"]. *)
Definition entity_key (i : nat) : string := "E" +:+ zfill 7 i.
Definition tx_key (i : nat) : string := "T" +:+ zfill 10 i.

(** The transactions are numbered from [off] on: the one at position [i]
    has the id of index [off + i]. *)
Definition numbered (off : nat) (txs : list TransactionRecord) : Prop :=
  map tx_id txs = map tx_key (seq off (length txs)).

(** [a <= b] on amounts that are numbers. *)
Definition amount_le (a b : Float.t) : Prop :=
  match a, b with
  | Float.Fin x, Float.Fin y => (x <= y)%Q
  | _, _ => False
  end.

(** What the three pattern generators have in common: transactions
    numbered from the offset on, all flagged suspicious, between known
    entities, and members that are known entities. *)
Definition pattern_output (ids : list string) (off : nat)
    (txs : list TransactionRecord) (members : list string) : Prop :=
  numbered off txs /\
  Forall (fun tx => tx_is_suspicious tx = true /\ src tx ∈ ids /\ dst tx ∈ ids) txs /\
  members ⊆ ids.

(** What [_generate_dataset] keeps true of its state while the patterns
    are added: the transactions are numbered from 0 on and [tx_offset]
    counts them, the entities keep their ids, every transaction runs
    between two of them, and the transactions flagged suspicious are
    those after the [n_normal_tx] background ones. *)
Definition consistent (ids : list string) (n_normal_tx : nat) (d : dataset)
  : Prop :=
  numbered 0 (transactions d) /\
  tx_offset d = length (transactions d) /\
  n_normal_tx <= length (transactions d) /\
  map id (entity_map d) = ids /\
  Forall (fun tx => src tx ∈ ids /\ dst tx ∈ ids) (transactions d) /\
  (forall i tx, transactions d !! i = Some tx ->
     (tx_is_suspicious tx = true <-> n_normal_tx <= i)).

(** An entity of the final state against the entity as it was created:
    same id, type and country; suspicious if it was created suspicious or
    carries a cluster label, and only then. *)
Definition relabelled (created final : EntityRecord) : Prop :=
  id final = id created /\ entity_type final = entity_type created /\
  country final = country created /\
  (is_suspicious final = true <->
   is_suspicious created = true \/ cluster_id final <> None).

End Dataset.

(** ** Concrete instances for the examples *)

Definition labels400 : list bool := replicate 20 true ++ replicate 380 false.

(** A splitter that returns the held-out part in descending index order;
    [train_test_split] shuffles, so any order of the part is possible. *)
Definition shuffled_split : Sklearn.Splitter := fun arr ts _ _ =>
  let n := length arr in
  let k := Sklearn.n_test_of ts n in
  if (n <=? k)%nat then Raise (ValueError "empty train set")
  else Ok (firstn (n - k) arr, rev (skipn (n - k) arr)).

(** Ten entities; entities 5, 6 and 9 are suspicious. *)
Definition labels10 : list bool :=
  [false; false; false; false; false; true; true; false; false; true].

(** A learner whose state is the number of optimizer steps taken.  Up to
    step 19 it scores every entity correctly; from step 20 on it has
    swapped its scores of entities 6 and 7. *)
Definition toy_probs (steps : nat) : list Q :=
  let lo := (1 # 10)%Q in
  let hi := (9 # 10)%Q in
  if (steps <? 20)%nat
  then [lo; lo; lo; lo; lo; hi; hi; lo; lo; hi]
  else [lo; lo; lo; lo; lo; hi; lo; hi; lo; hi].

Definition toy_learner : Trainer.Learner :=
  {| Trainer.state := nat;
     Trainer.snapshot := nat;
     Trainer.init_state := fun _ => 0;
     Trainer.train_step := Datatypes.S;
     Trainer.state_dict := fun s => s;
     Trainer.load_state_dict := fun s _ => s;
     Trainer.predict_proba := toy_probs;
     Trainer.embed := fun _ => [] |}.

(** Three nodes with two features each, two edges into node 1, and two
    linear layers with two outputs. *)
Definition x3 : list (list Q) := [[1; 2]; [3; 4]; [5; 8]]%Q.
Definition edges3 : list (nat * nat) := [(0, 1); (2, 1)].
Definition lin_a : Gnn.Linear :=
  {| Gnn.weight := [[1; 0]; [0; 1]]%Q; Gnn.bias := [0; 0]%Q; Gnn.in_features := 2 |}.
Definition lin_b : Gnn.Linear :=
  {| Gnn.weight := [[1; 1]; [1; -1]]%Q; Gnn.bias := [1; 0]%Q; Gnn.in_features := 2 |}.

(** A stand-in for the trainer with fixed scores and attributions, a
    counter as uuid source and a fixed clock. *)
Definition toy_metrics : Metrics.metrics :=
  {| Metrics.precision := 1; Metrics.recall := 1; Metrics.f1 := 1;
     Metrics.roc_auc := None |}.

Definition toy_result : Pipeline.train_result :=
  {| Pipeline.node_scores :=
       list_to_map [("E0000000", 9 # 10); ("E0000001", 1 # 2); ("E0000002", 1 # 5)]%Q;
     Pipeline.node_shap :=
       list_to_map [("E0000000", [("total_sent", 3 # 10); ("burstiness", -1 # 10)]%Q);
                    ("E0000001", [("country_risk", 1 # 4)]%Q)];
     Pipeline.metrics :=
       {| Db.gnn := toy_metrics; Db.rule_based := toy_metrics;
          Db.logistic_regression := toy_metrics; Db.pr_curve := ([], []) |} |}.

Definition toy_env : Pipeline.Env :=
  {| Pipeline.train := fun _ _ _ _ => Ok toy_result;
     Pipeline.alert_uuid := fun k => "AL" +:+ Str.of_nat k;
     Pipeline.utcnow := 0 |}.

Definition toy_entity (i ty c : string) (cid : option string) : Db.Entity :=
  {| Db.e_id := i; Db.e_entity_type := ty; Db.e_country := c;
     Db.e_is_suspicious := false; Db.e_cluster_id := cid;
     Db.e_risk_score := 0; Db.e_features_json := [] |}.

Definition stale_alert : Db.Alert :=
  {| Db.a_id := "OLD00001"; Db.a_entity_id := "E0000002"; Db.a_cluster_id := None;
     Db.a_score := 8 # 10; Db.a_narrative := "stale"; Db.a_shap_values_json := [];
     Db.a_status := "open"; Db.a_created_at := 0 |}.

(** Three entities, no transactions, one alert left by an earlier run. *)
Definition toy_db : Db.t :=
  {| Db.entities :=
       [toy_entity "E0000000" "mule" "PA" (Some "CLU_CIRC_0000");
        toy_entity "E0000001" "shell" "KY" None;
        toy_entity "E0000002" "individual" "US" None];
     Db.transactions := [];
     Db.clusters := [];
     Db.alerts := [stale_alert];
     Db.model_runs := [] |}.


Definition toy_summary : Pipeline.summary :=
  {| Pipeline.alerts_created := 2; Pipeline.clusters_created := 1;
     Pipeline.gnn_f1 := 1; Pipeline.gnn_precision := 1; Pipeline.gnn_recall := 1 |}.

(** The database after training on [toy_db]. *)
Definition toy_after : Db.t :=
  Eval vm_compute in snd (@Pipeline.run_train toy_env toy_db "demo" 42).

(** The first alert of the toy run (entity [E0000000], score 0.9). *)
Definition toy_alert0 : Db.Alert :=
  Eval vm_compute in default stale_alert (Db.alerts toy_after !! 0).

(** Rational stand-ins for the numpy kernels, used to run the examples:
    the Pade approximant [2x / (2 + x)] of [log1p] (same sign, same
    special values), the mean absolute deviation for the standard
    deviation, and a [float32] conversion that only overflows. *)
Definition pade_log1p (x : Float.t) : Float.t :=
  match x with
  | Float.Fin q =>
      if Qltb q (-1) then Float.NaN
      else if Qeq_bool q (-1) then Float.NInf
      else Float.Fin (2 * q / (2 + q))
  | Float.PInf => Float.PInf
  | _ => Float.NaN
  end.

Definition abs_dev (m x : Float.t) : Float.t :=
  match Float.sub x m with
  | Float.Fin d => Float.Fin (Qabs d)
  | Float.NaN => Float.NaN
  | _ => Float.PInf
  end.

Definition mean_abs_dev (l : list Float.t) : Float.t :=
  match l with
  | [] => Float.NaN
  | _ => Float.np_mean (map (abs_dev (Float.np_mean l)) l)
  end.

Definition float32_max : Q := 340282346638528859811704183484516925440 # 1.

Definition overflow32 (x : Float.t) : Float.t :=
  match x with
  | Float.Fin q =>
      if Qltb float32_max (Qabs q)
      then (if Qltb q 0 then Float.NInf else Float.PInf)
      else Float.Fin q
  | other => other
  end.

Definition ref_kernels : Float.Kernels :=
  {| Float.log1p := pade_log1p; Float.np_std := mean_abs_dev;
     Float.float32 := overflow32 |}.

Definition entity (i ty c : string) : Data.EntityRecord :=
  {| Data.id := i; Data.entity_type := ty; Data.country := c;
     Data.is_suspicious := false; Data.cluster_id := None;
     Data.risk_score := 0; Data.features := [] |}.

Definition transfer (i s d : string) (a : Float.t) (ts : Z) : Data.TransactionRecord :=
  {| Data.tx_id := i; Data.src := s; Data.dst := d; Data.amount := a;
     Data.timestamp := ts; Data.channel := "wire"; Data.tx_country := "US";
     Data.risk_flags := []; Data.tx_is_suspicious := false |}.

(** Three entities and four transfers among the first two; one transfer
    is a self-loop. *)
Definition small_entities : list Data.EntityRecord :=
  [entity "A" "mule" "PA"; entity "B" "individual" "US"; entity "C" "shell" "DE"].
Definition small_transfers : list Data.TransactionRecord :=
  [transfer "T1" "A" "B" (Float.Fin 100) 0;
   transfer "T2" "B" "A" (Float.Fin 50) 5000000;
   transfer "T3" "A" "B" (Float.Fin 25) 7000000;
   transfer "T4" "A" "A" (Float.Fin 1) 9000000].

Definition small_matrix : Features.ndarray :=
  Eval vm_compute in
    match @Features.extract_features ref_kernels small_entities small_transfers with
    | Ok (m, _, _) => m
    | Raise _ => {| Features.shape := []; Features.data := [] |}
    end.

(** A transfer of a negative amount. *)
Definition refund : list Data.TransactionRecord :=
  [transfer "T1" "A" "B" (Float.Fin (-1 # 2)) 0].

(** 8001 entities with the ids ["E0000000"] to ["E0008000"]. *)
Definition many_entities : list Data.EntityRecord :=
  map (fun i => entity ("E" +:+ Generator.zfill 7 i) "individual" "US")
      (seq 0 (Z.to_nat 8001)).

(** Draws for a demo-size run in which the first two circular clusters
    share an entity: everything before the circular patterns draws 0, the
    first cycle is drawn at positions 0, 0, 0 of the suspicious pool
    (entities 0, 1, 2), the second at positions 2, 2, 2 of what is left
    each time (entities 2, 3, 4), the others further on. *)
Definition overlapping_draws : list nat :=
  replicate (Z.to_nat 34514) 0 ++ replicate 23 0
  ++ [0; 2; 2; 2] ++ replicate 19 0 ++ [0; 10; 10; 10] ++ replicate 19 0
  ++ [0; 20; 20; 20] ++ replicate 19 0 ++ [0; 30; 30; 30].

Definition no_dataset : Generator.dataset :=
  {| Generator.entity_map := []; Generator.transactions := [];
     Generator.tx_offset := 0; Generator.assembled := [] |}.

Definition overlapping_dataset : Generator.dataset :=
  Eval vm_compute in
    match Generator.generate_traced "demo" overlapping_draws with
    | Ok (d, _) => d
    | Raise _ => no_dataset
    end.

(** The first circular cluster of that run. *)
Definition first_cycle : Generator.cluster_trace :=
  Eval vm_compute in
    default {| Generator.trace_kind := Generator.Circular;
               Generator.trace_id := ""; Generator.trace_txs := [];
               Generator.trace_members := [] |}
            (Generator.assembled overlapping_dataset !! 16).

(** One smurfing pattern and one layering chain over a suspicious entity
    and six normal ones, every draw being 0. *)
Definition one_suspect : list string := ["E0000000"].
Definition six_normal : list string :=
  ["E0000010"; "E0000011"; "E0000012"; "E0000013"; "E0000014"; "E0000015"].

Definition smurfing_example : list Data.TransactionRecord * list string :=
  Eval vm_compute in
    match Generator._generate_smurfing one_suspect six_normal 100 [] with
    | Ok (out, _) => out
    | Raise _ => ([], [])
    end.

Definition layering_example : list Data.TransactionRecord * list string :=
  Eval vm_compute in
    match Generator._generate_layering one_suspect six_normal 100 [] with
    | Ok (out, _) => out
    | Raise _ => ([], [])
    end.




(** The validation metrics of the toy learner after 10 steps on the
    validation part [6; 7], and the state of its training loop after 20
    epochs on the validation part [7; 6]. *)
Definition no_metrics : Metrics.metrics :=
  {| Metrics.precision := 0; Metrics.recall := 0; Metrics.f1 := 0;
     Metrics.roc_auc := None |}.

Definition mask_6_7 : list bool :=
  [false; false; false; false; false; false; true; true; false; false].

Definition toy_val_metrics : Metrics.metrics :=
  Eval vm_compute in
    match @Trainer.validate toy_learner labels10 [6; 7] mask_6_7 10 with
    | Ok vm => vm
    | Raise _ => no_metrics
    end.

Definition toy_loop_state : @Trainer.loop_state toy_learner :=
  Eval vm_compute in
    match @Trainer.training_loop toy_learner labels10 [7; 6] mask_6_7 20 0 with
    | Ok ls => ls
    | Raise _ => @Trainer.Build_loop_state toy_learner 0 0%Q None
    end.

(** * Part II: properties *)

(** ** Generic facts *)

Lemma bind_Ok {A B} (f : A -> result B) (m : result A) (b : B) :
  m ≫= f = Ok b -> exists a, m = Ok a /\ f a = Ok b.
Proof. destruct m as [a|e]; simpl; [eauto | discriminate]. Qed.

Lemma Qltb_lt x y : Qltb x y = true <-> (x < y)%Q.
Proof.
  unfold Qltb. rewrite negb_true_iff, <- not_true_iff_false, Qle_bool_iff.
  split; [apply Qnot_le_lt | apply Qlt_not_le].
Qed.

Lemma Qltb_ge x y : Qltb x y = false <-> (y <= x)%Q.
Proof. unfold Qltb. rewrite negb_false_iff. apply Qle_bool_iff. Qed.

Lemma foldl_cons {A B} (f : A -> B -> A) (a : A) (x : B) (l : list B) :
  foldl f a (x :: l) = foldl f (f a x) l.
Proof. reflexivity. Qed.

(** Turn boolean comparisons in the context into propositions. *)
Ltac reflect_Qltb :=
  repeat match goal with
         | H : Qltb _ _ = true |- _ => apply Qltb_lt in H
         | H : Qltb _ _ = false |- _ => apply Qltb_ge in H
         end.

(** Inversion of a monadic bind that returned. *)
Ltac inv_bind H :=
  let a := fresh "a" in
  let Ha := fresh "Ha" in
  apply bind_Ok in H; destruct H as (a & Ha & H).

(** ** The train/validation/test split *)

Lemma tail_split_laws : Sklearn.SplitterLaws Sklearn.tail_split.
Proof.
  split; unfold Sklearn.train_test_split, Sklearn.tail_split;
    intros arr ts strat seed tr te;
    destruct (Nat.leb_spec (length arr) (Sklearn.n_test_of ts (length arr)));
    intros [= <- <-].
  - now rewrite firstn_skipn.
  - rewrite length_skipn. lia.
Qed.

(** [ceil(0.15 * n)] in integer arithmetic. *)
Lemma n_test_of_15 (n : nat) :
  Sklearn.n_test_of Trainer.test_size n = (3 * n + 19) / 20.
Proof.
  unfold Sklearn.n_test_of, Trainer.test_size, Qceiling, Qfloor.
  cbn [Qmult Qopp Qnum Qden inject_Z].
  apply Nat2Z.inj. rewrite Nat2Z.inj_div, Z2Nat.id.
  - rewrite Nat2Z.inj_add, Nat2Z.inj_mul. change (Z.pos (100 * 1)) with 100%Z.
    simpl Z.of_nat at 2 3 4. generalize (Z.of_nat n) as z. intros z.
    Z.div_mod_to_equations. lia.
  - change (Z.pos (100 * 1)) with 100%Z.
    pose proof (Nat2Z.is_nonneg n). Z.div_mod_to_equations. lia.
Qed.

Lemma take_length {A} (a : list A) (idx : list nat) (l : list A) :
  Np.take a idx = Ok l -> length l = length idx.
Proof.
  unfold Np.take. revert l. induction idx as [|i idx IH]; intros l H.
  - now inversion H.
  - cbn in H. inv_bind H. inv_bind H. inversion H; subst.
    cbn. f_equal. now apply IH.
Qed.

Section Split.
Context {S : Sklearn.Splitter} {SL : Sklearn.SplitterLaws S}.
Import Trainer Sklearn.

(** C5 (as amended).  The two successive 85/15 splits, both stratified on
    the labels, partition the indices [0..n-1] into a test part of
    [ceil(0.15 n)] indices, a validation part of [ceil(0.15 (n - |test|))]
    indices and a train part with the rest; when [n] is a multiple of 400
    this is exactly 72.25% / 12.75% / 15% of the index set. *)
Theorem stratified_split_sizes (labels : list bool) (seed : Z)
    (tr va te : list nat) :
  stratified_split labels seed = Ok (tr, va, te) ->
  let n := length labels in
  (exists idx_tv labels_tv,
      train_test_split (seq 0 n) test_size labels seed = Ok (idx_tv, te) /\
      Np.take labels idx_tv = Ok labels_tv /\
      train_test_split idx_tv test_size labels_tv seed = Ok (tr, va)) /\
  Permutation (tr ++ va ++ te) (seq 0 n) /\
  length te = (3 * n + 19) / 20 /\
  length va = (3 * (n - length te) + 19) / 20 /\
  length tr = n - length te - length va /\
  (forall k, n = 400 * k ->
     length tr = 289 * k /\ length va = 51 * k /\ length te = 60 * k).
Proof.
  intros H n. unfold stratified_split in H. fold n in H.
  inv_bind H. destruct a as [idx_tv idx_test].
  inv_bind H. rename a into labels_tv.
  inv_bind H. destruct a as [idx_train idx_val].
  inversion H; subst idx_train idx_val idx_test; clear H.
  pose proof (tts_perm _ _ _ _ _ _ Ha) as P1.
  pose proof (tts_test_size _ _ _ _ _ _ Ha) as T1.
  pose proof (tts_perm _ _ _ _ _ _ Ha1) as P2.
  pose proof (tts_test_size _ _ _ _ _ _ Ha1) as T2.
  rewrite n_test_of_15, length_seq in T1. rewrite n_test_of_15 in T2.
  assert (Ln : length idx_tv + length te = n).
  { apply Permutation_length in P1. now rewrite length_app, length_seq in P1. }
  assert (Lt : length tr + length va = length idx_tv).
  { apply Permutation_length in P2. now rewrite length_app in P2. }
  assert (Lv : length va = (3 * (n - length te) + 19) / 20).
  { rewrite T2. do 2 f_equal. lia. }
  split; [eauto|]. split; [|split; [exact T1|split; [exact Lv|split; [lia|]]]].
  - rewrite app_assoc. etransitivity; [|exact P1].
    now apply Permutation_app_tail.
  - intros k Hk.
    assert (Hte : length te = 60 * k).
    { rewrite T1, Hk. replace (3 * (400 * k) + 19) with (19 + (60 * k) * 20) by lia.
      now rewrite Nat.div_add. }
    assert (Hva : length va = 51 * k).
    { rewrite Lv, Hte, Hk.
      replace (3 * (400 * k - 60 * k) + 19) with (19 + (51 * k) * 20) by lia.
      now rewrite Nat.div_add. }
    lia.
Qed.

End Split.

Lemma tail_split_400 :
  @Trainer.stratified_split Sklearn.tail_split labels400 42
  = Ok (seq 0 289, seq 289 51, seq 340 60).
Proof. vm_compute. reflexivity. Qed.

(** C5, witness: the reference splitter on 400 labelled entities. *)
Lemma stratified_split_sizes_witness :
  length (seq 0 289) = 289 * 1 /\ length (seq 289 51) = 51 * 1 /\
  length (seq 340 60) = 60 * 1.
Proof.
  destruct (@stratified_split_sizes _ tail_split_laws labels400 42
              (seq 0 289) (seq 289 51) (seq 340 60) tail_split_400)
    as (_ & _ & _ & _ & _ & Hk).
  exact (Hk 1 eq_refl).
Defined.

(** C5, counterexample: on 400 entities the split is 289/51/60, while
    70% / 15% / 15% of 400 would be 280/60/60. *)
Lemma split_not_70_15_15 :
  exists tr va te,
    @Trainer.stratified_split Sklearn.tail_split labels400 42 = Ok (tr, va, te) /\
    length tr = 289 /\ length va = 51 /\ length te = 60 /\
    ~ (length tr = 280 /\ length va = 60 /\ length te = 60).
Proof.
  exists (seq 0 289), (seq 289 51), (seq 340 60).
  split; [exact tail_split_400|]. rewrite !length_seq.
  repeat split. intros (H & _). discriminate H.
Qed.

(** ** Checkpoint selection *)

(** C1, evaluated.  With a validation part that is not in ascending index
    order ([7; 6] here), the trainer pairs the prediction of entity 6 with
    the label of entity 7 and conversely.  The parameters of epoch 10 score
    both validation entities correctly and those of epoch 20 score both
    wrongly, yet the run records validation F1 = 1 for epoch 20 and
    restores those parameters. *)
Theorem checkpoint_selection_misaligned :
  exists out,
    @Trainer.train_gnn shuffled_split toy_learner labels10 20 42 = Ok out /\
    Trainer.idx_val_used out = [7; 6] /\
    Trainer.all_probs out = toy_probs 20 /\
    (Trainer.selected_val_f1 out == 1)%Q /\
    Trainer.returns_value (@Trainer.aligned_val_f1 toy_learner labels10 [7; 6] 20) 0 /\
    Trainer.returns_value (@Trainer.aligned_val_f1 toy_learner labels10 [7; 6] 10) 1.
Proof.
  eexists. split; [vm_compute; reflexivity|].
  repeat split; reflexivity.
Qed.

(** ** GraphSAGE aggregation *)

Section Sage.
Import Gnn.

Lemma mapM_Ok_map {A B} (f : A -> result B) (g : A -> B) (l : list A) :
  Forall (fun a => f a = Ok (g a)) l -> mapM f l = Ok (map g l).
Proof.
  induction 1 as [|a l Ha _ IH]; [reflexivity|].
  cbn. rewrite Ha. cbn. rewrite IH. reflexivity.
Qed.

Lemma take_in_range {A} `{Inhabited A} (a : list A) (idx : list nat) :
  Forall (fun i => i < length a) idx ->
  Np.take a idx = Ok (map (fun i => a !!! i) idx).
Proof.
  intros Hidx. apply mapM_Ok_map.
  eapply Forall_impl; [exact Hidx|]. cbn. intros i Hi.
  destruct (lookup_lt_is_Some_2 a i Hi) as [y Hy].
  rewrite Hy. f_equal. symmetry. now apply list_lookup_total_correct.
Qed.

Lemma scatter_cons t v row l :
  scatter t ((v, row) :: l) = scatter (alter (fun cur => vadd cur row) v t) l.
Proof. reflexivity. Qed.

Lemma scatter_length t l : length (scatter t l) = length t.
Proof.
  revert t. induction l as [|[v row] l IH]; intros t; [reflexivity|].
  now rewrite scatter_cons, IH, length_alter.
Qed.

Lemma scatter_add_rows_in_range t index src :
  Forall (fun v => v < length t) index ->
  scatter_add_rows t index src = Ok (scatter t (zip index src)).
Proof.
  unfold scatter_add_rows, scatter. intros Hidx.
  assert (Hz : Forall (fun p => fst p < length t) (zip index src)).
  { revert src. induction Hidx as [|v index Hv _ IH]; intros [|r src];
      cbn; constructor; auto. }
  clear Hidx. revert t Hz.
  induction (zip index src) as [|[v row] l IH]; intros t Hz; [reflexivity|].
  inversion Hz as [|? ? Hv Hl]; subst. cbn in Hv.
  rewrite !foldl_cons. unfold mbind at 2, result_bind at 2. cbv beta iota.
  destruct (Nat.ltb_spec v (length t)); [|lia].
  apply IH. eapply Forall_impl; [exact Hl|].
  cbn. intros p. now rewrite length_alter.
Qed.

(** Row [v] after scattering: the rows sent to [v], added in order. *)
Lemma scatter_lookup t l v :
  scatter t l !! v =
  (fun cur => foldl vadd cur (map snd (filter (fun p => fst p = v) l))) <$> t !! v.
Proof.
  revert t. induction l as [|[w row] l IH]; intros t.
  - cbn. now destruct (t !! v).
  - rewrite scatter_cons, IH, filter_cons. cbn.
    destruct (decide (w = v)) as [->|Hne].
    + rewrite list_lookup_alter, decide_True by reflexivity.
      now destruct (t !! v).
    + rewrite list_lookup_alter_ne by exact Hne. reflexivity.
Qed.

Lemma scatter_rows_length (d : nat) t l :
  Forall (fun r => length r = d) t ->
  Forall (fun p => length (snd p) = d) l ->
  Forall (fun r => length r = d) (scatter t l).
Proof.
  intros Ht Hl. revert t Ht.
  induction Hl as [|[v row] l Hrow _ IH]; intros t Ht; [exact Ht|].
  rewrite scatter_cons. apply IH. apply Forall_alter; [exact Ht|].
  intros cur _ Hcur. unfold vadd. rewrite length_zip_with. cbn in Hrow. lia.
Qed.

(** The rows that [scatter_add_] sends to [v] are those of the edges
    entering [v]. *)
Lemma rows_sent_to {A} (f : nat * nat -> A) (edge_index : list (nat * nat)) v :
  map snd (filter (fun p => fst p = v) (zip (map snd edge_index) (map f edge_index)))
  = map f (filter (fun e => snd e = v) edge_index).
Proof.
  induction edge_index as [|e l IH]; [reflexivity|].
  cbn [map zip zip_with]. rewrite !filter_cons. cbn [fst].
  destruct (decide (snd e = v)); cbn; now rewrite IH.
Qed.

Lemma count_rows (q : Q) {A} (l : list A) :
  exists q', foldl vadd [q] (map (fun _ => [1%Q]) l) = [q'] /\
             (q' == q + inject_Z (Z.of_nat (length l)))%Q.
Proof.
  revert q. induction l as [|a l IH]; intros q.
  - exists q. split; [reflexivity|]. cbn. ring.
  - destruct (IH (q + 1)%Q) as (q' & Hf & Hq). exists q'. split; [exact Hf|].
    rewrite Hq. cbn [length]. rewrite Nat2Z.inj_succ, <- Z.add_1_l, inject_Z_plus.
    ring.
Qed.

End Sage.

Lemma ret_bind {A B} (a : A) (f : A -> result B) : Ok a ≫= f = f a.
Proof. reflexivity. Qed.

Section SageSpec.
Import Gnn.

Lemma linear_rows (l : Linear) (x : matrix) :
  Forall (fun r => length r = in_features l) x ->
  linear l x = Ok (map (affine l) x).
Proof.
  intros Hx. apply mapM_Ok_map. eapply Forall_impl; [exact Hx|].
  cbn. intros r Hr. unfold linear_row. now rewrite Hr, Nat.eqb_refl.
Qed.

(** C7.  On an [n x d] input and an edge list over the nodes [0..n-1]
    (possibly empty), [_sage] returns one row per node [v]: the linear
    transform of [x[v]] followed by the linear transform of the aggregate
    of [v], which is the sum of the input rows of the in-neighbours of [v]
    divided by (in-degree + epsilon), and the zero vector when [v] has no
    incoming edge. *)
Theorem sage_mean_aggregation (lin_self lin_neigh : Linear) (x : matrix)
    (edge_index : list (nat * nat)) :
  Forall (fun r => length r = ncols x) x ->
  Forall (fun e => fst e < length x /\ snd e < length x) edge_index ->
  in_features lin_self = ncols x ->
  in_features lin_neigh = ncols x ->
  exists out,
    _sage lin_self lin_neigh x edge_index = Ok out /\
    length out = length x /\
    forall v xv, x !! v = Some xv ->
      exists agg_v,
        out !! v = Some (affine lin_self xv ++ affine lin_neigh agg_v) /\
        veq agg_v (neighbour_mean x edge_index v) /\
        (in_degree edge_index v = 0 -> veq agg_v (replicate (ncols x) 0%Q)).
Proof.
  intros Hx He Hs Hn.
  set (n := length x). set (d := ncols x).
  set (zeros := replicate n (replicate d 0%Q)).
  pose (A := scatter zeros (zip (map snd edge_index)
                (map (fun e : nat * nat => x !!! fst e) edge_index))).
  pose (C := scatter (replicate n [0%Q]) (zip (map snd edge_index)
                (map (fun _ : nat * nat => [1%Q]) edge_index))).
  pose (agg := zip_with
                 (fun row c : vec => map (fun a => (a / (hd 0 c + eps))%Q) row) A C).
  assert (Hsrc : Forall (fun i => i < length x) (map fst edge_index)).
  { rewrite Forall_fmap. eapply Forall_impl; [exact He|]. cbn. tauto. }
  assert (Hdst : Forall (fun i => i < n) (map snd edge_index)).
  { rewrite Forall_fmap. eapply Forall_impl; [exact He|]. cbn. tauto. }
  assert (Hones : replicate (length (map fst edge_index)) [1%Q]
                  = map (fun _ : nat * nat => [1%Q]) edge_index).
  { rewrite length_map. clear. induction edge_index; cbn; congruence. }
  assert (Hrows : map (fun i => x !!! i) (map fst edge_index)
                  = map (fun e : nat * nat => x !!! fst e) edge_index).
  { now rewrite <- list_fmap_compose. }
  assert (HA : Forall (fun r => length r = d) A).
  { apply scatter_rows_length.
    - apply Forall_replicate. apply length_replicate.
    - apply Forall_forall. intros [w row] Hin. cbn.
      apply elem_of_zip_r in Hin. apply list_elem_of_fmap in Hin.
      destruct Hin as (e & -> & Hin).
      rewrite Forall_forall in He. destruct (He e Hin) as [Hlt _].
      destruct (lookup_lt_is_Some_2 x (fst e) Hlt) as [r Hr].
      rewrite (list_lookup_total_correct _ _ _ Hr).
      rewrite Forall_lookup in Hx. exact (Hx _ _ Hr). }
  assert (Hagg : Forall (fun r => length r = d) agg).
  { unfold agg. eapply Forall_zip_with_fst; [exact HA|].
    apply Forall_true. intros c r Hr. now rewrite length_map. }
  assert (HlenA : length A = n).
  { unfold A. rewrite scatter_length. apply length_replicate. }
  assert (HlenC : length C = n).
  { unfold C. rewrite scatter_length. apply length_replicate. }
  exists (zip_with app (map (affine lin_self) x) (map (affine lin_neigh) agg)).
  split; [|split].
  - unfold _sage. fold n d zeros.
    rewrite take_in_range by exact Hsrc. rewrite ret_bind.
    rewrite (scatter_add_rows_in_range zeros)
      by (unfold zeros; now rewrite length_replicate).
    rewrite ret_bind.
    rewrite (scatter_add_rows_in_range (replicate n [0%Q]))
      by now rewrite length_replicate.
    rewrite ret_bind.
    rewrite (linear_rows lin_self x) by now rewrite Hs.
    rewrite ret_bind, Hones, Hrows. fold A C agg.
    rewrite (linear_rows lin_neigh agg) by now rewrite Hn.
    reflexivity.
  - rewrite length_zip_with, !length_map. unfold agg.
    rewrite length_zip_with, HlenA, HlenC. fold n. lia.
  - intros v xv Hv.
    assert (Hvn : v < n) by (eapply lookup_lt_Some; exact Hv).
    set (ins := filter (fun e : nat * nat => snd e = v) edge_index).
    assert (EA : A !! v = Some (neighbour_sum x edge_index v)).
    { unfold A. rewrite scatter_lookup, rows_sent_to. fold ins.
      unfold zeros. rewrite lookup_replicate_2 by exact Hvn. cbn. f_equal.
      unfold neighbour_sum, in_edges. fold ins d. now rewrite !foldl_fmap. }
    destruct (count_rows 0%Q ins) as (c & Hc & Hceq).
    assert (EC : C !! v = Some [c]).
    { unfold C. rewrite scatter_lookup, rows_sent_to. fold ins.
      rewrite lookup_replicate_2 by exact Hvn. cbn. now rewrite Hc. }
    exists (map (fun a => (a / (c + eps))%Q) (neighbour_sum x edge_index v)).
    split; [|split].
    + rewrite lookup_zip_with, !list_lookup_fmap, Hv. unfold agg.
      rewrite lookup_zip_with, EA, EC. reflexivity.
    + unfold neighbour_mean, veq. apply Forall2_fmap, Forall_Forall2_diag.
      apply Forall_true. intros a. unfold in_degree, in_edges. fold ins.
      rewrite length_map, Hceq. now rewrite Qplus_0_l.
    + intros Hdeg. unfold in_degree, in_edges in Hdeg. fold ins in Hdeg.
      rewrite length_map in Hdeg. apply nil_length_inv in Hdeg.
      unfold neighbour_sum, in_edges. fold ins d. rewrite Hdeg. cbn.
      unfold veq. generalize d as k. intros k.
      induction k as [|k IH]; cbn; constructor; [|exact IH].
      unfold Qdiv. apply Qmult_0_l.
Qed.
End SageSpec.

(** C7, witness: three nodes, two edges into node 1. *)
Lemma sage_mean_aggregation_witness :
  exists out,
    Gnn._sage lin_a lin_b x3 edges3 = Ok out /\
    length out = length x3 /\
    forall v xv, x3 !! v = Some xv ->
      exists agg_v,
        out !! v = Some (Gnn.affine lin_a xv ++ Gnn.affine lin_b agg_v) /\
        Gnn.veq agg_v (Gnn.neighbour_mean x3 edges3 v) /\
        (Gnn.in_degree edges3 v = 0 -> Gnn.veq agg_v (replicate (Gnn.ncols x3) 0%Q)).
Proof.
  apply (sage_mean_aggregation lin_a lin_b x3 edges3).
  - repeat constructor.
  - repeat constructor.
  - reflexivity.
  - reflexivity.
Defined.

(** The empty edge list: every node aggregates the zero vector. *)
Example sage_no_edges :
  Gnn._sage lin_a lin_b x3 [] = Ok [[1; 2; 1; 0]; [3; 4; 1; 0]; [5; 8; 1; 0]]%Q.
Proof. reflexivity. Qed.

(** ** The training service *)

Section Alerts.
Context {E : Pipeline.Env}.
Import Pipeline.

Lemma create_alerts_entities res cm (l : list Db.Entity) :
  map Db.a_entity_id (create_alerts res cm l) = map Db.e_id (filter alertable l).
Proof.
  unfold create_alerts.
  enough (G : forall acc,
             map Db.a_entity_id
               (foldl (fun acc db_e =>
                         if Qltb (Db.e_risk_score db_e) threshold then acc
                         else acc ++ [mk_alert res cm (length acc) db_e]) acc l)
             = map Db.a_entity_id acc ++ map Db.e_id (filter alertable l))
    by apply (G []).
  induction l as [|e l IH]; intros acc.
  - cbn. now rewrite app_nil_r.
  - rewrite foldl_cons, filter_cons.
    destruct (decide (alertable e)) as [Ha|Hna].
    + unfold alertable in Ha. rewrite Ha, IH, map_app, <- app_assoc.
      reflexivity.
    + assert (Hlt : Qltb (Db.e_risk_score e) threshold = true).
      { unfold alertable in Hna. now destruct (Qltb _ _). }
      rewrite Hlt. apply IH.
Qed.

Lemma create_alerts_elem res cm (l : list Db.Entity) (a : Db.Alert) :
  a ∈ create_alerts res cm l ->
  exists k e, e ∈ l /\ alertable e /\ a = mk_alert res cm k e.
Proof.
  unfold create_alerts.
  enough (G : forall acc,
             a ∈ foldl (fun acc db_e =>
                          if Qltb (Db.e_risk_score db_e) threshold then acc
                          else acc ++ [mk_alert res cm (length acc) db_e]) acc l ->
             a ∈ acc \/ exists k e, e ∈ l /\ alertable e /\ a = mk_alert res cm k e).
  { intros Ha. destruct (G [] Ha) as [Hnil|Hex]; [|exact Hex].
    now apply not_elem_of_nil in Hnil. }
  induction l as [|e l IH]; intros acc Ha.
  - now left.
  - rewrite foldl_cons in Ha. apply IH in Ha.
    destruct (Qltb (Db.e_risk_score e) threshold) eqn:Hlt.
    + destruct Ha as [Ha|(k & e' & He' & Hal & ->)]; [now left|].
      right. exists k, e'. split; [apply elem_of_cons; now right|easy].
    + destruct Ha as [Ha|(k & e' & He' & Hal & ->)].
      * apply elem_of_app in Ha. destruct Ha as [Ha|Ha]; [now left|].
        apply list_elem_of_singleton in Ha. right.
        exists (length acc), e. split; [apply elem_of_cons; now left|easy].
      * right. exists k, e'. split; [apply elem_of_cons; now right|easy].
Qed.

(** In a list without duplicates an element occurs once or not at all. *)
Lemma NoDup_occurrences (i : string) (l : list string) :
  NoDup l ->
  length (filter (fun j => j = i) l) = if decide (i ∈ l) then 1 else 0.
Proof.
  induction 1 as [|j l Hj Hl IH]; [reflexivity|].
  rewrite filter_cons. destruct (decide (j = i)) as [->|Hne].
  - cbn. rewrite IH. rewrite decide_False by exact Hj.
    rewrite decide_True by (apply elem_of_cons; now left). reflexivity.
  - rewrite IH. destruct (decide (i ∈ l)) as [Hin|Hout].
    + rewrite decide_True by (apply elem_of_cons; now right). reflexivity.
    + rewrite decide_False; [reflexivity|].
      intros Hin. apply elem_of_cons in Hin. destruct Hin; congruence.
Qed.

Lemma filter_map_length {A} (f : A -> string) (i : string) (l : list A) :
  length (filter (fun a => f a = i) l) = length (filter (fun j => j = i) (map f l)).
Proof.
  induction l as [|a l IH]; [reflexivity|].
  cbn [map]. rewrite !filter_cons. destruct (decide (f a = i)); cbn; now rewrite IH.
Qed.

Lemma NoDup_map_filter {A} (f : A -> string) (P : A -> Prop)
    `{forall x, Decision (P x)} (l : list A) :
  NoDup (map f l) -> NoDup (map f (filter P l)).
Proof.
  induction l as [|a l IH]; [easy|]. cbn [map]. intros Hnd.
  apply NoDup_cons in Hnd. destruct Hnd as [Ha Hl].
  rewrite filter_cons. destruct (decide (P a)); [|now apply IH].
  cbn [map]. apply NoDup_cons. split; [|now apply IH].
  intros Hin. apply Ha. apply list_elem_of_fmap in Hin.
  destruct Hin as (b & Hb & Hin). apply list_elem_of_filter in Hin.
  apply list_elem_of_fmap. exists b. tauto.
Qed.

Lemma NoDup_map_inj_elem {A} (f : A -> string) (l : list A) (x y : A) :
  NoDup (map f l) -> x ∈ l -> y ∈ l -> f x = f y -> x = y.
Proof.
  induction l as [|a l IH]; intros Hnd Hx Hy Hf.
  - now apply elem_of_nil in Hx.
  - cbn [map] in Hnd. apply NoDup_cons in Hnd. destruct Hnd as [Ha Hl].
    apply elem_of_cons in Hx. apply elem_of_cons in Hy.
    destruct Hx as [->|Hx], Hy as [->|Hy]; [reflexivity| | |now apply IH].
    + destruct Ha. rewrite Hf. now apply list_elem_of_fmap_2.
    + destruct Ha. rewrite <- Hf. now apply list_elem_of_fmap_2.
Qed.

(** What a successful run leaves behind. *)
Lemma run_train_Ok_inv (d : Db.t) mode seed (s : summary) (d' : Db.t) :
  run_train d mode seed = (Ok s, d') ->
  exists res,
    train (map to_record (Db.entities d)) (map to_tx_record (Db.transactions d))
          mode seed = Ok res /\
    Db.entities d' = map (update_entity res) (Db.entities d) /\
    Db.alerts d'
    = create_alerts res (build_cluster_map (map to_record (Db.entities d)))
                    (Db.entities d') /\
    NoDup (map Db.a_id (Db.alerts d')) /\
    alerts_created s = length (Db.alerts d').
Proof.
  unfold run_train. destruct (Db.entities d) as [|e0 ents] eqn:Hents;
    [discriminate|].
  destruct (train _ _ mode seed) as [res|err]; [|discriminate].
  destruct (mapM _ _) as [new_clusters|err]; [|discriminate].
  case_bool_decide as Hnd; [|discriminate].
  intros [= <- <-]. exists res. cbn. auto.
Qed.

Lemma update_entity_ids res (l : list Db.Entity) :
  map Db.e_id (map (update_entity res) l) = map Db.e_id l.
Proof. rewrite <- list_fmap_compose. reflexivity. Qed.

(** C3.  After a run that completed, the alert table holds exactly one
    alert for every entity whose risk score is at least 0.50 and none for
    an entity below 0.50; its content does not depend on the alerts that
    were stored before the run. *)
Theorem alerts_match_threshold (d : Db.t) mode seed (s : summary) (d' : Db.t) :
  NoDup (map Db.e_id (Db.entities d)) ->
  run_train d mode seed = (Ok s, d') ->
  map Db.a_entity_id (Db.alerts d')
  = map Db.e_id (filter alertable (Db.entities d')) /\
  (forall e, e ∈ Db.entities d' ->
     let for_e := filter (fun a => Db.a_entity_id a = Db.e_id e) (Db.alerts d') in
     ((1 # 2 <= Db.e_risk_score e)%Q -> length for_e = 1) /\
     ((Db.e_risk_score e < 1 # 2)%Q -> length for_e = 0)) /\
  (forall old,
     run_train {| Db.entities := Db.entities d;
                  Db.transactions := Db.transactions d;
                  Db.clusters := Db.clusters d;
                  Db.alerts := old;
                  Db.model_runs := Db.model_runs d |} mode seed = (Ok s, d')).
Proof.
  intros Hnd Hrun.
  destruct (run_train_Ok_inv _ _ _ _ _ Hrun) as (res & Htrain & Hents & Halerts & _ & _).
  assert (Hids : map Db.a_entity_id (Db.alerts d')
                 = map Db.e_id (filter alertable (Db.entities d'))).
  { rewrite Halerts. apply create_alerts_entities. }
  assert (Hnd' : NoDup (map Db.e_id (Db.entities d'))).
  { now rewrite Hents, update_entity_ids. }
  split; [exact Hids|]. split.
  - intros e He for_e. unfold for_e.
    rewrite filter_map_length, Hids, NoDup_occurrences.
    2:{ apply NoDup_map_filter. exact Hnd'. }
    split; intros Hscore.
    + rewrite decide_True; [reflexivity|].
      apply list_elem_of_fmap. exists e. split; [reflexivity|].
      apply list_elem_of_filter. split; [|exact He].
      unfold alertable, threshold. apply Qltb_ge. lra.
    + rewrite decide_False; [reflexivity|].
      intros Hin. apply list_elem_of_fmap in Hin. destruct Hin as (e' & Heq & Hin).
      apply list_elem_of_filter in Hin. destruct Hin as [Hal Hin'].
      assert (e' = e).
      { eapply (NoDup_map_inj_elem Db.e_id); eauto. }
      subst e'. apply Qltb_ge in Hal. unfold threshold in Hal. lra.
  - intros old. revert Hrun. unfold run_train. cbn [Db.entities Db.transactions Db.model_runs].
    destruct (Db.entities d) as [|e0 ents]; [discriminate|].
    destruct (train _ _ mode seed) as [res'|err]; [|discriminate].
    destruct (mapM _ _) as [new_clusters|err]; [|discriminate].
    case_bool_decide; [|discriminate]. easy.
Qed.

End Alerts.

Lemma toy_run :
  @Pipeline.run_train toy_env toy_db "demo" 42 = (Ok toy_summary, toy_after).
Proof. vm_compute. reflexivity. Qed.

(** C3, witness: of three entities scored 0.9, 0.5 and 0.2 the first two
    are alerted; the stale alert on the third is gone. *)
Lemma alerts_match_threshold_witness :
  map Db.a_entity_id (Db.alerts toy_after) = ["E0000000"; "E0000001"].
Proof.
  refine (eq_trans
            (proj1 (@alerts_match_threshold toy_env toy_db "demo" 42
                      toy_summary toy_after _ toy_run)) _).
  - apply (bool_decide_unpack (NoDup _)). vm_compute. exact I.
  - vm_compute. reflexivity.
Defined.

Section RiskLevel.
Context {E : Pipeline.Env}.
Import Pipeline.

Lemma risk_level_cases (score : Q) :
  ((1 # 2 < score)%Q ->
     Explainer.risk_level score = "HIGH" \/ Explainer.risk_level score = "MEDIUM") /\
  ((score <= 1 # 2)%Q -> Explainer.risk_level score = "ELEVATED").
Proof.
  unfold Explainer.risk_level, Qgtb.
  destruct (Qltb (75 # 100) score) eqn:H75;
    destruct (Qltb (50 # 100) score) eqn:H50;
    reflect_Qltb; split; intros Hs; auto; exfalso; lra.
Qed.

(** C4 (as amended).  Every alert of a completed run carries a score of
    at least 0.50 and the narrative generated for its entity at that
    score.  When the score is strictly above 0.50 the risk level of the
    narrative is HIGH or MEDIUM; when it is exactly 0.50 the risk level is
    ELEVATED. *)
Theorem alert_risk_levels (d : Db.t) mode seed (s : summary) (d' : Db.t)
    (a : Db.Alert) :
  run_train d mode seed = (Ok s, d') ->
  a ∈ Db.alerts d' ->
  (1 # 2 <= Db.a_score a)%Q /\
  (exists e cluster_size pattern,
      e ∈ Db.entities d' /\ Db.a_entity_id a = Db.e_id e /\
      Db.a_score a = Db.e_risk_score e /\
      Db.a_narrative a
      = Explainer.generate_narrative (Db.e_id e) (Db.e_entity_type e)
          (Db.e_country e) (Db.a_score a) (Db.e_cluster_id e) cluster_size
          pattern (Db.a_shap_values_json a) 4) /\
  ((1 # 2 < Db.a_score a)%Q ->
     Explainer.risk_level (Db.a_score a) = "HIGH" \/
     Explainer.risk_level (Db.a_score a) = "MEDIUM") /\
  ((Db.a_score a == 1 # 2)%Q -> Explainer.risk_level (Db.a_score a) = "ELEVATED").
Proof.
  intros Hrun Ha.
  destruct (run_train_Ok_inv _ _ _ _ _ Hrun) as (res & _ & _ & Halerts & _ & _).
  rewrite Halerts in Ha. apply create_alerts_elem in Ha.
  destruct Ha as (k & e & He & Hal & ->). cbn [mk_alert Db.a_score].
  split; [|split; [|split]].
  - apply Qltb_ge in Hal. unfold threshold in Hal. lra.
  - eexists e, _, _. cbn. repeat split. exact He.
  - apply risk_level_cases.
  - intros Heq. apply risk_level_cases. lra.
Qed.

End RiskLevel.

(** C4, witness: the alert of the toy run at score 0.9 is HIGH or MEDIUM. *)
Lemma alert_risk_levels_witness :
  (1 # 2 <= Db.a_score toy_alert0)%Q /\
  (Explainer.risk_level (Db.a_score toy_alert0) = "HIGH" \/
   Explainer.risk_level (Db.a_score toy_alert0) = "MEDIUM").
Proof.
  assert (Hmem : toy_alert0 ∈ Db.alerts toy_after).
  { unfold toy_after, toy_alert0, Db.alerts. apply elem_of_cons. now left. }
  destruct (@alert_risk_levels toy_env toy_db "demo" 42 toy_summary
              toy_after toy_alert0 toy_run Hmem) as (Hge & _ & Hgt & _).
  split; [exact Hge|]. apply Hgt. reflexivity.
Defined.

(** C4, counterexample: an entity scored exactly 0.50 is alerted, and the
    narrative of its alert reads ELEVATED. *)
Lemma elevated_alert_at_threshold :
  exists a,
    @Pipeline.run_train toy_env toy_db "demo" 42 = (Ok toy_summary, toy_after) /\
    Db.alerts toy_after !! 1 = Some a /\
    Db.a_entity_id a = "E0000001" /\
    (Pipeline.threshold <= Db.a_score a)%Q /\
    Explainer.risk_level (Db.a_score a) = "ELEVATED" /\
    Str.contains "RISK LEVEL:   ELEVATED  (Tier 3 — Score: 0.5000)"
                 (Db.a_narrative a) = true.
Proof.
  eexists. split; [exact toy_run|]. split; [reflexivity|].
  repeat split; vm_compute; try reflexivity. discriminate.
Qed.

(** ** Narratives *)

Section Narrative.
Import Explainer.

Lemma Qltb_comp (x x' y y' : Q) :
  (x == x')%Q -> (y == y')%Q -> Qltb x y = Qltb x' y'.
Proof. intros Hx Hy. unfold Qltb. now rewrite Hx, Hy. Qed.

Lemma risk_level_comp (s s' : Q) : (s == s')%Q -> risk_level s = risk_level s'.
Proof.
  intros Hs. unfold risk_level, Qgtb.
  now rewrite (Qltb_comp (75 # 100)%Q (75 # 100)%Q s s'),
              (Qltb_comp (50 # 100)%Q (50 # 100)%Q s s').
Qed.

Lemma risk_tier_comp (s s' : Q) : (s == s')%Q -> risk_tier s = risk_tier s'.
Proof.
  intros Hs. unfold risk_tier, Qgtb.
  now rewrite (Qltb_comp (75 # 100)%Q (75 # 100)%Q s s'),
              (Qltb_comp (50 # 100)%Q (50 # 100)%Q s s').
Qed.

Lemma round_half_even_comp (q q' : Q) :
  (q == q')%Q -> Str.round_half_even q = Str.round_half_even q'.
Proof.
  intros Hq. unfold Str.round_half_even.
  rewrite (Qfloor_comp q q' Hq).
  assert (Hd : (q - inject_Z (Qfloor q') == q' - inject_Z (Qfloor q'))%Q)
    by now rewrite Hq.
  now rewrite (Qcompare_comp _ _ Hd (1 # 2)%Q (1 # 2)%Q ltac:(reflexivity)).
Qed.

Lemma format_4f_comp (plus : bool) (q q' : Q) :
  (q == q')%Q -> Str.format_4f plus q = Str.format_4f plus q'.
Proof.
  intros Hq. unfold Str.format_4f.
  rewrite (round_half_even_comp (Qabs q * 10000)%Q (Qabs q' * 10000)%Q)
    by now rewrite Hq.
  now rewrite (Qltb_comp q q' 0%Q 0%Q).
Qed.

Lemma driver_line_comp (x y : string * Q) :
  fst x = fst y -> (snd x == snd y)%Q -> driver_line x = driver_line y.
Proof.
  intros Hk Hv. unfold driver_line, Qgtb.
  now rewrite Hk, (format_4f_comp true _ _ Hv), (Qltb_comp 0%Q 0%Q _ _ ltac:(reflexivity) Hv).
Qed.

Lemma insert_desc_comp (x y : string * Q) (a b : Data.attribution) :
  fst x = fst y /\ (snd x == snd y)%Q -> attr_eq a b ->
  attr_eq (insert_desc x a) (insert_desc y b).
Proof.
  intros Hxy Hab. induction Hab as [|u v a b Huv Hab IH]; cbn.
  - constructor; [exact Hxy|constructor].
  - rewrite (Qltb_comp (Qabs (snd u)) (Qabs (snd v)) (Qabs (snd x)) (Qabs (snd y)))
      by (apply Qabs_wd; tauto).
    destruct (Qltb _ _).
    + constructor; [exact Hxy|]. constructor; [exact Huv|exact Hab].
    + constructor; [exact Huv|exact IH].
Qed.

Lemma sorted_by_magnitude_comp (a b : Data.attribution) :
  attr_eq a b -> attr_eq (sorted_by_magnitude a) (sorted_by_magnitude b).
Proof.
  unfold sorted_by_magnitude. intros Hab.
  enough (G : forall acc acc', attr_eq acc acc' ->
                attr_eq (foldl (fun acc x => insert_desc x acc) acc a)
                        (foldl (fun acc x => insert_desc x acc) acc' b))
    by (apply G; constructor).
  induction Hab as [|x y a b Hxy Hab IH]; intros acc acc' Hacc; [exact Hacc|].
  rewrite !foldl_cons. apply IH. now apply insert_desc_comp.
Qed.

Lemma drivers_str_comp (a b : Data.attribution) (k : Z) :
  attr_eq a b -> drivers_str a k = drivers_str b k.
Proof.
  intros Hab. unfold drivers_str. f_equal.
  apply sorted_by_magnitude_comp in Hab.
  assert (Hs : attr_eq (slice_to (sorted_by_magnitude a) k)
                       (slice_to (sorted_by_magnitude b) k)).
  { unfold slice_to. rewrite (Forall2_length _ _ _ Hab).
    destruct (0 <=? k)%Z; now apply Forall2_take. }
  induction Hs as [|x y l l' [Hk Hv] _ IH]; [reflexivity|].
  cbn. now rewrite IH, (driver_line_comp x y Hk Hv).
Qed.

(** The narrative does not depend on how a number is written: scores and
    attributions that denote the same rationals give the same text. *)
Lemma generate_narrative_comp
    (entity_id entity_type country : string) (risk_score risk_score' : Q)
    (cluster_id : option string) (cluster_size : Z) (pattern_type : string)
    (shap_values shap_values' : Data.attribution) (top_k : Z) :
  (risk_score == risk_score')%Q -> attr_eq shap_values shap_values' ->
  generate_narrative entity_id entity_type country risk_score cluster_id
    cluster_size pattern_type shap_values top_k
  = generate_narrative entity_id entity_type country risk_score' cluster_id
      cluster_size pattern_type shap_values' top_k.
Proof.
  intros Hs Hattr.
  unfold generate_narrative, narrative_lines.
  now rewrite (risk_level_comp _ _ Hs), (risk_tier_comp _ _ Hs),
              (format_4f_comp false _ _ Hs), (drivers_str_comp _ _ top_k Hattr).
Qed.

End Narrative.

(** Two dictionaries that are equal as mappings but were filled in a
    different order can give different narratives when two attributions
    have the same magnitude: the stable sort keeps the insertion order. *)
Example narrative_follows_insertion_order :
  Explainer.drivers_str [("total_sent", 1 # 2); ("burstiness", -1 # 2)]%Q 1
  <> Explainer.drivers_str [("burstiness", -1 # 2); ("total_sent", 1 # 2)]%Q 1.
Proof. vm_compute. discriminate. Qed.

(** ** Feature extraction *)

Section FloatFacts.
Import Float.

Lemma add_nonneg (x y : t) :
  nonneg_or_nan x -> nonneg_or_nan y -> nonneg_or_nan (add x y).
Proof.
  destruct x as [a| | |], y as [b| | |]; cbn; try tauto.
  intros Ha Hb. lra.
Qed.

Lemma py_sum_nonneg (l : list t) :
  Forall nonneg_or_nan l -> nonneg_or_nan (py_sum l).
Proof.
  unfold py_sum. intros Hl.
  enough (G : forall acc, nonneg_or_nan acc -> nonneg_or_nan (foldl add acc l))
    by (apply G; cbn; lra).
  induction Hl as [|x l Hx _ IH]; intros acc Hacc; [exact Hacc|].
  rewrite foldl_cons. apply IH. now apply add_nonneg.
Qed.

Lemma of_nat_nonneg (n : nat) : nonneg_or_nan (of_nat n).
Proof.
  cbn. change 0%Q with (inject_Z 0). rewrite <- Zle_Qle. apply Nat2Z.is_nonneg.
Qed.

Lemma Qeq_bool_false_neq (a b : Q) : Qeq_bool a b = false -> ~ (a == b)%Q.
Proof. intros H Heq. apply Qeq_bool_iff in Heq. congruence. Qed.

Lemma Qdiv_nonneg (a b : Q) : (0 <= a)%Q -> (0 <= b)%Q -> (0 <= a / b)%Q.
Proof.
  intros Ha Hb. unfold Qdiv. apply Qmult_le_0_compat; [exact Ha|].
  now apply Qinv_le_0_compat.
Qed.

Lemma np_div_nonneg (x y : t) :
  nonneg_or_nan x -> nonneg_or_nan y -> nonneg_or_nan (np_div x y).
Proof.
  destruct x as [a| | |], y as [b| | |]; cbn; try tauto; try (intros; lra).
  - intros Ha Hb. destruct (Qeq_bool b 0) eqn:Eb.
    + destruct (Qeq_bool a 0); [exact I|].
      destruct (Qltb a 0) eqn:Ea; [|exact I]. reflect_Qltb. lra.
    + cbn. now apply Qdiv_nonneg.
  - intros _ Hb. destruct (Qltb b 0) eqn:Eb; [|exact I]. reflect_Qltb. lra.
Qed.

Lemma np_mean_nonneg (l : list t) :
  Forall nonneg_or_nan l -> nonneg_or_nan (np_mean l).
Proof.
  intros Hl. unfold np_mean.
  apply np_div_nonneg; [now apply py_sum_nonneg|apply of_nat_nonneg].
Qed.

Lemma py_min_nonneg (a b : t) :
  nonneg_or_nan a -> nonneg_or_nan b -> nonneg_or_nan (py_min a b).
Proof. intros Ha Hb. unfold py_min. now destruct (ltb b a). Qed.

Lemma nan_to_num_ge_0 (x : t) :
  nonneg_or_nan x -> is_finite (nan_to_num x) /\ nonneg (nan_to_num x).
Proof. destruct x; cbn; intros H; split; try exact I; try lra; exact H. Qed.

Lemma nan_to_num_finite (x : t) : is_finite (nan_to_num x).
Proof. now destruct x. Qed.

End FloatFacts.

Section FeatureFacts.
Import Data Features.

Lemma insert_sorted_Forall (P : Z -> Prop) (t : Z) (l : list Z) :
  P t -> Forall P l -> Forall P (insert_sorted t l).
Proof.
  intros Ht Hl. induction Hl as [|u l Hu Hl IH]; cbn.
  - now constructor.
  - destruct (t <=? u)%Z; repeat constructor; assumption.
Qed.

Lemma insert_sorted_sorted (t : Z) (l : list Z) :
  StronglySorted Z.le l -> StronglySorted Z.le (insert_sorted t l).
Proof.
  induction 1 as [|u l Hl IH Hu]; cbn.
  - repeat constructor.
  - destruct (Z.leb_spec t u) as [Hle|Hgt].
    + constructor; [now constructor|]. constructor; [exact Hle|].
      eapply Forall_impl; [exact Hu|]. cbn. intros x Hx. lia.
    + constructor; [exact IH|]. apply insert_sorted_Forall; [lia|exact Hu].
Qed.

Lemma sorted_sorted (l : list Z) : StronglySorted Z.le (sorted l).
Proof.
  induction l as [|t l IH]; cbn; [constructor|]. now apply insert_sorted_sorted.
Qed.

(** Gaps between consecutive timestamps of a sorted list are not negative. *)
Lemma deltas_nonneg (t0 : Z) (l : list Z) :
  StronglySorted Z.le l ->
  Forall Float.nonneg_or_nan
         (Float.np_diff (map (fun t => total_seconds t t0) l)).
Proof.
  induction 1 as [|a l Hl IH Ha]; [constructor|].
  destruct l as [|b l]; [constructor|].
  cbn [map Float.np_diff]. constructor; [|exact IH].
  inversion Ha as [|? ? Hab _]; subst.
  unfold total_seconds. cbn. unfold Qle. cbn. lia.
Qed.

Lemma alter_preserves {V} (P : V -> Prop) (f : V -> V) (k : string)
    (m : gmap string V) :
  (forall v, P v -> P (f v)) ->
  (forall j v, m !! j = Some v -> P v) ->
  forall j v, alter f k m !! j = Some v -> P v.
Proof.
  intros Hf Hm j v. rewrite lookup_alter.
  destruct (decide (k = j)) as [->|]; [|apply Hm].
  destruct (m !! j) as [w|] eqn:Ew; cbn; intros [= <-]. apply Hf, (Hm _ _ Ew).
Qed.

Lemma accumulate_amounts (eids : list string) (txs : list TransactionRecord) :
  Forall (fun tx => Float.nonneg_or_nan (amount tx)) txs ->
  forall eid acc, accumulate eids txs !! eid = Some acc -> amounts_ok acc.
Proof.
  unfold accumulate. intros Htx.
  assert (H0 : forall eid acc,
             (list_to_map (map (fun eid => (eid, fresh)) eids)
                : gmap string accumulators) !! eid = Some acc -> amounts_ok acc).
  { intros eid acc Hacc. apply elem_of_list_to_map_2 in Hacc.
    apply list_elem_of_fmap in Hacc. destruct Hacc as (? & [= -> ->] & _).
    split; constructor. }
  revert H0. generalize (list_to_map (map (fun eid => (eid, fresh)) eids)
                           : gmap string accumulators).
  induction Htx as [|tx txs Hamt _ IH]; intros m Hm; [exact Hm|].
  rewrite foldl_cons. apply IH.
  assert (Hout : forall a, amounts_ok a -> amounts_ok (record_out tx a)).
  { intros a [Ho Hi]. split; cbn; [|exact Hi].
    apply Forall_app. split; [exact Ho|]. now constructor. }
  assert (Hin : forall a, amounts_ok a -> amounts_ok (record_in tx a)).
  { intros a [Ho Hi]. split; cbn; [exact Ho|].
    apply Forall_app. split; [exact Hi|]. now constructor. }
  apply alter_preserves; [exact Hin|]. apply alter_preserves; [exact Hout|].
  exact Hm.
Qed.


Lemma fresh_map_lookup (eids : list string) (eid : string) :
  eid ∈ eids ->
  is_Some ((list_to_map (map (fun eid => (eid, fresh)) eids)
              : gmap string accumulators) !! eid).
Proof.
  induction eids as [|k eids IH]; intros Hin.
  - now apply elem_of_nil in Hin.
  - cbn. rewrite lookup_insert. destruct (decide (k = eid)); [eauto|].
    apply IH. apply elem_of_cons in Hin. destruct Hin; congruence.
Qed.

Lemma alter_is_Some {V} (f : V -> V) (k j : string) (m : gmap string V) :
  is_Some (m !! j) -> is_Some (alter f k m !! j).
Proof.
  rewrite lookup_alter. destruct (decide (k = j)) as [->|]; [|auto].
  intros [a ->]. cbn. eauto.
Qed.

Lemma accumulate_dom (eids : list string) (txs : list TransactionRecord)
    (eid : string) :
  eid ∈ eids -> is_Some (accumulate eids txs !! eid).
Proof.
  intros Hin. unfold accumulate. apply fresh_map_lookup in Hin. revert Hin.
  generalize (list_to_map (map (fun eid => (eid, fresh)) eids)
                : gmap string accumulators).
  induction txs as [|tx txs IH]; intros m Hm; [exact Hm|].
  rewrite foldl_cons. apply IH. now do 2 apply alter_is_Some.
Qed.

Lemma entity_lookup_dom (entities : list EntityRecord) (e : EntityRecord) :
  e ∈ entities ->
  is_Some (foldl (fun m e => <[id e := e]> m) (∅ : gmap string EntityRecord)
                 entities !! id e).
Proof.
  enough (G : forall (m : gmap string EntityRecord),
             e ∈ entities \/ is_Some (m !! id e) ->
             is_Some (foldl (fun m e => <[id e := e]> m) m entities !! id e))
    by (intros He; apply G; now left).
  induction entities as [|x l IH]; intros m H.
  - destruct H as [H|H]; [now apply elem_of_nil in H|exact H].
  - rewrite foldl_cons. apply IH. destruct H as [H|H].
    + apply elem_of_cons in H. destruct H as [->|H]; [|now left].
      right. rewrite lookup_insert, decide_True by reflexivity. eauto.
    + right. rewrite lookup_insert. destruct (decide (id x = id e)); eauto.
Qed.

Lemma mapM_Ok_Forall2 {A B} (f : A -> result B) (l : list A) (k : list B) :
  mapM f l = Ok k -> Forall2 (fun a b => f a = Ok b) l k.
Proof.
  revert k. induction l as [|a l IH]; intros k H.
  - inversion H. constructor.
  - cbn in H. inv_bind H. inv_bind H. inversion H; subst.
    constructor; [assumption|]. now apply IH.
Qed.

Lemma mapM_total {A B} (f : A -> result B) (l : list A) :
  Forall (fun a => exists b, f a = Ok b) l -> exists k, mapM f l = Ok k.
Proof.
  induction 1 as [|a l [b Hb] _ [k Hk]]; [now exists []|].
  exists (b :: k). cbn. rewrite Hb. cbn. now rewrite Hk.
Qed.

Lemma list_to_map_nonneg (kvs : list (string * Float.t)) :
  Forall (fun kv => Float.nonneg_or_nan (snd kv)) kvs ->
  values_nonneg (list_to_map kvs).
Proof.
  intros Hkvs eid. destruct (list_to_map kvs !! eid) as [x|] eqn:Ex; cbn; [|lra].
  apply elem_of_list_to_map_2 in Ex. rewrite Forall_forall in Hkvs.
  exact (Hkvs _ Ex).
Qed.

Lemma nat_ratio_nonneg (a b : nat) :
  (0 <= inject_Z (Z.of_nat a) / inject_Z (Z.of_nat b))%Q.
Proof.
  apply Qdiv_nonneg; change 0%Q with (inject_Z 0); rewrite <- Zle_Qle;
    apply Nat2Z.is_nonneg.
Qed.

Lemma nx_centrality_nonneg deg (G : Nx.DiGraph) :
  values_nonneg (Nx.centrality deg G).
Proof.
  unfold Nx.centrality. destruct (_ <=? 1)%nat; apply list_to_map_nonneg;
    apply Forall_fmap, Forall_true; intros v; cbn; [lra|apply nat_ratio_nonneg].
Qed.

Lemma fallback_centrality_nonneg deg (G : Nx.DiGraph) m :
  fallback_centrality deg G = Ok m -> values_nonneg m.
Proof.
  unfold fallback_centrality. intros H. inv_bind H. inversion H; subst.
  apply list_to_map_nonneg. apply mapM_Ok_Forall2 in Ha.
  clear H. induction Ha as [|nd kv l k Hkv _ IH]; [constructor|].
  constructor; [|exact IH]. inv_bind Hkv. inversion Hkv; subst. cbn. unfold int_div in Ha.
  destruct (_ =? 0)%nat; [discriminate|]. inversion Ha. apply nat_ratio_nonneg.
Qed.

Lemma centralities_nonneg (G : Nx.DiGraph) dc idc :
  centralities G = Ok (dc, idc) -> values_nonneg dc /\ values_nonneg idc.
Proof.
  unfold centralities. destruct (_ <=? 8000)%Z.
  - intros [= <- <-]. split; apply nx_centrality_nonneg.
  - intros H. inv_bind H. inv_bind H. inversion H; subst.
    split; eapply fallback_centrality_nonneg; eassumption.
Qed.

End FeatureFacts.

Section FeatureTheorems.
Context {K : Float.Kernels}.
Import Data Features.

Lemma max_or_zero_nonneg (l : list Float.t) :
  Forall Float.nonneg_or_nan l -> Float.nonneg_or_nan (max_or_zero l).
Proof.
  intros Hl. destruct Hl as [|x l Hx Hl]; cbn; [lra|].
  revert x Hx. induction Hl as [|y l Hy _ IH]; intros x Hx; [exact Hx|].
  rewrite foldl_cons. apply IH. now destruct (Float.ltb x y).
Qed.

Lemma mean_or_zero_nonneg (l : list Float.t) :
  Forall Float.nonneg_or_nan l -> Float.nonneg_or_nan (mean_or_zero l).
Proof.
  intros Hl. destruct l; cbn -[Float.np_mean]; [lra|now apply np_mean_nonneg].
Qed.

Lemma eps9_sum_nonneg (y : Float.t) :
  Float.nonneg_or_nan y ->
  Float.nonneg_or_nan (Float.add y (Float.Fin eps9)) /\
  Float.is_zero (Float.add y (Float.Fin eps9)) = false.
Proof.
  destruct y as [b| | |]; cbn; try tauto. unfold eps9. intros Hb.
  split; [lra|]. destruct (Qeq_bool _ _) eqn:E; [|reflexivity].
  apply Qeq_bool_iff in E. lra.
Qed.

Section WithLaws.
Context {KL : Float.KernelLaws K}.

Lemma burstiness_nonneg (ts : list Z) : Float.nonneg_or_nan (burstiness ts).
Proof.
  unfold burstiness. pose proof (sorted_sorted ts) as Hs.
  destruct (sorted ts) as [|t0 [|t1 [|t2 l]]]; cbn -[Float.np_diff Float.np_mean map]; try lra.
  apply np_div_nonneg; [apply Float.np_std_nonneg|].
  apply eps9_sum_nonneg, np_mean_nonneg. now apply deltas_nonneg.
Qed.

Lemma feature_row_ok (acc : accumulators) (e : EntityRecord)
    (dc idc : gmap string Float.t) (eid : string) :
  amounts_ok acc -> values_nonneg dc -> values_nonneg idc ->
  exists r, feature_row acc e dc idc eid = Ok r /\
            Forall Float.nonneg_or_nan r.
Proof.
  intros [Ho Hi] Hdc Hidc. unfold feature_row.
  destruct (eps9_sum_nonneg _ (py_sum_nonneg _ Ho)) as [Hden Hnz].
  unfold Float.py_div. rewrite Hnz, ret_bind.
  eexists. split; [reflexivity|].
  repeat (apply Forall_cons; split); try apply Forall_nil;
    try apply Float.log1p_nonneg;
    auto using py_sum_nonneg, of_nat_nonneg, mean_or_zero_nonneg,
               max_or_zero_nonneg, np_div_nonneg.
  - apply py_min_nonneg; [apply burstiness_nonneg|cbn; lra].
  - destruct (bool_decide _); cbn; lra.
Qed.

End WithLaws.

Lemma feature_row_length (acc : accumulators) (e : EntityRecord)
    (dc idc : gmap string Float.t) (eid : string) (r : list Float.t) :
  feature_row acc e dc idc eid = Ok r -> length r = 18.
Proof. unfold feature_row. intros H. inv_bind H. now inversion H. Qed.

End FeatureTheorems.

Section FeatureMatrix.
Context {K : Float.Kernels}.
Import Data Features.

(** Every entry of an array that went through [nan_to_num] is finite. *)
Lemma nan_to_num_data_finite (a : ndarray) :
  Forall (Forall Float.is_finite) (data (nan_to_num a)).
Proof.
  cbn. apply Forall_fmap, Forall_true. intros r.
  apply Forall_fmap, Forall_true. intros x. apply nan_to_num_finite.
Qed.

(** Whenever [compute_node_features] returns: the ids are the entity ids
    in order, the names are the 18 feature names, the array has one row of
    18 finite entries per entity, and its shape is [(n, 18)] unless there
    is no entity, in which case it is [(0,)]. *)
Lemma compute_node_features_returns (G : Nx.DiGraph)
    (entities : list EntityRecord) (transactions : list TransactionRecord)
    (m : ndarray) (ids names : list string) :
  compute_node_features G entities transactions = Ok (m, ids, names) ->
  ids = map id entities /\ names = feature_names /\ length names = 18 /\
  length (data m) = length entities /\
  Forall (fun r => length r = 18 /\ Forall Float.is_finite r) (data m) /\
  shape m = match entities with [] => [0] | _ => [length entities; 18] end.
Proof.
  unfold compute_node_features. intros H.
  inv_bind H. destruct a as [dc idc]. inv_bind H. rename a into rows.
  inversion H; subst; clear H.
  apply mapM_Ok_Forall2 in Ha0.
  assert (Hlen : length rows = length entities).
  { apply Forall2_length in Ha0. now rewrite length_map in Ha0. }
  assert (Hrows : Forall (fun r => length r = 18) rows).
  { clear Hlen. induction Ha0 as [|eid r l k Hr _ IH]; constructor; [|exact IH].
    destruct (_ !! eid); [|discriminate]. destruct (_ !! eid); [|discriminate].
    eapply feature_row_length; exact Hr. }
  repeat split.
  - destruct rows; cbn; [exact Hlen|]. rewrite !length_map. exact Hlen.
  - destruct rows as [|r rows]; [constructor|].
    change (data (nan_to_num (np_array (r :: rows))))
      with (map (map Float.nan_to_num) (map (map Float.float32) (r :: rows))).
    apply Forall_fmap, Forall_fmap.
    eapply Forall_impl; [exact Hrows|]. cbn. intros r' Hr'.
    split; [now rewrite !length_map|].
    apply Forall_fmap, Forall_true. intros x. apply nan_to_num_finite.
  - destruct rows as [|r rows], entities as [|e entities]; cbn in *;
      try discriminate; [reflexivity|].
    inversion Hrows; subst. congruence.
Qed.

End FeatureMatrix.

Section FeaturesNonneg.
Context {K : Float.Kernels} {KL : Float.KernelLaws K}.
Import Data Features.

(** C10 (as amended).  When no transaction amount is below zero, every
    entry of the matrix returned by [compute_node_features] is a finite
    number greater than or equal to 0, whatever the graph, the entities
    and the transactions; and the function does return when the graph has
    at most 8000 nodes. *)
Theorem features_nonneg (G : Nx.DiGraph) (entities : list EntityRecord)
    (transactions : list TransactionRecord) :
  Forall (fun tx => Float.nonneg_or_nan (amount tx)) transactions ->
  (forall m ids names,
      compute_node_features G entities transactions = Ok (m, ids, names) ->
      Forall (Forall (fun x => Float.is_finite x /\ Float.nonneg x)) (data m)) /\
  ((Z.of_nat (length (Nx.nodes G)) <= 8000)%Z ->
   exists m,
     compute_node_features G entities transactions
     = Ok (m, map id entities, feature_names)).
Proof.
  intros Htx. split.
  - intros m ids names H. unfold compute_node_features in H.
    inv_bind H. destruct a as [dc idc]. inv_bind H. rename a into rows.
    inversion H; subst; clear H.
    destruct (centralities_nonneg _ _ _ Ha) as [Hdc Hidc].
    apply mapM_Ok_Forall2 in Ha0.
    assert (Hrows : Forall (Forall Float.nonneg_or_nan) rows).
    { induction Ha0 as [|eid r l k Hr _ IH]; constructor; [|exact IH].
      destruct (accumulate _ _ !! eid) as [acc|] eqn:Eacc; [|discriminate].
      destruct (foldl _ _ entities !! eid) as [e|]; [|discriminate].
      destruct (feature_row_ok acc e dc idc eid) as (r' & Hr' & Hnn); auto.
      { eapply accumulate_amounts; eassumption. }
      congruence. }
    destruct rows as [|r rows]; [constructor|].
    change (data (nan_to_num (np_array (r :: rows))))
      with (map (map Float.nan_to_num) (map (map Float.float32) (r :: rows))).
    apply Forall_fmap, Forall_fmap.
    eapply Forall_impl; [exact Hrows|]. cbn. intros r' Hr'.
    apply Forall_fmap, Forall_fmap.
    eapply Forall_impl; [exact Hr'|]. cbn. intros x Hx.
    apply nan_to_num_ge_0, Float.float32_nonneg, Hx.
  - intros Hn. unfold compute_node_features, centralities.
    destruct (Z.leb_spec (Z.of_nat (length (Nx.nodes G))) 8000) as [_|Hgt]; [|lia].
    rewrite ret_bind.
    destruct (mapM_total
                (fun eid =>
                   match accumulate (map id entities) transactions !! eid,
                         foldl (fun m e => <[id e := e]> m)
                               (∅ : gmap string EntityRecord) entities !! eid with
                   | Some acc, Some e =>
                       feature_row acc e (Nx.degree_centrality G)
                                   (Nx.in_degree_centrality G) eid
                   | _, _ => Raise KeyError
                   end) (map id entities)) as [rows Hrows].
    { apply Forall_fmap, Forall_forall. intros e He. cbn.
      destruct (accumulate_dom (map id entities) transactions (id e))
        as [acc Hacc]; [now apply list_elem_of_fmap_2|].
      destruct (entity_lookup_dom entities e He) as [e' He'].
      rewrite Hacc, He'.
      destruct (feature_row_ok acc e' (Nx.degree_centrality G)
                  (Nx.in_degree_centrality G) (id e)) as (r & Hr & _);
        eauto using nx_centrality_nonneg.
      eapply accumulate_amounts; eassumption. }
    rewrite Hrows, ret_bind. eauto.
Qed.

End FeaturesNonneg.

Lemma abs_dev_nonneg (m x : Float.t) : Float.nonneg_or_nan (abs_dev m x).
Proof.
  unfold abs_dev. destruct (Float.sub x m); cbn; try exact I. apply Qabs_nonneg.
Qed.

Lemma ref_kernel_laws : Float.KernelLaws ref_kernels.
Proof.
  split.
  - intros [q| | |]; cbn; try tauto. intros Hq.
    destruct (Qltb q (-1)) eqn:E1; [reflect_Qltb; lra|].
    destruct (Qeq_bool q (-1)) eqn:E2; [apply Qeq_bool_iff in E2; lra|].
    cbn. apply Qdiv_nonneg; lra.
  - intros l. cbn. unfold mean_abs_dev. destruct l as [|x l]; [exact I|].
    apply np_mean_nonneg, Forall_fmap, Forall_true. intros y.
    apply abs_dev_nonneg.
  - intros [q| | |]; cbn; try tauto. intros Hq.
    destruct (Qltb float32_max (Qabs q)); [|exact Hq].
    destruct (Qltb q 0) eqn:E; [reflect_Qltb; lra|exact I].
Qed.

Lemma small_features :
  @Features.compute_node_features ref_kernels
    (Features.build_networkx_graph small_entities small_transfers)
    small_entities small_transfers
  = Ok (small_matrix, map Data.id small_entities, Features.feature_names).
Proof. vm_compute. reflexivity. Qed.

(** C10, witness: the features of three entities and four transfers. *)
Lemma features_nonneg_witness :
  Forall (Forall (fun x => Float.is_finite x /\ Float.nonneg x))
         (Features.data small_matrix).
Proof.
  refine (proj1 (@features_nonneg ref_kernels ref_kernel_laws
                   (Features.build_networkx_graph small_entities small_transfers)
                   small_entities small_transfers _) _ _ _ small_features).
  repeat constructor; cbn; lra.
Defined.

(** With one transfer of amount -0.5 from A to B, the first feature of A
    is [log1p(-0.5)], converted to [float32], whatever the kernels. *)
Lemma negative_amount_entry (K : Float.Kernels) :
  exists m ids names row,
    @Features.extract_features K small_entities refund = Ok (m, ids, names) /\
    Features.data m !! 0 = Some row /\
    row !! 0
    = Some (Float.nan_to_num (Float.float32 (Float.log1p (Float.Fin (-1 # 2))))).
Proof.
  eexists _, _, _, _. split; [vm_compute; reflexivity|].
  split; reflexivity.
Qed.

(** C10, counterexample: one transfer of amount -0.5 from A to B; the
    first feature of A (log1p of the total sent) is negative. *)
Lemma negative_feature :
  exists m ids names row q,
    @Features.extract_features ref_kernels small_entities refund
    = Ok (m, ids, names) /\
    Features.data m !! 0 = Some row /\ row !! 0 = Some (Float.Fin q) /\
    (q < 0)%Q /\ ~ Float.nonneg (Float.Fin q).
Proof.
  eexists _, _, _, _, _. split; [vm_compute; reflexivity|].
  split; [reflexivity|]. split; [reflexivity|]. cbn. split; [reflexivity|].
  intros H. apply (Qle_not_lt _ _ H). reflexivity.
Qed.

Lemma foldl_max_zeros (l : list nat) :
  Forall (fun d => d = 0) l -> foldl Nat.max 0 l = 0.
Proof. induction 1 as [|d l -> _ IH]; [reflexivity|exact IH]. Qed.

(** On a graph with more than 8000 nodes and no edge, the largest degree
    is 0 and the first division [d / max_d] raises. *)
Lemma centralities_no_edges (G : Nx.DiGraph) :
  (8000 < Z.of_nat (length (Nx.nodes G)))%Z -> Nx.edges G = [] ->
  Features.centralities G = Raise ZeroDivisionError.
Proof.
  intros Hn He. unfold Features.centralities.
  destruct (Z.leb_spec (Z.of_nat (length (Nx.nodes G))) 8000) as [|_]; [lia|].
  assert (Hdeg : forall v, Nx.degree G v = 0).
  { intros v. unfold Nx.degree, Nx.out_degree, Nx.in_degree. now rewrite He. }
  unfold Features.fallback_centrality.
  destruct (Nx.nodes G) as [|v l]; [cbn in Hn; lia|].
  cbn [map Features.max_default]. rewrite Hdeg, foldl_max_zeros.
  - reflexivity.
  - apply Forall_fmap, Forall_true. exact Hdeg.
Qed.

(** Without any entity the array returned has shape [(0,)]: it has no
    second dimension. *)
Example no_entities_shape (K : Float.Kernels) :
  exists m,
    @Features.extract_features K [] small_transfers
    = Ok (m, [], Features.feature_names) /\ Features.shape m = [0].
Proof. eexists. split; reflexivity. Qed.

(** ** The synthetic network *)

Section Identifiers.
Import Generator.

Lemma decode_zeros (k : nat) (s : string) :
  decode (string_of_list_ascii (replicate k "0"%char) +:+ s) = decode s.
Proof.
  induction k as [|k IH]; [reflexivity|]. rewrite <- IH.
  set (X := string_of_list_ascii (replicate k "0"%char) +:+ s).
  change (decode (String "0" X) = decode X). unfold decode.
  change (NilEmpty.uint_of_string (String "0" X))
    with (Decimal.D0 <$> NilEmpty.uint_of_string X).
  now destruct (NilEmpty.uint_of_string X).
Qed.

Lemma decode_zfill (width n : nat) : decode (zfill width n) = Some n.
Proof.
  unfold zfill. rewrite decode_zeros. unfold decode, Str.of_nat.
  assert (H : NilZero.string_of_uint (Nat.to_uint n)
              = NilEmpty.string_of_uint (Nat.to_uint n)).
  { pose proof (Unsigned.to_of (Nat.to_uint n)) as Hn.
    rewrite Unsigned.of_to in Hn.
    destruct (Nat.to_uint n); try reflexivity. discriminate Hn. }
  rewrite H, NilEmpty.usu. cbn. f_equal. apply Unsigned.of_to.
Qed.

Lemma zfill_inj (width n m : nat) : zfill width n = zfill width m -> n = m.
Proof.
  intros H. apply (f_equal decode) in H. rewrite !decode_zfill in H. congruence.
Qed.

Lemma ids_NoDup (prefix : string) (width : nat) (l : list nat) :
  NoDup l -> NoDup (map (fun i => prefix +:+ zfill width i) l).
Proof.
  intros Hl. apply NoDup_fmap_2_strong; [|exact Hl].
  intros i j _ _ H. apply (zfill_inj width).
  induction prefix as [|c p IH]; [exact H|]. cbn in H. inversion H. auto.
Qed.

End Identifiers.

Section GenFacts.
Import Random.

Lemma gen_bind_Ok {A B} (m : Gen A) (f : A -> Gen B) (s : list nat)
    (b : B) (s' : list nat) :
  (m ≫= f) s = Ok (b, s') ->
  exists a s1, m s = Ok (a, s1) /\ f a s1 = Ok (b, s').
Proof.
  unfold mbind, gen_bind. destruct (m s) as [[a s1]|e]; [eauto|discriminate].
Qed.

Lemma gen_ret_Ok {A} (a b : A) (s s' : list nat) :
  (mret a : Gen A) s = Ok (b, s') -> a = b /\ s = s'.
Proof. unfold mret, gen_ret. now intros [= -> ->]. Qed.

Lemma gen_mapM_Forall2 {A B} (P : A -> B -> Prop) (f : A -> Gen B)
    (l : list A) :
  (forall a s b s', f a s = Ok (b, s') -> P a b) ->
  forall s bs s', mapM f l s = Ok (bs, s') -> Forall2 P l bs.
Proof.
  intros Hf. induction l as [|a l IH]; intros s bs s' H.
  - apply gen_ret_Ok in H. destruct H as [<- _]. constructor.
  - cbn in H. apply gen_bind_Ok in H. destruct H as (b & s1 & Hb & H).
    apply gen_bind_Ok in H. destruct H as (k & s2 & Hk & H).
    apply gen_ret_Ok in H. destruct H as [<- _].
    constructor; [eapply Hf; exact Hb|eapply IH; exact Hk].
Qed.

Lemma for_each_invariant {A S} (P : S -> Prop) (body : S -> A -> Gen S)
    (l : list A) :
  (forall st a s st' s', P st -> body st a s = Ok (st', s') -> P st') ->
  forall st s st' s', P st -> for_each l body st s = Ok (st', s') -> P st'.
Proof.
  intros Hbody. induction l as [|a l IH]; intros st s st' s' Hst H.
  - apply gen_ret_Ok in H. now destruct H as [<- _].
  - cbn in H. apply gen_bind_Ok in H. destruct H as (st1 & s1 & H1 & H).
    eapply IH; [|exact H]. eapply Hbody; eassumption.
Qed.

Lemma sample_from_spec {A} (k : nat) (pool : list A) (s : list nat)
    (l : list A) (s' : list nat) :
  sample_from k pool s = Ok (l, s') -> NoDup pool -> NoDup l /\ l ⊆ pool.
Proof.
  revert pool s l s'. induction k as [|k IH]; intros pool s l s' H Hnd.
  - apply gen_ret_Ok in H. destruct H as [<- _]. split; [constructor|].
    intros x Hx. now apply elem_of_nil in Hx.
  - cbn in H. apply gen_bind_Ok in H. destruct H as (d & s1 & _ & H).
    destruct (pool !! (d mod length pool)) as [x|] eqn:Ex; [|discriminate].
    apply gen_bind_Ok in H. destruct H as (rest & s2 & Hrest & H).
    apply gen_ret_Ok in H. destruct H as [<- _].
    pose proof (delete_Permutation _ _ _ Ex) as Hperm.
    rewrite Hperm in Hnd. apply NoDup_cons in Hnd. destruct Hnd as [Hx Hnd].
    destruct (IH _ _ _ _ Hrest Hnd) as [Hnd' Hsub]. split.
    + apply NoDup_cons. split; [|exact Hnd']. intros Hin. apply Hx, Hsub, Hin.
    + intros y Hy. rewrite Hperm. apply elem_of_cons in Hy.
      apply elem_of_cons. destruct Hy as [->|Hy]; [now left|right; now apply Hsub].
Qed.

Lemma sample_spec {A} (pool : list A) (k : nat) (s : list nat)
    (l : list A) (s' : list nat) :
  sample pool k s = Ok (l, s') -> NoDup pool -> NoDup l /\ l ⊆ pool.
Proof.
  unfold sample. destruct (_ <? _)%nat; [discriminate|]. apply sample_from_spec.
Qed.

End GenFacts.

(** Inversion of a bind of the generator monad that returned. *)
Ltac inv_gen H :=
  let a := fresh "a" in
  let s := fresh "s" in
  let Ha := fresh "Ha" in
  apply gen_bind_Ok in H; destruct H as (a & s & Ha & H).

Section Cycles.
Import Data Random Generator.

Lemma make_tx_endpoints (src dst : string) (is_suspicious : bool) (tx_idx : nat)
    (amount : option Q) (channel country : option string) (days_spread : nat)
    (s : list nat) (tx : TransactionRecord) (s' : list nat) :
  _make_tx src dst is_suspicious tx_idx amount channel country days_spread s
  = Ok (tx, s') ->
  Data.src tx = src /\ Data.dst tx = dst.
Proof.
  unfold _make_tx. intros H. do 6 inv_gen H.
  apply gen_ret_Ok in H. destruct H as [<- _]. split; reflexivity.
Qed.

(** The arcs [cycle[i] -> cycle[(i + 1) % n]], for [i] from 0 to [n - 1],
    are the arcs of the closed walk through [cycle]. *)
Lemma cycle_edges_by_index (cycle : list string) (arcs : list (string * string)) :
  Forall2 (fun i p => cycle !! i = Some (fst p) /\
                      cycle !! ((i + 1) mod length cycle) = Some (snd p))
          (seq 0 (length cycle)) arcs ->
  arcs = cycle_edges cycle.
Proof.
  intros H. pose proof (Forall2_length _ _ _ H) as Hlen. rewrite length_seq in Hlen.
  destruct cycle as [|a rest]; [now destruct arcs|].
  apply list_eq. intros i. unfold cycle_edges.
  destruct (decide (i < length (a :: rest))) as [Hi|Hi].
  - destruct (Forall2_lookup_l _ _ _ i i H) as ([x y] & Hp & Hx & Hy).
    { now apply lookup_seq_lt. }
    cbn [fst snd] in Hx, Hy. rewrite Hp. symmetry.
    apply lookup_zip_with_Some. exists x, y. split; [reflexivity|].
    split; [exact Hx|].
    assert (Hy' : (rest ++ [a]) !! i = Some y).
    { cbn [length] in Hi, Hy. destruct (decide (i + 1 = S (length rest))) as [E|E].
      - rewrite E, Nat.Div0.mod_same in Hy. cbn in Hy.
        rewrite lookup_app_r by lia. replace (i - length rest) with 0 by lia.
        exact Hy.
      - rewrite Nat.mod_small in Hy by lia.
        rewrite lookup_app_l by lia. rewrite Nat.add_1_r in Hy. exact Hy. }
    exact Hy'.
  - rewrite lookup_ge_None_2 by lia. symmetry. apply lookup_ge_None_2.
    rewrite length_zip_with, length_app. cbn [length] in *. lia.
Qed.

Lemma generate_circular_spec (susp_ids normal_ids : list string) (off : nat)
    (s : list nat) (txs : list TransactionRecord) (cycle : list string)
    (s' : list nat) :
  _generate_circular susp_ids normal_ids off s = Ok ((txs, cycle), s') ->
  NoDup susp_ids -> NoDup normal_ids ->
  NoDup cycle /\ endpoints txs = cycle_edges cycle.
Proof.
  unfold _generate_circular. intros H Hs Hn.
  inv_gen H. rename a into cycle_size. inv_gen H. rename a into c.
  inv_gen H. inv_gen H. rename a0 into l.
  apply gen_ret_Ok in H. destruct H as [[= <- <-] _].
  apply sample_spec in Ha0; [|now destruct (_ <=? _)%nat].
  destruct Ha0 as [Hnd _]. split; [exact Hnd|].
  apply cycle_edges_by_index. unfold endpoints. apply Forall2_fmap_r.
  eapply gen_mapM_Forall2; [|exact Ha2].
  intros i r1 tx r2 Htx. cbv beta in Htx. cbv beta. cbn [fst snd].
  destruct (c !! i) as [x|]; [|unfold raise in Htx; discriminate Htx].
  destruct (c !! ((i + 1) mod length c)) as [y|]; [|unfold raise in Htx; discriminate Htx].
  do 3 inv_gen Htx. apply make_tx_endpoints in Htx. destruct Htx as [<- <-].
  split; reflexivity.
Qed.

End Cycles.

Section Dataset.
Import Data Random Generator.

Lemma pattern_loop_ok
    (generate_pattern : list string -> list string -> nat
                        -> Gen (list TransactionRecord * list string))
    (kind : pattern) (prefix : string) (susp_ids normal_ids : list string)
    (n : nat) (d : dataset) (s : list nat) (d' : dataset) (s' : list nat) :
  (kind = Circular ->
   forall off r txs members r',
     generate_pattern susp_ids normal_ids off r = Ok ((txs, members), r') ->
     NoDup members /\ endpoints txs = cycle_edges members) ->
  circular_ok d /\ labels_ok d ->
  pattern_loop generate_pattern kind prefix susp_ids normal_ids n d s = Ok (d', s') ->
  circular_ok d' /\ labels_ok d'.
Proof.
  intros Hgen Hd Hloop. unfold pattern_loop in Hloop.
  eapply (for_each_invariant (fun d => circular_ok d /\ labels_ok d));
    [|exact Hd|exact Hloop].
  clear Hd Hloop. intros st k r st' r' [Hc Hl] Hbody.
  inv_gen Hbody. destruct a as [new_txs members].
  apply gen_ret_Ok in Hbody. destruct Hbody as [<- _]. split.
  - intros t Ht Hk. cbn [assembled transactions] in *.
    apply elem_of_app in Ht. destruct Ht as [Ht|Ht].
    + destruct (Hc t Ht Hk) as (H1 & H2 & H3). repeat split; try assumption.
      intros tx Htx. apply elem_of_app. left. now apply H3.
    + apply list_elem_of_singleton in Ht. subst t. cbn in *.
      destruct (Hgen Hk _ _ _ _ _ Ha) as [H1 H2]. repeat split; try assumption.
      intros tx Htx. apply elem_of_app. now right.
  - intros e cid He Hcid. cbn [assembled entity_map] in *.
    unfold label in He. apply list_elem_of_fmap in He.
    destruct He as (e0 & -> & He0). case_bool_decide as Hin.
    + cbn in Hcid. injection Hcid as <-. eexists. split.
      * apply elem_of_app. right. apply list_elem_of_singleton. reflexivity.
      * cbn. split; [reflexivity|exact Hin].
    + destruct (Hl e0 cid He0 Hcid) as (t & Ht & Hid & Hm).
      exists t. split; [|easy]. apply elem_of_app. now left.
Qed.

End Dataset.

Section Assemble.
Import Data Random Generator.

Lemma create_entities_spec (n : nat) (s : list nat) (ents : list EntityRecord)
    (s' : list nat) :
  _create_entities n s = Ok (ents, s') ->
  map id ents = map (fun i => "E" +:+ zfill 7 i) (seq 0 n) /\
  Forall (fun e => cluster_id e = None) ents.
Proof.
  unfold _create_entities. intros H.
  assert (F : Forall2 (fun i e => id e = "E" +:+ zfill 7 i /\ cluster_id e = None)
                      (seq 0 n) ents).
  { eapply gen_mapM_Forall2; [|exact H]. cbv beta.
    intros i r e r' He. do 2 inv_gen He.
    apply gen_ret_Ok in He. destruct He as [<- _]. split; reflexivity. }
  clear H. induction F as [|i e l k [Hi Hc] _ [IH1 IH2]]; [split; constructor|].
  split; [cbn; now rewrite Hi, IH1|now constructor].
Qed.

Lemma assemble_ok (n_entities n_normal_tx n_smurf n_layer n_circ : nat)
    (s : list nat) (d : dataset) (s' : list nat) :
  assemble n_entities n_normal_tx n_smurf n_layer n_circ s = Ok (d, s') ->
  circular_ok d /\ labels_ok d.
Proof.
  unfold assemble. intros H.
  inv_gen H. rename a into entities. inv_gen H. rename a into normal_txs.
  inv_gen H. inv_gen H.
  destruct (create_entities_spec _ _ _ _ Ha) as [Hids Hnone].
  assert (Hnd : NoDup (map id entities)).
  { rewrite Hids. apply ids_NoDup, NoDup_seq. }
  assert (H0 : circular_ok {| entity_map := entities; transactions := normal_txs;
                              tx_offset := n_normal_tx; assembled := [] |} /\
               labels_ok {| entity_map := entities; transactions := normal_txs;
                            tx_offset := n_normal_tx; assembled := [] |}).
  { split.
    - intros t Ht. now apply elem_of_nil in Ht.
    - intros e cid He Hcid. cbn in He. rewrite Forall_forall in Hnone.
      rewrite (Hnone e He) in Hcid. discriminate. }
  eapply pattern_loop_ok in Ha1; [|discriminate|exact H0].
  eapply pattern_loop_ok in Ha2; [|discriminate|exact Ha1].
  eapply pattern_loop_ok in H; [exact H| |exact Ha2].
  intros _ off r txs members r' Hgen.
  eapply generate_circular_spec; [exact Hgen| |]; now apply NoDup_map_filter.
Qed.

(** C6 (as amended).  In every generated dataset, the transactions
    generated for a circular-pattern cluster form a closed directed cycle
    that visits each member returned for that cluster exactly once, and
    they are all part of the dataset; an entity that ends the run carrying
    a cluster label is one of the members returned for a cluster of that
    label. *)
Theorem circular_clusters_are_cycles (mode : string) (draws : list nat)
    (d : dataset) (rest : list nat) :
  generate_traced mode draws = Ok (d, rest) ->
  generate mode draws = Ok ((entity_map d, transactions d), rest) /\
  (forall t, t ∈ assembled d -> trace_kind t = Circular ->
     closed_cycle (trace_txs t) (trace_members t) /\
     NoDup (trace_members t) /\
     endpoints (trace_txs t) = cycle_edges (trace_members t) /\
     trace_txs t ⊆ transactions d) /\
  (forall e cid, e ∈ entity_map d -> cluster_id e = Some cid ->
     exists t, t ∈ assembled d /\ trace_id t = cid /\ id e ∈ trace_members t).
Proof.
  unfold generate_traced, generate, _generate_dataset.
  destruct (sizes mode) as [[[[n1 n2] n3] n4] n5]. intros H.
  split; [|destruct (assemble_ok _ _ _ _ _ _ _ _ H) as [Hc Hl]; split].
  - unfold mbind, gen_bind. now rewrite H.
  - intros t Ht Hk. destruct (Hc t Ht Hk) as (H1 & H2 & H3).
    repeat split; try assumption. exists (trace_members t). easy.
  - exact Hl.
Qed.

End Assemble.

Lemma closed_cycle_length (txs : list Data.TransactionRecord)
    (members : list string) :
  Generator.closed_cycle txs members -> length txs = length members.
Proof.
  intros (order & Hperm & _ & He). rewrite <- (Permutation_length Hperm).
  apply (f_equal length) in He. unfold Generator.endpoints in He.
  rewrite length_map in He. rewrite He. unfold Generator.cycle_edges.
  destruct order as [|a rest]; [reflexivity|].
  rewrite length_zip_with, length_app. cbn [length]. lia.
Qed.

Lemma overlapping_run :
  Generator.generate_traced "demo" overlapping_draws = Ok (overlapping_dataset, []).
Proof. vm_compute. reflexivity. Qed.

(** C6, witness: the demo-size run on [overlapping_draws]. *)
Lemma circular_clusters_are_cycles_witness :
  Generator.generate "demo" overlapping_draws
  = Ok ((Generator.entity_map overlapping_dataset,
         Generator.transactions overlapping_dataset), []).
Proof.
  exact (proj1 (circular_clusters_are_cycles "demo" overlapping_draws
                  overlapping_dataset [] overlapping_run)).
Defined.

(** C6, counterexample.  In that run the cycle of [CLU_CIRC_0000] goes
    through entities 0, 1 and 2; entity 2 is then drawn again for
    [CLU_CIRC_0001] and ends the run with that label.  The transactions of
    [CLU_CIRC_0000] between the two entities that still carry its label
    are the single transfer from entity 0 to entity 1, which is no closed
    cycle through both. *)
Lemma overwritten_cycle_member :
  Generator.generate_traced "demo" overlapping_draws = Ok (overlapping_dataset, []) /\
  Generator.assembled overlapping_dataset !! 16 = Some first_cycle /\
  Generator.trace_kind first_cycle = Generator.Circular /\
  Generator.trace_id first_cycle = "CLU_CIRC_0000" /\
  Generator.trace_members first_cycle = ["E0000000"; "E0000001"; "E0000002"] /\
  Generator.final_members "CLU_CIRC_0000" (Generator.entity_map overlapping_dataset)
  = ["E0000000"; "E0000001"] /\
  Generator.endpoints
    (Generator.restricted (Generator.trace_txs first_cycle)
       (Generator.final_members "CLU_CIRC_0000"
          (Generator.entity_map overlapping_dataset)))
  = [("E0000000", "E0000001")] /\
  ~ Generator.closed_cycle
      (Generator.restricted (Generator.trace_txs first_cycle)
         (Generator.final_members "CLU_CIRC_0000"
            (Generator.entity_map overlapping_dataset)))
      (Generator.final_members "CLU_CIRC_0000"
         (Generator.entity_map overlapping_dataset)).
Proof.
  split; [exact overlapping_run|].
  assert (Hm : Generator.final_members "CLU_CIRC_0000"
                 (Generator.entity_map overlapping_dataset)
               = ["E0000000"; "E0000001"]) by (vm_compute; reflexivity).
  assert (He : Generator.endpoints
                 (Generator.restricted (Generator.trace_txs first_cycle)
                    ["E0000000"; "E0000001"])
               = [("E0000000", "E0000001")]) by (vm_compute; reflexivity).
  rewrite Hm. repeat split; try (vm_compute; reflexivity); try exact He.
  intros Hc. apply closed_cycle_length in Hc.
  apply (f_equal length) in He. unfold Generator.endpoints in He.
  rewrite length_map in He. rewrite He in Hc. discriminate Hc.
Qed.

(** ** Large graphs without transactions *)

Section LargeGraph.
Import Data Features.

Lemma add_nodes_fresh (ents : list EntityRecord) (G : Nx.DiGraph) :
  NoDup (Nx.nodes G ++ map id ents) ->
  foldl (fun G e => Nx.add_node G (id e)) G ents
  = {| Nx.nodes := Nx.nodes G ++ map id ents; Nx.edges := Nx.edges G |}.
Proof.
  revert G. induction ents as [|e ents IH]; intros G Hnd.
  - cbn. rewrite app_nil_r. now destruct G.
  - rewrite foldl_cons. cbn [map] in Hnd.
    assert (Hfresh : id e ∉ Nx.nodes G).
    { apply NoDup_app in Hnd. destruct Hnd as (_ & Hdisj & _).
      intros Hin. apply (Hdisj _ Hin). apply elem_of_cons. now left. }
    unfold Nx.add_node at 2. rewrite bool_decide_eq_false_2 by exact Hfresh.
    rewrite IH; cbn [Nx.nodes Nx.edges].
    + now rewrite <- app_assoc.
    + now rewrite <- app_assoc.
Qed.

(** More than 8000 entities with distinct ids and no transaction at all:
    the graph has as many nodes and no edge, and feature extraction
    raises. *)
Lemma no_transactions_large_raises (K : Float.Kernels)
    (ents : list EntityRecord) :
  NoDup (map id ents) -> (8000 < Z.of_nat (length ents))%Z ->
  extract_features ents [] = Raise ZeroDivisionError.
Proof.
  intros Hnd Hlen. unfold extract_features, build_networkx_graph.
  cbn [foldl]. rewrite add_nodes_fresh by exact Hnd.
  unfold compute_node_features. rewrite centralities_no_edges; [reflexivity| |reflexivity].
  cbn [Nx.nodes Nx.empty app]. now rewrite length_map.
Qed.

End LargeGraph.

Lemma many_entities_distinct : NoDup (map Data.id many_entities).
Proof.
  unfold many_entities. rewrite <- list_fmap_compose.
  apply (ids_NoDup "E" 7), NoDup_seq.
Qed.

(** C2, evaluated.  8001 entities with distinct ids and no transaction:
    the graph has 8001 nodes, so the centralities take the branch for
    large graphs, where every degree is divided by the largest degree,
    which is 0; the call raises [ZeroDivisionError] and returns no matrix. *)
Theorem large_graph_without_edges_raises (K : Float.Kernels) :
  Z.of_nat (length many_entities) = 8001%Z /\
  @Features.extract_features K many_entities [] = Raise ZeroDivisionError.
Proof.
  assert (Hlen : Z.of_nat (length many_entities) = 8001%Z).
  { unfold many_entities. rewrite length_map, length_seq. now apply Z2Nat.id. }
  split; [exact Hlen|].
  apply no_transactions_large_raises; [exact many_entities_distinct|].
  rewrite Hlen. reflexivity.
Qed.

(** ** More generic facts *)

Lemma filter_ext_elem {A} (P Q : A -> Prop) `{forall x, Decision (P x)}
    `{forall x, Decision (Q x)} (l : list A) :
  (forall x, x ∈ l -> P x <-> Q x) -> filter P l = filter Q l.
Proof.
  induction l as [|a l IH]; intros HPQ; [reflexivity|].
  rewrite !filter_cons.
  assert (Ha : P a <-> Q a) by (apply HPQ, elem_of_cons; now left).
  assert (Hl : filter P l = filter Q l).
  { apply IH. intros x Hx. apply HPQ, elem_of_cons. now right. }
  destruct (decide (P a)), (decide (Q a)); try tauto; now rewrite Hl.
Qed.

Lemma mapM_ext_result {A B} (f g : A -> result B) (l : list A) :
  (forall a, f a = g a) -> mapM f l = mapM g l.
Proof.
  intros Hfg. induction l as [|a l IH]; [reflexivity|].
  cbn [mapM]. now rewrite Hfg, IH.
Qed.

Lemma StronglySorted_snoc {A} (R : A -> A -> Prop) (l : list A) (x : A) :
  StronglySorted R l -> Forall (fun a => R a x) l -> StronglySorted R (l ++ [x]).
Proof.
  induction 1 as [|a l Hl IH Ha]; intros Hx.
  - repeat constructor.
  - inversion Hx; subst. cbn. constructor; [now apply IH|].
    apply Forall_app. split; [exact Ha|]. now constructor.
Qed.

(** ** Boolean masks of the trainer *)

Section Masks.
Import Np.

Lemma mask_step_raise (n : nat) (e : exn) (indices : list nat) :
  foldl (fun (acc : result (list bool)) i =>
           m ← acc;
           if (i <? n)%nat then Ok (<[i := true]> m) else Raise IndexError)
        (Raise e) indices = Raise e.
Proof. induction indices as [|i l IH]; [reflexivity|exact IH]. Qed.

Lemma mask_fold_in_range (n : nat) (indices : list nat) (m0 : list bool) :
  Forall (fun i => i < n) indices ->
  foldl (fun (acc : result (list bool)) i =>
           m ← acc;
           if (i <? n)%nat then Ok (<[i := true]> m) else Raise IndexError)
        (Ok m0) indices
  = Ok (foldl (fun (m : list bool) i => <[i := true]> m) m0 indices).
Proof.
  intros H. revert m0. induction H as [|i l Hi _ IH]; intros m0; [reflexivity|].
  rewrite !foldl_cons. cbn -[Nat.ltb]. apply Nat.ltb_lt in Hi. rewrite Hi. apply IH.
Qed.

Lemma mask_fold_out_of_range (n : nat) (indices : list nat) (m0 : list bool) :
  ~ Forall (fun i => i < n) indices ->
  foldl (fun (acc : result (list bool)) i =>
           m ← acc;
           if (i <? n)%nat then Ok (<[i := true]> m) else Raise IndexError)
        (Ok m0) indices
  = Raise IndexError.
Proof.
  revert m0. induction indices as [|i l IH]; intros m0 H.
  - destruct H. constructor.
  - rewrite foldl_cons. cbn -[Nat.ltb]. destruct (Nat.ltb_spec i n) as [Hi|Hi].
    + apply IH. intros Hl. apply H. now constructor.
    + apply mask_step_raise.
Qed.

Lemma marks_length (indices : list nat) (m0 : list bool) :
  length (foldl (fun (m : list bool) i => <[i := true]> m) m0 indices) = length m0.
Proof.
  revert m0. induction indices as [|i l IH]; intros m0; [reflexivity|].
  rewrite foldl_cons, IH. apply length_insert.
Qed.

Lemma marks_lookup (indices : list nat) (m0 : list bool) (i : nat) (b : bool) :
  m0 !! i = Some b ->
  foldl (fun (m : list bool) i => <[i := true]> m) m0 indices !! i
  = Some (bool_decide (i ∈ indices) || b).
Proof.
  revert m0 b. induction indices as [|j l IH]; intros m0 b Hb.
  - cbn [foldl]. rewrite Hb, bool_decide_eq_false_2 by apply not_elem_of_nil.
    reflexivity.
  - rewrite foldl_cons. destruct (decide (i = j)) as [->|Hne].
    + rewrite (IH _ true).
      * f_equal. rewrite orb_true_r.
        rewrite (bool_decide_eq_true_2 (j ∈ j :: l)); [reflexivity|].
        apply elem_of_cons. now left.
      * apply list_lookup_insert_eq. eapply lookup_lt_Some. exact Hb.
    + rewrite (IH _ b).
      * f_equal. f_equal. apply bool_decide_ext. rewrite elem_of_cons. tauto.
      * rewrite list_lookup_insert_ne by congruence. exact Hb.
Qed.

(** What a mask that was built holds. *)
Lemma mask_Ok_inv (n : nat) (indices : list nat) (m : list bool) :
  mask n indices = Ok m ->
  Forall (fun i => i < n) indices /\
  m = map (fun i => bool_decide (i ∈ indices)) (seq 0 n).
Proof.
  unfold mask. intros H.
  destruct (decide (Forall (fun i => i < n) indices)) as [Hin|Hout].
  - split; [exact Hin|]. rewrite mask_fold_in_range in H by exact Hin.
    injection H as <-. apply list_eq. intros i.
    destruct (decide (i < n)) as [Hi|Hi].
    + rewrite (marks_lookup _ _ i false) by now apply lookup_replicate_2.
      rewrite orb_false_r, list_lookup_fmap, lookup_seq_lt by exact Hi.
      reflexivity.
    + rewrite !lookup_ge_None_2; [reflexivity| |].
      * rewrite length_map, length_seq. lia.
      * rewrite marks_length, length_replicate. lia.
  - rewrite mask_fold_out_of_range in H by exact Hout. discriminate.
Qed.

(** [a[mask]] lists the marked entries by ascending position. *)
Lemma select_marked {A} (a : list A) (marked : nat -> bool) (k : nat) :
  select a (map marked (seq k (length a)))
  = map snd (filter (fun p => marked (fst p) = true) (zip (seq k (length a)) a)).
Proof.
  revert k. induction a as [|x a IH]; intros k; [reflexivity|].
  cbn [length seq map select zip zip_with]. rewrite filter_cons. cbn [fst].
  destruct (marked k) eqn:E.
  - rewrite decide_True by reflexivity. cbn [map snd]. f_equal. apply IH.
  - rewrite decide_False by discriminate. apply IH.
Qed.

Lemma take_ascending {A} (a : list A) (indices : list nat) (k : nat) :
  StronglySorted lt indices ->
  Forall (fun i => k <= i < k + length a) indices ->
  mapM (fun i => match a !! (i - k) with Some x => Ok x | None => Raise IndexError end)
       indices
  = Ok (map snd (filter (fun p => bool_decide (fst p ∈ indices) = true)
                        (zip (seq k (length a)) a))).
Proof.
  revert indices k. induction a as [|x a IH]; intros indices k Hs Hr.
  - destruct indices as [|i l]; [reflexivity|].
    inversion Hr; subst. cbn in *. lia.
  - cbn [length seq zip zip_with]. rewrite filter_cons. cbn [fst].
    destruct indices as [|i l].
    + rewrite decide_False.
      2:{ rewrite bool_decide_eq_false_2; [discriminate|apply not_elem_of_nil]. }
      rewrite <- (IH [] (S k)); [reflexivity|constructor|constructor].
    + inversion Hs as [|? ? Hl Hi]; subst. inversion Hr as [|? ? Hik Hlr]; subst.
      destruct (decide (i = k)) as [->|Hne].
      * rewrite decide_True.
        2:{ apply bool_decide_eq_true_2, elem_of_cons. now left. }
        assert (Hl' : Forall (fun j => S k <= j < S k + length a) l).
        { rewrite Forall_forall in Hi, Hlr. apply Forall_forall. intros j Hj.
          specialize (Hi j Hj). specialize (Hlr j Hj). cbn in Hlr. lia. }
        cbn [mapM]. rewrite Nat.sub_diag. cbn [lookup list_lookup].
        rewrite ret_bind.
        assert (E1 : mapM (fun i => match (x :: a) !! (i - k) with
                                    | Some x => Ok x | None => Raise IndexError end) l
                     = mapM (fun i => match a !! (i - S k) with
                                      | Some x => Ok x | None => Raise IndexError end) l).
        { clear -Hl'. induction Hl' as [|j l Hj _ IHl]; [reflexivity|].
          cbn [mapM]. rewrite IHl.
          replace (j - k) with (S (j - S k)) by lia. reflexivity. }
        rewrite E1, (IH l (S k) Hl Hl'). cbn.
        do 3 f_equal. apply filter_ext_elem. intros [j y] Hjy. cbn [fst].
        assert (j <> k).
        { apply elem_of_zip_l in Hjy. apply elem_of_seq in Hjy. lia. }
        rewrite !bool_decide_eq_true, elem_of_cons. intuition congruence.
      * assert (Hl' : Forall (fun j => S k <= j < S k + length a) (i :: l)).
        { constructor; [cbn in Hik; lia|].
          rewrite Forall_forall in Hi, Hlr. apply Forall_forall. intros j Hj.
          specialize (Hi j Hj). specialize (Hlr j Hj). cbn in Hlr, Hik. lia. }
        rewrite decide_False.
        2:{ rewrite bool_decide_eq_false_2; [discriminate|].
            rewrite elem_of_cons. intros [?|Hk]; [congruence|].
            rewrite Forall_forall in Hi. specialize (Hi k Hk). cbn in Hik. lia. }
        rewrite <- (IH (i :: l) (S k) Hs Hl').
        clear -Hl'. induction Hl' as [|j l0 Hj _ IHl]; [reflexivity|].
        cbn [mapM]. rewrite IHl.
        replace (j - k) with (S (j - S k)) by lia. reflexivity.
Qed.


(** [mask] (trainer.py, lines 84-87).  When every index is below [n] the
    mask has [n] entries and is [True] exactly at the positions listed,
    whatever their order and however often they are listed; an index that
    is not below [n] is an [IndexError]. *)
Theorem mask_marks_indices (n : nat) (indices : list nat) :
  (Forall (fun i => i < n) indices ->
     mask n indices = Ok (map (fun i => bool_decide (i ∈ indices)) (seq 0 n))) /\
  (~ Forall (fun i => i < n) indices -> mask n indices = Raise IndexError).
Proof.
  split; intros H.
  - destruct (mask n indices) as [m|e] eqn:E.
    + apply mask_Ok_inv in E. now destruct E as [_ ->].
    + unfold mask in E. rewrite mask_fold_in_range in E by exact H. discriminate.
  - apply mask_fold_out_of_range, H.
Qed.

Lemma ascending_take_is_select {A} (a : list A) (indices : list nat)
    (m : list bool) :
  StronglySorted lt indices ->
  mask (length a) indices = Ok m ->
  take a indices = Ok (select a m).
Proof.
  intros Hs H. apply mask_Ok_inv in H. destruct H as [Hr ->].
  rewrite select_marked, <- (take_ascending a indices 0 Hs).
  - unfold take. apply mapM_ext_result. intros i. now rewrite Nat.sub_0_r.
  - eapply Forall_impl; [exact Hr|]. cbn. lia.
Qed.

(** Selection by a mask (trainer.py, line 125: [val_prob[val_mask]]).
    [a[mask(indices)]] lists the entries of [a] at the marked positions by
    ascending position; it is [a[indices]] when the indices are strictly
    ascending. *)
Theorem mask_selects_by_position {A} (a : list A) (indices : list nat)
    (m : list bool) :
  mask (length a) indices = Ok m ->
  select a m
  = map snd (filter (fun p => fst p ∈ indices) (zip (seq 0 (length a)) a)) /\
  (StronglySorted lt indices -> take a indices = Ok (select a m)).
Proof.
  intros H. split; [|intros Hs; now apply ascending_take_is_select].
  apply mask_Ok_inv in H. destruct H as [_ ->].
  rewrite select_marked. f_equal.
  apply list_filter_iff. intros p. apply bool_decide_eq_true.
Qed.

End Masks.

(** Four entries, positions 3 and 1 marked in that order: the selection
    lists position 1 first. *)
Lemma mask_selects_by_position_witness :
  Np.select ["a"; "b"; "c"; "d"] [false; true; false; true]
  = map snd (filter (fun p => fst p ∈ [3; 1])
                    (zip (seq 0 4) ["a"; "b"; "c"; "d"])).
Proof.
  exact (proj1 (mask_selects_by_position ["a"; "b"; "c"; "d"] [3; 1]
                  [false; true; false; true] eq_refl)).
Defined.

(** ** Validation and checkpoints *)

Lemma ratio0_unit (num den : nat) :
  num <= den -> (0 <= Metrics.ratio0 num den <= 1)%Q.
Proof.
  intros H. unfold Metrics.ratio0. destruct den as [|d]; [split; lra|].
  assert (Hd : (0 < inject_Z (Z.of_nat (S d)))%Q).
  { change 0%Q with (inject_Z 0). rewrite <- Zlt_Qlt. lia. }
  assert (Hn : (0 <= inject_Z (Z.of_nat num))%Q).
  { change 0%Q with (inject_Z 0). rewrite <- Zle_Qle. lia. }
  assert (Hle : (inject_Z (Z.of_nat num) <= inject_Z (Z.of_nat (S d)))%Q).
  { rewrite <- Zle_Qle. lia. }
  split.
  - apply Qle_shift_div_l; [exact Hd|]. lra.
  - apply Qle_shift_div_r; [exact Hd|]. lra.
Qed.

Section Validation.
Context {L : Trainer.Learner}.
Import Np Metrics Trainer.

Lemma validate_f1 (labels : list bool) (idx_val : list nat) (val_mask : list bool)
    (m : state) (vm : metrics) :
  validate labels idx_val val_mask m = Ok vm ->
  exists y_true,
    take labels idx_val = Ok y_true /\
    f1 vm = f1_score y_true
              (gt_threshold (select (predict_proba m) val_mask) (1 # 2)).
Proof.
  unfold validate. intros H. inv_bind H. inv_bind H.
  unfold compute_classification_metrics in H.
  destruct (negb _); [discriminate|]. injection H as <-. eauto.
Qed.

Lemma validate_f1_nonneg (labels : list bool) (idx_val : list nat)
    (val_mask : list bool) (m : state) (vm : metrics) :
  validate labels idx_val val_mask m = Ok vm -> (0 <= f1 vm)%Q.
Proof.
  intros H. apply validate_f1 in H. destruct H as (y & _ & ->).
  apply ratio0_unit. lia.
Qed.

(** Validation on an ascending split (trainer.py, lines 122-126).  When
    the validation indices are strictly ascending, the F1 the trainer
    computes pairs every validation entity's prediction with that entity's
    own label. *)
Theorem validate_aligned_when_ascending (labels : list bool)
    (idx_val : list nat) (val_mask : list bool) (m : state) (vm : metrics) :
  StronglySorted lt idx_val ->
  length (predict_proba m) = length labels ->
  mask (length labels) idx_val = Ok val_mask ->
  validate labels idx_val val_mask m = Ok vm ->
  aligned_val_f1 labels idx_val m = Ok (f1 vm).
Proof.
  intros Hs Hlen Hmask Hv. apply validate_f1 in Hv.
  destruct Hv as (y_true & Hy & ->). rewrite <- Hlen in Hmask.
  pose proof (ascending_take_is_select _ _ _ Hs Hmask) as Htake.
  unfold aligned_val_f1. rewrite Hy, ret_bind, Htake, ret_bind.
  reflexivity.
Qed.

End Validation.

Lemma toy_validate :
  @Trainer.validate toy_learner labels10 [6; 7] mask_6_7 10 = Ok toy_val_metrics.
Proof. vm_compute. reflexivity. Qed.

(** The toy learner after 10 steps, validated on entities 6 and 7. *)
Lemma validate_aligned_when_ascending_witness :
  @Trainer.aligned_val_f1 toy_learner labels10 [6; 7] 10
  = Ok (Metrics.f1 toy_val_metrics).
Proof.
  apply (@validate_aligned_when_ascending toy_learner labels10 [6; 7] mask_6_7 10).
  - repeat constructor.
  - reflexivity.
  - reflexivity.
  - exact toy_validate.
Defined.

Section Checkpoints.
Context {L : Trainer.Learner}.
Import Np Metrics Trainer.
Variables (labels : list bool) (idx_val : list nat) (val_mask : list bool).

Lemma training_loop_S (epochs : nat) (m0 : state) :
  training_loop labels idx_val val_mask (S epochs) m0
  = training_loop labels idx_val val_mask epochs m0
    ≫= fun ls => epoch_body labels idx_val val_mask ls (S epochs).
Proof.
  unfold training_loop. rewrite seq_S, foldl_app. reflexivity.
Qed.

(** Runs shorter than ten epochs (trainer.py, lines 108-135): the
    validation branch is never entered, no snapshot is taken, and the
    parameters used afterwards are those of the last epoch. *)
Theorem no_checkpoint_before_epoch_10 (epochs : nat) (m0 : state) :
  epochs < 10 ->
  training_loop labels idx_val val_mask epochs m0
  = Ok {| model := Nat.iter epochs train_step m0; best_val_f1 := (-1)%Q;
          best_state := None |} /\
  restore_best {| model := Nat.iter epochs train_step m0; best_val_f1 := (-1)%Q;
                  best_state := None |}
  = Nat.iter epochs train_step m0.
Proof.
  intros H. split; [|reflexivity].
  induction epochs as [|k IH]; [reflexivity|].
  rewrite training_loop_S, IH, ret_bind by lia. unfold epoch_body.
  cbn [model best_val_f1 best_state].
  destruct (Nat.eqb_spec (S k mod 10) 0) as [E|_]; [|reflexivity].
  rewrite Nat.mod_small in E by lia. discriminate.
Qed.

Lemma training_loop_retained (epochs : nat) (m0 : state) (ls : loop_state) :
  training_loop labels idx_val val_mask epochs m0 = Ok ls ->
  model ls = Nat.iter epochs train_step m0 /\
  ((epochs < 10 /\ best_state ls = None /\ best_val_f1 ls = (-1)%Q) \/
   exists e vm,
     1 <= e <= epochs /\ e mod 10 = 0 /\
     validate labels idx_val val_mask (Nat.iter e train_step m0) = Ok vm /\
     best_val_f1 ls = f1 vm /\
     best_state ls = Some (state_dict (Nat.iter e train_step m0)) /\
     forall e' vm', 1 <= e' <= epochs -> e' mod 10 = 0 ->
       validate labels idx_val val_mask (Nat.iter e' train_step m0) = Ok vm' ->
       (f1 vm' <= f1 vm)%Q /\ (e' < e -> (f1 vm' < f1 vm)%Q)).
Proof.
  revert ls. induction epochs as [|k IH]; intros ls H.
  - injection H as <-. split; [reflexivity|]. left. repeat split. lia.
  - rewrite training_loop_S in H. inv_bind H. rename a into ls0.
    destruct (IH ls0 Ha) as [Hm Hbest]. clear IH Ha.
    unfold epoch_body in H. rewrite Hm in H.
    change (train_step (Nat.iter k train_step m0))
      with (Nat.iter (S k) train_step m0) in H.
    destruct (Nat.eqb_spec (S k mod 10) 0) as [E|E].
    + inv_bind H. rename a into vm.
      pose proof (validate_f1_nonneg _ _ _ _ _ Ha) as Hnn.
      destruct (Qgtb (f1 vm) (best_val_f1 ls0)) eqn:Hgt; injection H as <-;
        (split; [reflexivity|]); right; cbn [best_val_f1 best_state];
        unfold Qgtb in Hgt; reflect_Qltb.
      * exists (S k), vm. repeat split; try lia; try assumption.
        -- destruct (decide (e' = S k)) as [->|Hne].
           ++ rewrite Ha in H1. injection H1 as <-. lra.
           ++ destruct Hbest as [(Hk & _ & _)|(e & vm0 & _ & _ & _ & Hb & _ & Hall)].
              ** rewrite Nat.mod_small in H0 by lia. lia.
              ** destruct (Hall e' vm') as [Hle _]; try assumption; try lia.
                 rewrite Hb in Hgt. lra.
        -- intros Hlt.
           destruct Hbest as [(Hk & _ & _)|(e & vm0 & _ & _ & _ & Hb & _ & Hall)].
           ++ rewrite Nat.mod_small in H0 by lia. lia.
           ++ destruct (Hall e' vm') as [Hle _]; try assumption; try lia.
              rewrite Hb in Hgt. lra.
      * destruct Hbest as [(Hk & _ & Hb)|(e & vm0 & He & Hmod & Hv & Hb & Hs & Hall)].
        { rewrite Hb in Hgt. lra. }
        exists e, vm0. repeat split; try lia; try assumption.
        -- destruct (decide (e' = S k)) as [->|Hne].
           ++ rewrite Ha in H1. injection H1 as <-. rewrite Hb in Hgt. exact Hgt.
           ++ apply (Hall e' vm'); try assumption. lia.
        -- intros Hlt. apply (Hall e' vm'); try assumption. lia.
    + injection H as <-. split; [reflexivity|]. cbn [best_val_f1 best_state].
      destruct Hbest as [(Hk & Hs & Hb)|(e & vm0 & He & Hmod & Hv & Hb & Hs & Hall)].
      * left. repeat split; try assumption.
        destruct (decide (S k = 10)) as [E10|]; [|lia].
        rewrite E10 in E. now destruct E.
      * right. exists e, vm0. repeat split; try lia; try assumption.
        -- destruct (decide (e' = S k)) as [->|Hne]; [contradiction|].
           apply (Hall e' vm'); try assumption. lia.
        -- intros Hlt. apply (Hall e' vm'); try assumption. lia.
Qed.

(** Checkpoint selection (trainer.py, lines 108-135), for a run of at
    least ten epochs that completed.  The snapshot restored is the one
    taken at a validated epoch [e] (a multiple of ten) whose validation F1,
    as the trainer computes it, is at least that of every validated epoch
    and strictly above that of every earlier one: the earliest best. *)
Theorem best_checkpoint_is_earliest_maximum (epochs : nat) (m0 : state)
    (ls : loop_state) :
  10 <= epochs ->
  training_loop labels idx_val val_mask epochs m0 = Ok ls ->
  model ls = Nat.iter epochs train_step m0 /\
  exists e vm,
    1 <= e <= epochs /\ e mod 10 = 0 /\
    validate labels idx_val val_mask (Nat.iter e train_step m0) = Ok vm /\
    best_val_f1 ls = f1 vm /\
    restore_best ls
    = load_state_dict (state_dict (Nat.iter e train_step m0)) (model ls) /\
    forall e' vm', 1 <= e' <= epochs -> e' mod 10 = 0 ->
      validate labels idx_val val_mask (Nat.iter e' train_step m0) = Ok vm' ->
      (f1 vm' <= f1 vm)%Q /\ (e' < e -> (f1 vm' < f1 vm)%Q).
Proof.
  intros Hge H. apply training_loop_retained in H.
  destruct H as [Hm [(Hk & _)|(e & vm & He & Hmod & Hv & Hb & Hs & Hall)]]; [lia|].
  split; [exact Hm|]. exists e, vm. repeat split; try lia; try assumption.
  - unfold restore_best. now rewrite Hs.
  - apply (Hall e' vm'); assumption.
  - apply (Hall e' vm'); assumption.
Qed.

End Checkpoints.

Lemma toy_loop :
  @Trainer.training_loop toy_learner labels10 [7; 6] mask_6_7 20 0
  = Ok toy_loop_state.
Proof. vm_compute. reflexivity. Qed.

(** Five epochs of the toy learner: no snapshot, the fifth parameters. *)
Lemma no_checkpoint_before_epoch_10_witness :
  @Trainer.training_loop toy_learner labels10 [7; 6] mask_6_7 5 0
  = Ok {| Trainer.model := Nat.iter 5 (@Trainer.train_step toy_learner) 0;
          Trainer.best_val_f1 := (-1)%Q; Trainer.best_state := None |}.
Proof.
  apply (@no_checkpoint_before_epoch_10 toy_learner labels10 [7; 6] mask_6_7 5 0).
  lia.
Defined.

(** Twenty epochs of the toy learner. *)
Lemma best_checkpoint_is_earliest_maximum_witness :
  Trainer.model toy_loop_state = Nat.iter 20 (@Trainer.train_step toy_learner) 0.
Proof.
  apply (@best_checkpoint_is_earliest_maximum toy_learner labels10 [7; 6]
           mask_6_7 20 0 toy_loop_state).
  - lia.
  - exact toy_loop.
Defined.

(** ** Classification metrics *)

Section MetricsFacts.
Import Metrics.

Lemma ratio0_zero (den : nat) : (ratio0 0 den == 0)%Q.
Proof. unfold ratio0. destruct den; [reflexivity|]. cbn. reflexivity. Qed.

(** [compute_classification_metrics] (metrics.py, lines 9-25).  On
    predictions as long as the labels it returns; precision, recall and F1
    lie between 0 and 1; with no true positive all three are 0 (the
    [zero_division=0] case included), and the ROC-AUC entry is present
    only when probabilities were given and both classes occur among the
    labels. *)
Theorem classification_metrics_bounds (y_true y_pred : list bool)
    (y_prob : option (list Q)) :
  length y_true = length y_pred ->
  exists m,
    compute_classification_metrics y_true y_pred y_prob = Ok m /\
    (0 <= precision m <= 1)%Q /\ (0 <= recall m <= 1)%Q /\ (0 <= f1 m <= 1)%Q /\
    (tp y_true y_pred = 0 ->
       (precision m == 0)%Q /\ (recall m == 0)%Q /\ (f1 m == 0)%Q) /\
    (is_Some (roc_auc m) <->
       is_Some y_prob /\ true ∈ y_true /\ false ∈ y_true).
Proof.
  intros Hlen. unfold compute_classification_metrics.
  rewrite Hlen, Nat.eqb_refl. cbn [negb]. eexists. split; [reflexivity|].
  cbn [precision recall f1 roc_auc].
  unfold precision_score, recall_score, f1_score.
  split; [apply ratio0_unit; lia|]. split; [apply ratio0_unit; lia|].
  split; [apply ratio0_unit; lia|]. split.
  - intros ->. cbn [Nat.mul Nat.add]. repeat split; apply ratio0_zero.
  - unfold both_classes. destruct y_prob as [p|].
    + destruct (existsb id y_true) eqn:E1; destruct (existsb negb y_true) eqn:E2;
        cbn [andb].
      * apply existsb_exists in E1. destruct E1 as ([|] & Hin1 & Hx1); [|discriminate].
        apply existsb_exists in E2. destruct E2 as ([|] & Hin2 & Hx2); [discriminate|].
        apply list_elem_of_In in Hin1, Hin2. split; eauto.
      * split; [intros [? H]; discriminate H|]. intros (_ & _ & Hf).
        assert (E : existsb negb y_true = true); [|congruence].
        apply existsb_exists. exists false. split; [now apply list_elem_of_In|reflexivity].
      * split; [intros [? H]; discriminate H|]. intros (_ & Ht & _).
        assert (E : existsb id y_true = true); [|congruence].
        apply existsb_exists. exists true. split; [now apply list_elem_of_In|reflexivity].
      * split; [intros [? H]; discriminate H|]. intros (_ & Ht & _).
        assert (E : existsb id y_true = true); [|congruence].
        apply existsb_exists. exists true. split; [now apply list_elem_of_In|reflexivity].
    + split; [intros [? H]; discriminate H|]. intros ([? H] & _). discriminate H.
Qed.

End MetricsFacts.

(** Two labels, one positive, both predicted negative. *)
Lemma classification_metrics_bounds_witness :
  exists m,
    Metrics.compute_classification_metrics [true; false] [false; false] None = Ok m /\
    (0 <= Metrics.f1 m <= 1)%Q.
Proof.
  destruct (classification_metrics_bounds [true; false] [false; false] None eq_refl)
    as (m & Hm & _ & _ & Hf & _).
  exists m. split; [exact Hm|exact Hf].
Defined.

(** ** The drivers shown in a narrative *)

Section TopDrivers.
Import Explainer.







End TopDrivers.


(** ** The narrative and the order of the attribution map *)

Section InsertionOrder.
Import Explainer.




End InsertionOrder.


(** ** Clusters written by a training run *)

Section ClusterMap.
Import Data Pipeline.

Lemma truthy_Some (x : option string) (cid : string) :
  Explainer.truthy x = Some cid <-> x = Some cid /\ cid <> "".
Proof.
  destruct x as [[|c s]|]; cbn; split; try discriminate;
    try (intros [H _]; discriminate H).
  - intros [[= <-] H]. now destruct H.
  - intros [= <-]. split; [reflexivity|discriminate].
  - now intros [[= <-] _].
Qed.

Lemma setdefault_append_keys (cm : list (string * list EntityRecord))
    (cid : string) (e : EntityRecord) :
  map fst (setdefault_append cm cid e)
  = map fst cm ++ (if decide (cid ∈ map fst cm) then [] else [cid]).
Proof.
  induction cm as [|[k ms] cm IH]; [reflexivity|]. cbn [setdefault_append map fst].
  destruct (String.eqb_spec k cid) as [->|Hne].
  - rewrite decide_True by (apply elem_of_cons; now left).
    cbn. now rewrite app_nil_r.
  - cbn [map fst]. rewrite IH. cbn. f_equal.
    destruct (decide (cid ∈ map fst cm)) as [Hin|Hout].
    + rewrite decide_True by (apply elem_of_cons; now right). reflexivity.
    + rewrite decide_False; [reflexivity|].
      rewrite elem_of_cons. intros [?|?]; congruence.
Qed.

Lemma setdefault_append_members (cm : list (string * list EntityRecord))
    (cid : string) (e : EntityRecord) (F F' : string -> list EntityRecord) :
  NoDup (map fst cm) ->
  Forall (fun p => snd p = F (fst p)) cm ->
  (forall k, k <> cid -> F' k = F k) ->
  F' cid = F cid ++ [e] ->
  (cid ∉ map fst cm -> F cid = []) ->
  Forall (fun p => snd p = F' (fst p)) (setdefault_append cm cid e).
Proof.
  intros Hnd Hcm Hother Hcid Hnew.
  induction cm as [|[k ms] cm IH]; cbn [setdefault_append].
  - constructor; [|constructor]. cbn. rewrite Hcid, Hnew; [reflexivity|].
    apply not_elem_of_nil.
  - cbn [map fst] in Hnd. apply NoDup_cons in Hnd. destruct Hnd as [Hk Hnd].
    inversion Hcm as [|? ? Hhead Htail]; subst. cbn [fst snd] in Hhead.
    destruct (String.eqb_spec k cid) as [->|Hne].
    + constructor; [cbn; now rewrite Hcid, Hhead|].
      rewrite Forall_forall in Htail. apply Forall_forall. intros [k' ms'] Hin.
      cbn [fst snd]. rewrite Hother.
      * apply (Htail _ Hin).
      * intros ->. apply Hk. apply list_elem_of_fmap. now exists (cid, ms').
    + constructor; [cbn; now rewrite Hother|].
      apply IH; [exact Hnd|exact Htail|].
      intros Hout. apply Hnew. cbn [map fst]. apply not_elem_of_cons.
      split; [congruence|exact Hout].
Qed.

Lemma setdefault_append_nonempty (cm : list (string * list EntityRecord))
    (cid : string) (e : EntityRecord) :
  Forall (fun p => snd p <> []) cm ->
  Forall (fun p => snd p <> []) (setdefault_append cm cid e).
Proof.
  induction 1 as [|[k ms] cm Hms Hcm IH]; cbn [setdefault_append].
  - constructor; [discriminate|constructor].
  - destruct (String.eqb k cid).
    + constructor; [|assumption]. cbn. intros Happ.
      apply app_nil in Happ. destruct Happ as [_ Happ]. discriminate Happ.
    + constructor; assumption.
Qed.

(** The cluster map after the entities [seen]: one entry per label that
    is neither [None] nor empty, in order of first occurrence, holding the
    entities that carry the label, in order. *)
Lemma build_cluster_map_spec (ents : list EntityRecord) :
  NoDup (map fst (build_cluster_map ents)) /\
  Forall (fun p =>
            snd p = filter (fun e => Explainer.truthy (cluster_id e) = Some (fst p)) ents
            /\ snd p <> [])
         (build_cluster_map ents) /\
  (forall e cid, e ∈ ents -> Explainer.truthy (cluster_id e) = Some cid ->
     cid ∈ map fst (build_cluster_map ents)).
Proof.
  unfold build_cluster_map.
  enough (G : forall seen cm,
             (NoDup (map fst cm) /\
              Forall (fun p => snd p
                               = filter (fun e => Explainer.truthy (cluster_id e)
                                                  = Some (fst p)) seen) cm /\
              Forall (fun p => snd p <> []) cm /\
              (forall cid, filter (fun e => Explainer.truthy (cluster_id e) = Some cid)
                                  seen <> [] -> cid ∈ map fst cm)) ->
             let cm' := foldl (fun cm e =>
                                 match Explainer.truthy (cluster_id e) with
                                 | Some cid => setdefault_append cm cid e
                                 | None => cm
                                 end) cm ents in
             NoDup (map fst cm') /\
             Forall (fun p => snd p
                              = filter (fun e => Explainer.truthy (cluster_id e)
                                                 = Some (fst p)) (seen ++ ents)) cm' /\
             Forall (fun p => snd p <> []) cm' /\
             (forall cid, filter (fun e => Explainer.truthy (cluster_id e) = Some cid)
                                 (seen ++ ents) <> [] -> cid ∈ map fst cm')).
  { destruct (G [] []) as (H1 & H2 & H3 & H4).
    - repeat split; try constructor. intros cid H. now destruct H.
    - cbn [app] in *. split; [exact H1|]. split.
      + apply Forall_forall. intros p Hp. rewrite Forall_forall in H2, H3. auto.
      + intros e cid He Hcid. apply H4. intros Hnil.
        assert (Hin : e ∈ filter (fun e => Explainer.truthy (cluster_id e) = Some cid) ents)
          by (apply list_elem_of_filter; auto).
        rewrite Hnil in Hin. now apply elem_of_nil in Hin. }
  induction ents as [|e ents IH]; intros seen cm (H1 & H2 & H3 & H4).
  - cbn. rewrite app_nil_r. auto.
  - cbn zeta. rewrite foldl_cons.
    replace (seen ++ e :: ents) with ((seen ++ [e]) ++ ents) by now rewrite <- app_assoc.
    apply IH. destruct (Explainer.truthy (cluster_id e)) as [cid|] eqn:Ecid.
    + assert (Hsame : forall k, k <> cid ->
                 filter (fun e => Explainer.truthy (cluster_id e) = Some k) (seen ++ [e])
                 = filter (fun e => Explainer.truthy (cluster_id e) = Some k) seen).
      { intros k Hk. rewrite filter_app, filter_cons, decide_False by congruence.
        cbn. now rewrite app_nil_r. }
      assert (Hcid : filter (fun e => Explainer.truthy (cluster_id e) = Some cid)
                            (seen ++ [e])
                     = filter (fun e => Explainer.truthy (cluster_id e) = Some cid) seen
                       ++ [e]).
      { rewrite filter_app, filter_cons, decide_True by exact Ecid. reflexivity. }
      split; [|split; [|split]].
      * rewrite setdefault_append_keys. destruct (decide (cid ∈ map fst cm)).
        -- now rewrite app_nil_r.
        -- apply NoDup_app. split; [exact H1|]. split; [|apply NoDup_singleton].
           intros x Hx Hx'. apply list_elem_of_singleton in Hx'. congruence.
      * pose (F := fun (l : list EntityRecord) (k : string) =>
                     filter (fun e => Explainer.truthy (cluster_id e) = Some k) l).
        apply (setdefault_append_members cm cid e (F seen) (F (seen ++ [e])));
          unfold F; auto.
        intros Hout.
        destruct (filter (fun e => Explainer.truthy (cluster_id e) = Some cid) seen)
          as [|x l] eqn:Ef; [reflexivity|].
        destruct Hout. apply H4. rewrite Ef. discriminate.
      * now apply setdefault_append_nonempty.
      * intros k Hk. rewrite setdefault_append_keys. apply elem_of_app.
        destruct (decide (k = cid)) as [->|Hne].
        -- destruct (decide (cid ∈ map fst cm)); [now left|right].
           now apply list_elem_of_singleton.
        -- left. apply H4. now rewrite <- Hsame.
    + assert (Hsame : forall k,
                 filter (fun e => Explainer.truthy (cluster_id e) = Some k) (seen ++ [e])
                 = filter (fun e => Explainer.truthy (cluster_id e) = Some k) seen).
      { intros k. rewrite filter_app, filter_cons, decide_False by congruence.
        cbn. now rewrite app_nil_r. }
      split; [exact H1|]. split; [|split; [exact H3|]].
      * eapply Forall_impl; [exact H2|]. cbn. intros p ->. now rewrite Hsame.
      * intros k Hk. apply H4. now rewrite <- Hsame.
Qed.

Lemma py_max_spec (l : list Q) (x : Q) :
  x ∈ l -> exists top, py_max l = Ok top /\ top ∈ l /\ Forall (fun y => (y <= top)%Q) l.
Proof.
  destruct l as [|a l]; [intros H; now apply elem_of_nil in H|]. intros _.
  cbn [py_max]. eexists. split; [reflexivity|].
  enough (G : forall seen m,
             m ∈ seen -> Forall (fun y => (y <= m)%Q) seen ->
             let top := foldl (fun m y => if Qgtb y m then y else m) m l in
             top ∈ seen ++ l /\ Forall (fun y => (y <= top)%Q) (seen ++ l)).
  { apply (G [a] a); [apply elem_of_cons; now left|].
    constructor; [lra|constructor]. }
  induction l as [|y l IH]; intros seen m Hm Hall.
  - cbn. now rewrite app_nil_r.
  - cbn zeta. rewrite foldl_cons.
    replace (seen ++ y :: l) with ((seen ++ [y]) ++ l) by now rewrite <- app_assoc.
    unfold Qgtb. destruct (Qltb m y) eqn:E; reflect_Qltb; apply IH.
    + apply elem_of_app. right. now apply list_elem_of_singleton.
    + apply Forall_app. split.
      * eapply Forall_impl; [exact Hall|]. cbn. intros z Hz. lra.
      * constructor; [lra|constructor].
    + apply elem_of_app. now left.
    + apply Forall_app. split; [exact Hall|]. constructor; [exact E|constructor].
Qed.

End ClusterMap.

Section ClusterTable.
Context {E : Pipeline.Env}.
Import Data Pipeline.




Lemma run_train_clusters_inv (d : Db.t) mode seed (s : summary) (d' : Db.t) :
  run_train d mode seed = (Ok s, d') ->
  exists res,
    train (map to_record (Db.entities d)) (map to_tx_record (Db.transactions d))
          mode seed = Ok res /\
    Db.entities d' = map (update_entity res) (Db.entities d) /\
    mapM (mk_cluster res) (build_cluster_map (map to_record (Db.entities d)))
    = Ok (Db.clusters d') /\
    clusters_created s
    = length (build_cluster_map (map to_record (Db.entities d))) /\
    Db.transactions d' = Db.transactions d /\
    Db.model_runs d'
    = map deactivate (Db.model_runs d)
      ++ [{| Db.r_mode := mode; Db.r_metrics_json := metrics res;
             Db.r_is_active := true; Db.r_created_at := utcnow |}].
Proof.
  unfold run_train. destruct (Db.entities d) as [|e0 ents] eqn:Hents;
    [discriminate|].
  destruct (train _ _ mode seed) as [res|err]; [|discriminate].
  destruct (mapM _ _) as [new_clusters|err] eqn:Hc; [|discriminate].
  case_bool_decide as Hnd; [|discriminate].
  intros [= <- <-]. exists res.
  cbn [Db.entities Db.clusters Db.transactions Db.model_runs clusters_created].
  repeat split; try reflexivity. exact Hc.
Qed.

Lemma labelled_records (l : list Db.Entity) (cid : string) :
  cid <> "" ->
  map id (filter (fun e => Explainer.truthy (cluster_id e) = Some cid)
                 (map to_record l))
  = map Db.e_id (filter (fun e => Db.e_cluster_id e = Some cid) l).
Proof.
  intros Hne. induction l as [|e l IH]; [reflexivity|].
  cbn [map]. rewrite !filter_cons.
  destruct (decide (Db.e_cluster_id e = Some cid)) as [Heq|Hneq].
  - rewrite decide_True by (apply truthy_Some; auto). cbn [map]. now rewrite IH.
  - rewrite decide_False; [exact IH|].
    intros H. apply truthy_Some in H. now destruct H.
Qed.

Lemma cluster_rows (res : train_result) (cm : list (string * list EntityRecord))
    (cs : list Db.Cluster) :
  mapM (mk_cluster res) cm = Ok cs ->
  map Db.c_id cs = map fst cm /\
  Forall2 (fun p c =>
             Db.c_entity_ids_json c = map id (snd p) /\
             Db.c_size c = length (snd p) /\
             Db.c_pattern_type c = _pattern (fst p) /\
             py_max (map (fun m => default 0%Q (node_scores res !! id m)) (snd p))
             = Ok (Db.c_suspicion_score c)) cm cs.
Proof.
  intros H. apply mapM_Ok_Forall2 in H.
  induction H as [|[cid members] c cm cs Hc _ [IH1 IH2]]; [split; constructor|].
  unfold mk_cluster in Hc. inv_bind Hc. injection Hc as <-. cbn [map fst snd].
  split; [now rewrite IH1|]. constructor; [|exact IH2]. cbn. auto.
Qed.

(** The cluster table after a run (pipeline_service.py, lines 127-147).
    A completed run leaves one cluster per label carried by an entity
    (labels [None] and [""] apart), under pairwise distinct ids; a cluster
    lists the ids of the entities that carry its label, in table order,
    with their number as its size, which is at least 1; and the summary
    counts the clusters. *)
Theorem clusters_group_labelled_entities (d : Db.t) mode seed (s : summary)
    (d' : Db.t) :
  run_train d mode seed = (Ok s, d') ->
  NoDup (map Db.c_id (Db.clusters d')) /\
  clusters_created s = length (Db.clusters d') /\
  (forall c, c ∈ Db.clusters d' ->
     Db.c_id c <> "" /\
     Db.c_entity_ids_json c
     = map Db.e_id (filter (fun e => Db.e_cluster_id e = Some (Db.c_id c))
                           (Db.entities d)) /\
     Db.c_size c = length (Db.c_entity_ids_json c) /\
     1 <= Db.c_size c /\
     Db.c_pattern_type c = _pattern (Db.c_id c)) /\
  (forall e cid, e ∈ Db.entities d -> Db.e_cluster_id e = Some cid -> cid <> "" ->
     exists c, c ∈ Db.clusters d' /\ Db.c_id c = cid).
Proof.
  intros Hrun.
  destruct (run_train_clusters_inv _ _ _ _ _ Hrun)
    as (res & _ & _ & Hcs & Hcount & _).
  destruct (cluster_rows _ _ _ Hcs) as [Hids Hrows].
  destruct (build_cluster_map_spec (map to_record (Db.entities d)))
    as (Hnd & Hmembers & Hcover).
  split; [now rewrite Hids|]. split.
  { rewrite Hcount. apply (f_equal length) in Hids. now rewrite !length_map in Hids. }
  split.
  - intros c Hc. apply list_elem_of_lookup in Hc. destruct Hc as [i Hi].
    destruct (Forall2_lookup_r _ _ _ _ _ Hrows Hi)
      as ([cid members] & Hp & Hjson & Hsize & Hpat & _).
    cbn [fst snd] in *.
    assert (Hcid : Db.c_id c = cid).
    { apply (f_equal (fun l => l !! i)) in Hids.
      rewrite !list_lookup_fmap, Hi, Hp in Hids. now injection Hids. }
    rewrite Forall_forall in Hmembers.
    destruct (Hmembers (cid, members)) as [Hm Hne];
      [eapply list_elem_of_lookup_2; exact Hp|]. cbn [fst snd] in Hm, Hne.
    assert (Hcid_ne : cid <> "").
    { destruct members as [|m ms]; [now destruct Hne|].
      assert (Hin : m ∈ filter (fun e => Explainer.truthy (cluster_id e) = Some cid)
                               (map to_record (Db.entities d)))
        by (rewrite <- Hm; apply elem_of_cons; now left).
      apply list_elem_of_filter in Hin. destruct Hin as [Ht _].
      apply truthy_Some in Ht. tauto. }
    rewrite Hcid. split; [exact Hcid_ne|]. split.
    { rewrite Hjson, Hm. now apply labelled_records. }
    split; [now rewrite Hsize, Hjson, length_map|]. split; [|exact Hpat].
    rewrite Hsize. destruct members; [now destruct Hne|cbn; lia].
  - intros e cid He Hlabel Hne.
    assert (Hkey : cid ∈ map fst (build_cluster_map (map to_record (Db.entities d)))).
    { apply (Hcover (to_record e)); [now apply list_elem_of_fmap_2|].
      apply truthy_Some. auto. }
    rewrite <- Hids in Hkey. apply list_elem_of_fmap in Hkey.
    destruct Hkey as (c & -> & Hc). eauto.
Qed.

(** The suspicion score of a cluster (pipeline_service.py, lines 138-146)
    is the highest risk score stored for one of its entities. *)
Theorem cluster_score_is_member_maximum (d : Db.t) mode seed (s : summary)
    (d' : Db.t) (c : Db.Cluster) :
  run_train d mode seed = (Ok s, d') ->
  c ∈ Db.clusters d' ->
  (forall e, e ∈ Db.entities d' -> Db.e_cluster_id e = Some (Db.c_id c) ->
     (Db.e_risk_score e <= Db.c_suspicion_score c)%Q) /\
  (exists e, e ∈ Db.entities d' /\ Db.e_cluster_id e = Some (Db.c_id c) /\
             Db.e_risk_score e = Db.c_suspicion_score c).
Proof.
  intros Hrun Hc.
  destruct (run_train_clusters_inv _ _ _ _ _ Hrun)
    as (res & _ & Hents & Hcs & _).
  destruct (cluster_rows _ _ _ Hcs) as [Hids Hrows].
  destruct (build_cluster_map_spec (map to_record (Db.entities d)))
    as (_ & Hmembers & _).
  apply list_elem_of_lookup in Hc. destruct Hc as [i Hi].
  destruct (Forall2_lookup_r _ _ _ _ _ Hrows Hi)
    as ([cid members] & Hp & _ & _ & _ & Hmax).
  cbn [fst snd] in *.
  assert (Hcid : Db.c_id c = cid).
  { apply (f_equal (fun l => l !! i)) in Hids.
    rewrite !list_lookup_fmap, Hi, Hp in Hids. now injection Hids. }
  rewrite Forall_forall in Hmembers.
  destruct (Hmembers (cid, members)) as [Hm Hne];
    [eapply list_elem_of_lookup_2; exact Hp|]. cbn [fst snd] in Hm, Hne.
  destruct members as [|m0 ms]; [now destruct Hne|].
  destruct (py_max_spec
              (map (fun m => default 0%Q (node_scores res !! id m)) (m0 :: ms))
              (default 0%Q (node_scores res !! id m0)))
    as (top & Htop & Hin & Hall); [apply elem_of_cons; now left|].
  rewrite Htop in Hmax. injection Hmax as Hmax. rewrite <- Hmax, Hcid, Hents.
  assert (Hmem : forall e, e ∈ Db.entities d ->
                   Db.e_cluster_id e = Some cid -> to_record e ∈ m0 :: ms).
  { intros e He Hl. rewrite Hm. apply list_elem_of_filter. split.
    - cbn. apply truthy_Some. split; [exact Hl|].
      assert (Hin0 : m0 ∈ filter (fun e => Explainer.truthy (cluster_id e) = Some cid)
                                (map to_record (Db.entities d)))
        by (rewrite <- Hm; apply elem_of_cons; now left).
      apply list_elem_of_filter in Hin0. destruct Hin0 as [Ht _].
      apply truthy_Some in Ht. tauto.
    - now apply list_elem_of_fmap_2. }
  split.
  - intros e' He' Hl. apply list_elem_of_fmap in He'. destruct He' as (e & -> & He).
    cbn [update_entity Db.e_risk_score Db.e_cluster_id] in *.
    rewrite Forall_forall in Hall. apply Hall.
    apply list_elem_of_fmap. exists (to_record e). split; [reflexivity|].
    now apply Hmem.
  - apply list_elem_of_fmap in Hin. destruct Hin as (m & Htopm & Hmin).
    rewrite Hm in Hmin. apply list_elem_of_filter in Hmin. destruct Hmin as [Ht Hmin].
    apply list_elem_of_fmap in Hmin. destruct Hmin as (e & -> & He).
    apply truthy_Some in Ht. destruct Ht as [Ht _].
    exists (update_entity res e). split; [now apply list_elem_of_fmap_2|].
    split; [exact Ht|]. cbn. now rewrite Htopm.
Qed.


End ClusterTable.

(** The toy run: one cluster, [CLU_CIRC_0000], with entity [E0000000]. *)
Lemma clusters_group_labelled_entities_witness :
  NoDup (map Db.c_id (Db.clusters toy_after)) /\
  Pipeline.clusters_created toy_summary = length (Db.clusters toy_after).
Proof.
  destruct (@clusters_group_labelled_entities toy_env toy_db "demo" 42
              toy_summary toy_after toy_run) as (H1 & H2 & _).
  split; [exact H1|exact H2].
Defined.

Lemma toy_cluster :
  {| Db.c_id := "CLU_CIRC_0000"; Db.c_entity_ids_json := ["E0000000"];
     Db.c_size := 1; Db.c_suspicion_score := 9 # 10;
     Db.c_pattern_type := "circular" |} ∈ Db.clusters toy_after.
Proof. apply elem_of_cons. now left. Qed.

Lemma cluster_score_is_member_maximum_witness :
  exists e, e ∈ Db.entities toy_after /\
            Db.e_cluster_id e = Some "CLU_CIRC_0000" /\
            Db.e_risk_score e = (9 # 10)%Q.
Proof.
  exact (proj2 (@cluster_score_is_member_maximum toy_env toy_db "demo" 42
                  toy_summary toy_after _ toy_run toy_cluster)).
Defined.


(** ** The training service: failures *)

Section PipelineFacts.
Context {E : Pipeline.Env}.
Import Pipeline.


End PipelineFacts.



(** ** The generators, one primitive at a time *)

Section Primitives.
Import Random.


Lemma choice_spec {A} (l : list A) (s : list nat) (x : A) (s' : list nat) :
  choice l s = Ok (x, s') -> x ∈ l.
Proof.
  unfold choice. intros H. inv_gen H.
  destruct (l !! (a mod length l)) as [y|] eqn:E; [|discriminate H].
  apply gen_ret_Ok in H. destruct H as [<- _].
  eapply list_elem_of_lookup_2. exact E.
Qed.

Lemma randint_spec (a b : nat) (s : list nat) (n : nat) (s' : list nat) :
  randint a b s = Ok (n, s') -> a <= b -> a <= n <= b.
Proof.
  unfold randint. intros H Hab. inv_gen H.
  apply gen_ret_Ok in H. destruct H as [<- _].
  pose proof (Nat.mod_upper_bound a0 (b - a + 1)). lia.
Qed.

Lemma uniform_spec (a b : Q) (s : list nat) (q : Q) (s' : list nat) :
  uniform a b s = Ok (q, s') -> (a <= b)%Q -> (a <= q <= b)%Q.
Proof.
  unfold uniform. intros H Hab. inv_gen H.
  apply gen_ret_Ok in H. destruct H as [<- _].
  set (k := inject_Z (Z.of_nat (a0 mod 1001))).
  assert (Hk : (0 <= k <= 1000)%Q).
  { unfold k. pose proof (Nat.mod_upper_bound a0 1001).
    split.
    - change 0%Q with (inject_Z 0). rewrite <- Zle_Qle. lia.
    - change 1000%Q with (inject_Z 1000). rewrite <- Zle_Qle. lia. }
  assert (Hf : (0 <= k / 1000 <= 1)%Q).
  { split.
    - apply Qle_shift_div_l; [reflexivity|]. lra.
    - apply Qle_shift_div_r; [reflexivity|]. lra. }
  split; nra.
Qed.

Lemma sample_from_length {A} (k : nat) (pool : list A) (s : list nat)
    (l : list A) (s' : list nat) :
  sample_from k pool s = Ok (l, s') -> length l = k.
Proof.
  revert pool s l s'. induction k as [|k IH]; intros pool s l s' H.
  - apply gen_ret_Ok in H. now destruct H as [<- _].
  - cbn in H. inv_gen H.
    destruct (pool !! (a mod length pool)) as [x|]; [|discriminate H].
    inv_gen H. apply gen_ret_Ok in H. destruct H as [<- _].
    cbn. f_equal. eapply IH. exact Ha0.
Qed.

Lemma sample_length {A} (pool : list A) (k : nat) (s : list nat)
    (l : list A) (s' : list nat) :
  sample pool k s = Ok (l, s') -> length l = k.
Proof.
  unfold sample. destruct (_ <? _)%nat; [discriminate|]. apply sample_from_length.
Qed.

Lemma sample_from_subseteq {A} (k : nat) (pool : list A) (s : list nat)
    (l : list A) (s' : list nat) :
  sample_from k pool s = Ok (l, s') -> l ⊆ pool.
Proof.
  revert pool s l s'. induction k as [|k IH]; intros pool s l s' H x Hx.
  - apply gen_ret_Ok in H. destruct H as [<- _]. now apply elem_of_nil in Hx.
  - cbn in H. inv_gen H.
    destruct (pool !! (a mod length pool)) as [y|] eqn:Ey; [|discriminate H].
    inv_gen H. apply gen_ret_Ok in H. destruct H as [<- _].
    apply elem_of_cons in Hx. destruct Hx as [->|Hx].
    + eapply list_elem_of_lookup_2. exact Ey.
    + apply (IH _ _ _ _ Ha0) in Hx.
      eapply (sublist_subseteq _ _ (sublist_delete _ _)). exact Hx.
Qed.

Lemma sample_subseteq {A} (pool : list A) (k : nat) (s : list nat)
    (l : list A) (s' : list nat) :
  sample pool k s = Ok (l, s') -> l ⊆ pool.
Proof.
  unfold sample. destruct (_ <? _)%nat; [discriminate|]. apply sample_from_subseteq.
Qed.

(** A loop that appends one item per iteration. *)
Lemma for_each_collect {A B C} (P : A -> B -> Prop)
    (body : list B * C -> A -> Gen (list B * C)) (l : list A) :
  (forall txs c a s txs' c' s',
      body (txs, c) a s = Ok ((txs', c'), s') ->
      exists b, txs' = txs ++ [b] /\ P a b) ->
  forall txs c s txs' c' s',
    for_each l body (txs, c) s = Ok ((txs', c'), s') ->
    exists new, txs' = txs ++ new /\ Forall2 P l new.
Proof.
  intros Hbody. induction l as [|a l IH]; intros txs c s txs' c' s' H.
  - apply gen_ret_Ok in H. destruct H as [[= <- <-] _].
    exists []. split; [now rewrite app_nil_r|constructor].
  - cbn in H. inv_gen H. destruct a0 as [txs1 c1].
    destruct (Hbody _ _ _ _ _ _ _ Ha) as (b & -> & Hb).
    destruct (IH _ _ _ _ _ _ H) as (new & -> & Hnew).
    exists (b :: new). split; [now rewrite <- app_assoc|now constructor].
Qed.

End Primitives.

Section Rounding.
Import Generator.

Lemma round_half_even_floor (q : Q) :
  (Qfloor q <= Str.round_half_even q <= Qfloor q + 1)%Z /\
  (Str.round_half_even q = (Qfloor q + 1)%Z -> (inject_Z (Qfloor q) < q)%Q).
Proof.
  unfold Str.round_half_even.
  destruct (q - inject_Z (Qfloor q) ?= 1 # 2)%Q eqn:E.
  - apply Qeq_alt in E. destruct (Z.even (Qfloor q)); split; try lia; intros _; lra.
  - split; [lia|]. intros H. lia.
  - apply Qgt_alt in E. split; [lia|]. intros _. lra.
Qed.

Lemma round_half_even_between (lo hi : Z) (q : Q) :
  (inject_Z lo <= q <= inject_Z hi)%Q ->
  (lo <= Str.round_half_even q <= hi)%Z.
Proof.
  intros [Hlo Hhi]. destruct (round_half_even_floor q) as [[H1 H2] H3].
  assert (Hf : (lo <= Qfloor q)%Z).
  { rewrite <- (Qfloor_Z lo). now apply Qfloor_resp_le. }
  split; [lia|].
  destruct (decide (Str.round_half_even q = (Qfloor q + 1)%Z)) as [E|E].
  - specialize (H3 E). rewrite E.
    assert (Hlt : (inject_Z (Qfloor q) < inject_Z hi)%Q) by lra.
    rewrite <- Zlt_Qlt in Hlt. lia.
  - assert (Hle : (inject_Z (Qfloor q) <= inject_Z hi)%Q).
    { pose proof (Qfloor_le q). lra. }
    rewrite <- Zle_Qle in Hle. lia.
Qed.

Lemma round_half_even_mono (q q' : Q) :
  (q <= q')%Q -> (Str.round_half_even q <= Str.round_half_even q')%Z.
Proof.
  intros Hle. pose proof (Qfloor_resp_le _ _ Hle) as Hf.
  destruct (decide (Qfloor q = Qfloor q')) as [E|E].
  - unfold Str.round_half_even. rewrite <- E.
    destruct (q - inject_Z (Qfloor q) ?= 1 # 2)%Q eqn:E1;
      destruct (q' - inject_Z (Qfloor q) ?= 1 # 2)%Q eqn:E2;
      repeat match goal with
             | H : (_ ?= _)%Q = Eq |- _ => apply Qeq_alt in H
             | H : (_ ?= _)%Q = Lt |- _ => apply Qlt_alt in H
             | H : (_ ?= _)%Q = Gt |- _ => apply Qgt_alt in H
             end;
      try destruct (Z.even (Qfloor q)); try lia; exfalso; lra.
  - destruct (round_half_even_floor q) as [[_ H2] _].
    destruct (round_half_even_floor q') as [[H1 _] _]. lia.
Qed.

Lemma round_half_even_inject (m : Z) : Str.round_half_even (inject_Z m) = m.
Proof.
  unfold Str.round_half_even. rewrite Qfloor_Z.
  destruct (inject_Z m - inject_Z m ?= 1 # 2)%Q eqn:E; [| reflexivity |].
  - apply Qeq_alt in E. lra.
  - apply Qgt_alt in E. lra.
Qed.

Lemma Qabs_nonneg_eq (q : Q) : (0 <= q)%Q -> (Qabs q == q)%Q.
Proof. intros H. now apply Qabs_pos. Qed.

Lemma round2_nonneg (q : Q) :
  (0 <= q)%Q -> round2 q = (inject_Z (Str.round_half_even (q * 100)) / 100)%Q.
Proof.
  intros H. unfold round2.
  rewrite (round_half_even_comp (Qabs q * 100) (q * 100))
    by now rewrite Qabs_nonneg_eq.
  destruct (Qltb q 0) eqn:E; [|reflexivity]. reflect_Qltb. lra.
Qed.

Lemma round2_between (lo hi : Z) (q : Q) :
  (0 <= lo)%Z ->
  (inject_Z lo / 100 <= q <= inject_Z hi / 100)%Q ->
  (inject_Z lo / 100 <= round2 q <= inject_Z hi / 100)%Q.
Proof.
  intros Hlo [H1 H2].
  assert (H0 : (0 <= inject_Z lo)%Q).
  { change 0%Q with (inject_Z 0). now rewrite <- Zle_Qle. }
  unfold Qdiv in H1, H2. change (/ 100)%Q with (1 # 100)%Q in H1, H2.
  rewrite round2_nonneg by lra.
  destruct (round_half_even_between lo hi (q * 100)) as [Ha Hb]; [split; lra|].
  rewrite Zle_Qle in Ha, Hb. unfold Qdiv. change (/ 100)%Q with (1 # 100)%Q.
  split; lra.
Qed.

Lemma round2_mono (q q' : Q) :
  (0 <= q)%Q -> (q <= q')%Q -> (round2 q <= round2 q')%Q.
Proof.
  intros H0 Hle. rewrite !round2_nonneg by lra.
  assert (H : (Str.round_half_even (q * 100) <= Str.round_half_even (q' * 100))%Z).
  { apply round_half_even_mono. lra. }
  rewrite Zle_Qle in H. unfold Qdiv. change (/ 100)%Q with (1 # 100)%Q. lra.
Qed.

Lemma round2_ge_0 (q : Q) : (0 <= q)%Q -> (0 <= round2 q)%Q.
Proof.
  intros H. destruct (round2_between 0 (Qceiling (q * 100)) q) as [H1 _];
    [lia| |eapply Qle_trans; [|exact H1]; discriminate].
  pose proof (Qle_ceiling (q * 100)). change (inject_Z 0) with 0%Q.
  unfold Qdiv. change (/ 100)%Q with (1 # 100)%Q. split; lra.
Qed.

Lemma round2_idempotent (q : Q) : (0 <= q)%Q -> round2 (round2 q) = round2 q.
Proof.
  intros H. pose proof (round2_ge_0 q H) as H2.
  rewrite (round2_nonneg (round2 q)) by exact H2.
  rewrite (round2_nonneg q) at 2 by exact H. do 2 f_equal.
  rewrite (round2_nonneg q) by exact H.
  rewrite (round_half_even_comp _ (inject_Z (Str.round_half_even (q * 100)))).
  - apply round_half_even_inject.
  - field.
Qed.

End Rounding.

Section Patterns.
Import Data Random Generator.

Lemma with_default_Some {A} (a : A) (g : Gen A) (s : list nat) (b : A)
    (s' : list nat) :
  with_default (Some a) g s = Ok (b, s') -> b = a.
Proof. intros H. apply gen_ret_Ok in H. now destruct H. Qed.

Lemma make_tx_spec (src dst : string) (is_suspicious : bool) (tx_idx : nat)
    (amount : option Q) (channel country : option string) (days_spread : nat)
    (s : list nat) (tx : TransactionRecord) (s' : list nat) :
  _make_tx src dst is_suspicious tx_idx amount channel country days_spread s
  = Ok (tx, s') ->
  Data.src tx = src /\ Data.dst tx = dst /\
  tx_id tx = "T" +:+ zfill 10 tx_idx /\
  tx_is_suspicious tx = is_suspicious /\
  (forall a, amount = Some a -> Data.amount tx = Float.Fin (round2 a)) /\
  (forall c, channel = Some c -> Data.channel tx = c) /\
  (forall c, country = Some c -> tx_country tx = c).
Proof.
  unfold _make_tx. intros H. do 6 inv_gen H.
  apply gen_ret_Ok in H. destruct H as [<- _]. cbn.
  repeat split.
  - intros q ->. apply with_default_Some in Ha. now subst.
  - intros c ->. apply with_default_Some in Ha0. now subst.
  - intros c ->. apply with_default_Some in Ha1. now subst.
Qed.

Lemma choice_preferring_spec (susp_ids normal_ids : list string) (s : list nat)
    (x : string) (s' : list nat) :
  choice_preferring susp_ids normal_ids s = Ok (x, s') ->
  x ∈ susp_ids ++ normal_ids.
Proof.
  unfold choice_preferring. intros H. apply elem_of_app.
  destruct susp_ids; apply choice_spec in H; auto.
Qed.

(** Transactions numbered from [off] on. *)
Lemma ids_from_lookup (off : nat) (txs : list TransactionRecord) :
  (forall i tx, txs !! i = Some tx -> tx_id tx = "T" +:+ zfill 10 (off + i)) ->
  map tx_id txs = map (fun i => "T" +:+ zfill 10 i) (seq off (length txs)).
Proof.
  intros H. apply list_eq. intros i. rewrite !list_lookup_fmap.
  destruct (txs !! i) as [tx|] eqn:E; cbn.
  - rewrite lookup_seq_lt by (eapply lookup_lt_Some; exact E). cbn.
    f_equal. now apply H.
  - rewrite lookup_seq_ge; [reflexivity|]. now apply lookup_ge_None.
Qed.

Lemma generate_smurfing_spec (susp_ids normal_ids : list string) (off : nat)
    (s : list nat) (txs : list TransactionRecord) (members : list string)
    (s' : list nat) :
  _generate_smurfing susp_ids normal_ids off s = Ok ((txs, members), s') ->
  exists smurfs mule beneficiary deposits last,
    members = smurfs ++ [mule; beneficiary] /\
    txs = deposits ++ [last] /\
    length smurfs <= 14 /\ length smurfs <= length normal_ids /\
    (5 <= length normal_ids -> 5 <= length smurfs) /\
    (NoDup normal_ids -> NoDup smurfs) /\ smurfs ⊆ normal_ids /\
    mule ∈ susp_ids ++ normal_ids /\ beneficiary ∈ susp_ids ++ normal_ids /\
    Forall2 (fun p tx =>
               src tx = snd p /\ dst tx = mule /\
               tx_id tx = "T" +:+ zfill 10 (off + fst p) /\
               tx_is_suspicious tx = true /\ channel tx = "cash" /\
               tx_country tx ∈ NORMAL_COUNTRIES /\
               exists q, amount tx = Float.Fin q /\ (2500 <= q <= 9490)%Q)
            (imap (fun i smurf => (i, smurf)) smurfs) deposits /\
    src last = mule /\ dst last = beneficiary /\
    tx_id last = "T" +:+ zfill 10 (off + length smurfs) /\
    tx_is_suspicious last = true.
Proof.
  unfold _generate_smurfing. intros H.
  inv_gen H. rename a into n_smurfs. inv_gen H. rename a into smurfs.
  inv_gen H. rename a into mule. inv_gen H. rename a into beneficiary.
  inv_gen H. inv_gen H. destruct a0 as [deposits total].
  inv_gen H. inv_gen H. inv_gen H. rename a2 into last.
  apply gen_ret_Ok in H. destruct H as [[= <- <-] _].
  apply randint_spec in Ha; [|lia].
  pose proof (sample_length _ _ _ _ _ Ha0) as Hlen.
  exists smurfs, mule, beneficiary, deposits, last.
  apply make_tx_spec in Ha7. destruct Ha7 as (L1 & L2 & L3 & L4 & _).
  apply (for_each_collect
              (fun (p : nat * string) tx =>
                 src tx = snd p /\ dst tx = mule /\
                 tx_id tx = "T" +:+ zfill 10 (off + fst p) /\
                 tx_is_suspicious tx = true /\ channel tx = "cash" /\
                 tx_country tx ∈ NORMAL_COUNTRIES /\
                 exists q, amount tx = Float.Fin q /\ (2500 <= q <= 9490)%Q)) in Ha4.
  2:{ clear. intros txs c [i smurf] r txs' c' r' Hbody. cbv beta iota in Hbody.
    inv_gen Hbody. rename a into q. inv_gen Hbody. rename a into country.
    inv_gen Hbody. rename a into tx.
    apply gen_ret_Ok in Hbody. destruct Hbody as [[= <- <-] _].
    exists tx. split; [reflexivity|].
    apply uniform_spec in Ha; [|lra]. apply choice_spec in Ha0.
    apply make_tx_spec in Ha1.
    destruct Ha1 as (M1 & M2 & M3 & M4 & M5 & M6 & M7).
    cbn [fst snd]. repeat split; auto.
    - now rewrite (M7 _ eq_refl).
    - exists (round2 (round2 q)). split; [apply M5; reflexivity|].
      assert (Hb : (inject_Z 250000 / 100 <= round2 q <= inject_Z 949000 / 100)%Q).
      { apply round2_between; [lia|]. change (inject_Z 250000 / 100)%Q with (250000 # 100).
        change (inject_Z 949000 / 100)%Q with (949000 # 100). lra. }
      apply (round2_between 250000 949000) in Hb; [|lia].
      change (inject_Z 250000 / 100)%Q with (250000 # 100) in Hb.
      change (inject_Z 949000 / 100)%Q with (949000 # 100) in Hb. lra. }
  destruct Ha4 as (new & Hnew & Hall).
  cbn [app] in Hnew. subst new.
  split; [reflexivity|]. split; [reflexivity|]. split; [lia|]. split; [lia|].
  split; [lia|]. split; [intros Hnd; apply sample_spec in Ha0; tauto|].
  split; [eapply sample_subseteq; exact Ha0|].
  split; [eapply choice_preferring_spec; exact Ha1|].
  split; [eapply choice_preferring_spec; exact Ha2|].
  split; [exact Hall|]. auto.
Qed.


Lemma generate_layering_spec (susp_ids normal_ids : list string) (off : nat)
    (s : list nat) (txs : list TransactionRecord) (chain : list string)
    (s' : list nat) :
  _generate_layering susp_ids normal_ids off s = Ok ((txs, chain), s') ->
  4 <= length chain <= 9 /\ chain ⊆ susp_ids ++ normal_ids /\
  Forall2 (fun i tx =>
             chain !! i = Some (src tx) /\ chain !! (i + 1) = Some (dst tx) /\
             tx_id tx = "T" +:+ zfill 10 (off + i) /\
             tx_is_suspicious tx = true /\
             tx_country tx ∈ HIGH_RISK_COUNTRIES /\
             channel tx ∈ wire_swift_crypto)
          (seq 0 (length chain - 1)) txs /\
  StronglySorted (fun a b => Dataset.amount_le (amount b) (amount a)) txs /\
  Forall (fun tx => Dataset.amount_le (Float.Fin 0) (amount tx) /\
                    Dataset.amount_le (amount tx) (Float.Fin 800000)) txs.
Proof.
  unfold _generate_layering. intros H.
  inv_gen H. rename a into chain_length. inv_gen H. rename a into c.
  inv_gen H. rename a into amount0. inv_gen H. destruct a as [hops final].
  apply gen_ret_Ok in H. destruct H as [[= <- <-] _].
  apply randint_spec in Ha; [|lia].
  assert (Hchain : Forall2 (fun (_ : nat) x => x ∈ susp_ids ++ normal_ids)
                           (seq 0 chain_length) c).
  { eapply gen_mapM_Forall2; [|exact Ha0]. cbv beta.
    intros i r x r' Hx. inv_gen Hx. apply elem_of_app.
    destruct (_ && _); apply choice_spec in Hx; auto. }
  assert (Hlen : length c = chain_length).
  { apply Forall2_length in Hchain. now rewrite length_seq in Hchain. }
  apply uniform_spec in Ha1; [|lra].
  split; [lia|]. split.
  { intros x Hx. apply list_elem_of_lookup in Hx. destruct Hx as [i Hi].
    destruct (Forall2_lookup_r _ _ _ _ _ Hchain Hi) as (? & _ & Hin). exact Hin. }
  split.
  { apply (for_each_collect
             (fun i tx =>
                c !! i = Some (src tx) /\ c !! (i + 1) = Some (dst tx) /\
                tx_id tx = "T" +:+ zfill 10 (off + i) /\
                tx_is_suspicious tx = true /\
                tx_country tx ∈ HIGH_RISK_COUNTRIES /\
                channel tx ∈ wire_swift_crypto)) in Ha2.
    - destruct Ha2 as (new & -> & Hnew). exact Hnew.
    - clear. intros txs amt i r txs' amt' r' Hbody. cbv beta iota in Hbody.
      inv_gen Hbody. rename a into shrink. cbv zeta in Hbody.
      inv_gen Hbody. rename a into country. inv_gen Hbody. rename a into chan.
      destruct (c !! i) as [x|]; [|discriminate Hbody].
      destruct (c !! (i + 1)) as [y|]; [|discriminate Hbody].
      inv_gen Hbody. rename a into tx.
      apply gen_ret_Ok in Hbody. destruct Hbody as [[= <- <-] _].
      exists tx. split; [reflexivity|].
      apply choice_spec in Ha0, Ha1. apply make_tx_spec in Ha2.
      destruct Ha2 as (M1 & M2 & M3 & M4 & M5 & M6 & M7).
      rewrite M1, M2, (M6 _ eq_refl), (M7 _ eq_refl). repeat split; assumption. }
  pose (P := fun st : list TransactionRecord * Q =>
               (0 <= snd st)%Q /\ round2 (snd st) = snd st /\
               (snd st <= 800000)%Q /\
               StronglySorted (fun a b => Dataset.amount_le (amount b) (amount a))
                              (fst st) /\
               Forall (fun tx => Dataset.amount_le (Float.Fin (snd st)) (amount tx) /\
                                 Dataset.amount_le (amount tx) (Float.Fin 800000))
                      (fst st)).
  assert (Hfin : P (hops, final)).
  { eapply (for_each_invariant P); [| |exact Ha2].
    - clear. intros [txs amt] i r [txs' amt'] r' (H0 & Hid & Hhi & Hs & Hall) Hbody.
      cbv beta iota in Hbody. cbn [fst snd] in *.
      inv_gen Hbody. rename a into shrink. cbv zeta in Hbody.
      inv_gen Hbody. inv_gen Hbody.
      destruct (c !! i) as [x|]; [|discriminate Hbody].
      destruct (c !! (i + 1)) as [y|]; [|discriminate Hbody].
      inv_gen Hbody. rename a1 into tx.
      apply gen_ret_Ok in Hbody. destruct Hbody as [[= <- <-] _].
      apply uniform_spec in Ha; [|lra].
      apply make_tx_spec in Ha2. destruct Ha2 as (_ & _ & _ & _ & M5 & _).
      specialize (M5 _ eq_refl).
      assert (Hprod : (0 <= amt * shrink <= amt)%Q) by (split; nra).
      destruct Hprod as [Hp0 Hp1].
      assert (Hhop0 : (0 <= round2 (amt * shrink))%Q) by now apply round2_ge_0.
      assert (Hhop : (round2 (amt * shrink) <= amt)%Q).
      { apply (Qle_trans _ (round2 amt)); [now apply round2_mono|].
        rewrite Hid. apply Qle_refl. }
      rewrite round2_idempotent in M5 by exact Hp0.
      unfold P. cbn [fst snd]. split; [exact Hhop0|].
      split; [now apply round2_idempotent|]. split; [lra|]. split.
      + apply StronglySorted_snoc; [exact Hs|].
        apply Forall_forall. intros t Ht.
        rewrite Forall_forall in Hall. destruct (Hall t Ht) as [Hlo _].
        rewrite M5. unfold Dataset.amount_le in *.
        destruct (amount t); try contradiction. lra.
      + apply Forall_app. split.
        * eapply Forall_impl; [exact Hall|]. cbn. intros t [Hlo Hup].
          split; [|exact Hup]. unfold Dataset.amount_le in *.
          destruct (amount t); try contradiction. lra.
        * constructor; [|constructor]. rewrite M5. cbn. split; lra.
    - unfold P. cbn [fst snd].
      assert (Hb : (inject_Z 5000000 / 100 <= round2 amount0
                    <= inject_Z 80000000 / 100)%Q).
      { apply round2_between; [lia|].
        change (inject_Z 5000000 / 100)%Q with (5000000 # 100).
        change (inject_Z 80000000 / 100)%Q with (80000000 # 100). lra. }
      change (inject_Z 5000000 / 100)%Q with (5000000 # 100) in Hb.
      change (inject_Z 80000000 / 100)%Q with (80000000 # 100) in Hb.
      split; [lra|]. split; [apply round2_idempotent; lra|]. split; [lra|].
      split; constructor. }
  destruct Hfin as (H0 & _ & _ & Hs & Hall). cbn [fst snd] in *.
  split; [exact Hs|]. eapply Forall_impl; [exact Hall|]. cbn.
  intros a [Hlo Hup]. split; [|exact Hup]. unfold Dataset.amount_le in *.
  destruct (amount a); try contradiction. lra.
Qed.

Lemma generate_circular_numbered (susp_ids normal_ids : list string) (off : nat)
    (s : list nat) (txs : list TransactionRecord) (cycle : list string)
    (s' : list nat) :
  _generate_circular susp_ids normal_ids off s = Ok ((txs, cycle), s') ->
  cycle ⊆ susp_ids ++ normal_ids /\
  Forall2 (fun i tx =>
             src tx ∈ cycle /\ dst tx ∈ cycle /\
             tx_id tx = "T" +:+ zfill 10 (off + i) /\
             tx_is_suspicious tx = true)
          (seq 0 (length cycle)) txs.
Proof.
  unfold _generate_circular. intros H.
  inv_gen H. rename a into cycle_size. inv_gen H. rename a into c.
  inv_gen H. inv_gen H. rename a0 into l.
  apply gen_ret_Ok in H. destruct H as [[= <- <-] _].
  apply sample_subseteq in Ha0. split.
  { intros x Hx. apply Ha0 in Hx. apply elem_of_app.
    destruct (_ <=? _)%nat; auto. }
  eapply gen_mapM_Forall2; [|exact Ha2].
  intros i r1 tx r2 Htx. cbv beta in Htx.
  destruct (c !! i) as [x|] eqn:Ex; [|unfold raise in Htx; discriminate Htx].
  destruct (c !! ((i + 1) mod length c)) as [y|] eqn:Ey;
    [|unfold raise in Htx; discriminate Htx].
  do 3 inv_gen Htx. apply make_tx_spec in Htx.
  destruct Htx as (M1 & M2 & M3 & M4 & _). rewrite M1, M2.
  repeat split; try assumption; eapply list_elem_of_lookup_2; eassumption.
Qed.

End Patterns.

(** ** The generated dataset *)

Section PatternOutputs.
Import Data Random Generator.

Lemma numbered_by_index (off : nat) (txs : list TransactionRecord) {A}
    (l : list A) (f : nat -> A -> nat) :
  Forall2 (fun p tx => tx_id tx = "T" +:+ zfill 10 (off + f (fst p) (snd p)))
          (imap (fun i x => (i, x)) l) txs ->
  (forall i x, l !! i = Some x -> f i x = i) ->
  Dataset.numbered off txs.
Proof.
  intros H Hf. apply ids_from_lookup. intros i tx Hi.
  destruct (Forall2_lookup_r _ _ _ _ _ H Hi) as ([j x] & Hp & Hid).
  apply list_lookup_imap_Some in Hp. destruct Hp as (y & Hy & [= -> ->]).
  cbn [fst snd] in Hid. now rewrite Hid, (Hf _ _ Hy).
Qed.

Lemma numbered_by_seq (off : nat) (txs : list TransactionRecord) (n : nat) :
  Forall2 (fun i tx => tx_id tx = "T" +:+ zfill 10 (off + i)) (seq 0 n) txs ->
  Dataset.numbered off txs.
Proof.
  intros H. apply ids_from_lookup. intros i tx Hi.
  destruct (Forall2_lookup_r _ _ _ _ _ H Hi) as (j & Hj & Hid).
  apply lookup_seq in Hj. destruct Hj as [-> _]. exact Hid.
Qed.

Lemma numbered_app (off : nat) (txs new : list TransactionRecord) :
  Dataset.numbered off txs -> Dataset.numbered (off + length txs) new ->
  Dataset.numbered off (txs ++ new).
Proof.
  unfold Dataset.numbered. intros H1 H2.
  now rewrite map_app, length_app, seq_app, map_app, H1, H2.
Qed.

Lemma smurfing_output (susp_ids normal_ids : list string) (off : nat)
    (s : list nat) (txs : list TransactionRecord) (members : list string)
    (s' : list nat) :
  _generate_smurfing susp_ids normal_ids off s = Ok ((txs, members), s') ->
  Dataset.pattern_output (susp_ids ++ normal_ids) off txs members.
Proof.
  intros H. apply generate_smurfing_spec in H.
  destruct H as (smurfs & mule & ben & deposits & last & -> & -> & _ & _ & _ & _
                 & Hsub & Hmule & Hben & Hdep & L1 & L2 & L3 & L4).
  assert (Hlen : length deposits = length smurfs).
  { apply Forall2_length in Hdep. now rewrite length_imap in Hdep. }
  split; [|split].
  - apply numbered_app.
    + apply (numbered_by_index off deposits smurfs (fun i _ => i)); [|reflexivity].
      eapply Forall2_impl; [exact Hdep|]. intros p tx Hp. apply Hp.
    + unfold Dataset.numbered. cbn [map length seq]. now rewrite L3, Hlen.
  - apply Forall_app. split.
    + apply Forall_forall. intros tx Htx.
      apply list_elem_of_lookup in Htx. destruct Htx as [i Hi].
      destruct (Forall2_lookup_r _ _ _ _ _ Hdep Hi) as ([j x] & Hp & Hs & Hd & _ & Hsus & _).
      apply list_lookup_imap_Some in Hp. destruct Hp as (y & Hy & [= -> ->]).
      cbn [snd] in Hs. rewrite Hs, Hd. split; [exact Hsus|]. split; [|exact Hmule].
      apply elem_of_app. right. apply Hsub. eapply list_elem_of_lookup_2. exact Hy.
    + constructor; [|constructor]. rewrite L1, L2. auto.
  - intros x Hx. apply elem_of_app in Hx. destruct Hx as [Hx|Hx].
    + apply elem_of_app. right. now apply Hsub.
    + apply elem_of_cons in Hx. destruct Hx as [->|Hx]; [exact Hmule|].
      apply list_elem_of_singleton in Hx. now subst.
Qed.

Lemma layering_output (susp_ids normal_ids : list string) (off : nat)
    (s : list nat) (txs : list TransactionRecord) (chain : list string)
    (s' : list nat) :
  _generate_layering susp_ids normal_ids off s = Ok ((txs, chain), s') ->
  Dataset.pattern_output (susp_ids ++ normal_ids) off txs chain.
Proof.
  intros H. apply generate_layering_spec in H.
  destruct H as (_ & Hsub & Hall & _). split; [|split; [|exact Hsub]].
  - apply (numbered_by_seq off txs (length chain - 1)).
    eapply Forall2_impl; [exact Hall|]. intros i tx Hp. apply Hp.
  - apply Forall_forall. intros tx Htx.
    apply list_elem_of_lookup in Htx. destruct Htx as [i Hi].
    destruct (Forall2_lookup_r _ _ _ _ _ Hall Hi) as (j & _ & Hs & Hd & _ & Hsus & _).
    split; [exact Hsus|].
    split; apply Hsub; eapply list_elem_of_lookup_2; eassumption.
Qed.

Lemma circular_output (susp_ids normal_ids : list string) (off : nat)
    (s : list nat) (txs : list TransactionRecord) (cycle : list string)
    (s' : list nat) :
  _generate_circular susp_ids normal_ids off s = Ok ((txs, cycle), s') ->
  Dataset.pattern_output (susp_ids ++ normal_ids) off txs cycle.
Proof.
  intros H. apply generate_circular_numbered in H.
  destruct H as (Hsub & Hall). split; [|split; [|exact Hsub]].
  - apply (numbered_by_seq off txs (length cycle)).
    eapply Forall2_impl; [exact Hall|]. intros i tx Hp. apply Hp.
  - apply Forall_forall. intros tx Htx.
    apply list_elem_of_lookup in Htx. destruct Htx as [i Hi].
    destruct (Forall2_lookup_r _ _ _ _ _ Hall Hi) as (j & _ & Hs & Hd & _ & Hsus).
    split; [exact Hsus|]. split; apply Hsub; assumption.
Qed.

End PatternOutputs.

Section DatasetInvariants.
Import Data Random Generator.

Lemma pattern_loop_invariant
    (generate_pattern : list string -> list string -> nat
                        -> Gen (list TransactionRecord * list string))
    (kind : pattern) (prefix : string) (susp_ids normal_ids : list string)
    (n : nat) (P : dataset -> Prop) :
  (forall d k r new_txs members r',
      P d ->
      generate_pattern susp_ids normal_ids (tx_offset d) r
      = Ok ((new_txs, members), r') ->
      P {| entity_map := label (prefix +:+ zfill 4 k) members (entity_map d);
           transactions := transactions d ++ new_txs;
           tx_offset := tx_offset d + length new_txs;
           assembled := assembled d
                        ++ [{| trace_kind := kind;
                               trace_id := prefix +:+ zfill 4 k;
                               trace_txs := new_txs;
                               trace_members := members |}] |}) ->
  forall d s d' s',
    P d ->
    pattern_loop generate_pattern kind prefix susp_ids normal_ids n d s
    = Ok (d', s') ->
    P d'.
Proof.
  intros Hstep d s d' s' Hd Hloop. unfold pattern_loop in Hloop.
  eapply (for_each_invariant P); [|exact Hd|exact Hloop].
  clear Hd Hloop. intros st k r st' r' Hst Hbody.
  inv_gen Hbody. destruct a as [new_txs members].
  apply gen_ret_Ok in Hbody. destruct Hbody as [<- _].
  eapply Hstep; eassumption.
Qed.

Lemma label_ids (cid : string) (members : list string) (l : list EntityRecord) :
  map id (label cid members l) = map id l.
Proof.
  unfold label. rewrite <- list_fmap_compose. apply list_fmap_ext.
  intros i e _. cbn. now destruct (bool_decide _).
Qed.

Lemma label_relabelled (cid : string) (members : list string)
    (created current : list EntityRecord) :
  Forall2 Dataset.relabelled created current ->
  Forall2 Dataset.relabelled created (label cid members current).
Proof.
  intros H. unfold label. apply Forall2_fmap_r.
  eapply Forall2_impl; [exact H|]. intros e0 e (H1 & H2 & H3 & H4).
  unfold compose. destruct (bool_decide (id e ∈ members));
    [|exact (conj H1 (conj H2 (conj H3 H4)))].
  unfold Dataset.relabelled. cbn. repeat split; try assumption.
  right. discriminate.
Qed.

Lemma consistent_step (ids : list string) (n_normal_tx : nat) (d : dataset)
    (new_txs : list TransactionRecord) (members : list string) (cid : string)
    (trace : list cluster_trace) :
  Dataset.consistent ids n_normal_tx d ->
  Dataset.pattern_output ids (tx_offset d) new_txs members ->
  Dataset.consistent ids n_normal_tx
    {| entity_map := label cid members (entity_map d);
       transactions := transactions d ++ new_txs;
       tx_offset := tx_offset d + length new_txs;
       assembled := trace |}.
Proof.
  intros (Hnum & Hoff & Hnn & Hids & Hends & Hflag) (Hnew & Hall & _).
  unfold Dataset.consistent. cbn [entity_map transactions tx_offset].
  split; [|split; [|split; [|split; [|split]]]].
  - apply numbered_app; [exact Hnum|]. cbn. now rewrite <- Hoff.
  - rewrite length_app. lia.
  - rewrite length_app. lia.
  - now rewrite label_ids.
  - apply Forall_app. split; [exact Hends|].
    eapply Forall_impl; [exact Hall|]. intros tx Htx. apply Htx.
  - intros i tx Hi. apply lookup_app_Some in Hi. destruct Hi as [Hi|[Hge Hi]].
    + now apply Hflag.
    + rewrite Forall_forall in Hall.
      destruct (Hall tx) as [Hs _]; [eapply list_elem_of_lookup_2; exact Hi|].
      rewrite Hs. split; [lia|reflexivity].
Qed.

Lemma create_entities_full (n : nat) (s : list nat) (ents : list EntityRecord)
    (s' : list nat) :
  _create_entities n s = Ok (ents, s') ->
  Forall2 (fun i e =>
             id e = "E" +:+ zfill 7 i /\ cluster_id e = None /\
             is_suspicious e = (i <? Nat.max 10 (n / 20))%nat /\
             (if (i <? Nat.max 10 (n / 20))%nat
              then entity_type e ∈ SUSPICIOUS_TYPES /\ country e ∈ HIGH_RISK_COUNTRIES
              else entity_type e ∈ ENTITY_TYPES /\ country e ∈ NORMAL_COUNTRIES))
          (seq 0 n) ents.
Proof.
  unfold _create_entities. intros H.
  eapply gen_mapM_Forall2; [|exact H]. cbv beta.
  intros i r e r' He. do 2 inv_gen He.
  apply gen_ret_Ok in He. destruct He as [<- _].
  cbn [id cluster_id is_suspicious entity_type country].
  repeat split. destruct (i <? Nat.max 10 (n / 20))%nat;
    apply choice_spec in Ha, Ha0; auto.
Qed.

Lemma normal_txs_spec (normal_ids : list string) (n_normal_tx : nat)
    (s : list nat) (txs : list TransactionRecord) (s' : list nat) :
  mapM (fun i =>
          pair ← sample normal_ids 2;
          match pair with
          | [src; dst] => _make_tx src dst false i None None None 365
          | _ => raise (ValueError "not enough values to unpack")
          end) (seq 0 n_normal_tx) s = Ok (txs, s') ->
  Forall2 (fun i tx =>
             tx_id tx = "T" +:+ zfill 10 (0 + i) /\
             tx_is_suspicious tx = false /\
             src tx ∈ normal_ids /\ dst tx ∈ normal_ids /\
             (NoDup normal_ids -> src tx <> dst tx))
          (seq 0 n_normal_tx) txs.
Proof.
  intros H. eapply gen_mapM_Forall2; [|exact H]. cbv beta.
  intros i r tx r' Htx. inv_gen Htx.
  pose proof (sample_subseteq _ _ _ _ _ Ha) as Hsub.
  destruct a as [|x [|y [|z l]]]; try (unfold raise in Htx; discriminate Htx).
  apply make_tx_spec in Htx. destruct Htx as (M1 & M2 & M3 & M4 & _).
  rewrite M1, M2. split; [exact M3|]. split; [exact M4|].
  split; [apply Hsub, elem_of_cons; now left|].
  split; [apply Hsub, elem_of_cons; right; apply elem_of_cons; now left|].
  intros Hnd. apply sample_spec in Ha; [|exact Hnd]. destruct Ha as [Hxy _].
  apply NoDup_cons in Hxy. destruct Hxy as [Hx _]. intros ->.
  apply Hx, elem_of_cons. now left.
Qed.

(** What [_generate_dataset] assembled, against the entities it created
    and the background transactions it drew first. *)
Lemma assemble_consistent (n_entities n_normal_tx n_smurf n_layer n_circ : nat)
    (s : list nat) (d : dataset) (s' : list nat) :
  assemble n_entities n_normal_tx n_smurf n_layer n_circ s = Ok (d, s') ->
  exists created r normal_txs,
    _create_entities n_entities s = Ok (created, r) /\
    Forall2 (fun i tx =>
               tx_id tx = "T" +:+ zfill 10 (0 + i) /\
               tx_is_suspicious tx = false /\
               src tx ∈ map id (filter (fun e => is_suspicious e = false) created) /\
               dst tx ∈ map id (filter (fun e => is_suspicious e = false) created) /\
               (NoDup (map id (filter (fun e => is_suspicious e = false) created))
                -> src tx <> dst tx))
            (seq 0 n_normal_tx) normal_txs /\
    (exists later, transactions d = normal_txs ++ later) /\
    Dataset.consistent (map id created) n_normal_tx d /\
    Forall2 Dataset.relabelled created (entity_map d).
Proof.
  unfold assemble. intros H.
  inv_gen H. rename a into created. inv_gen H. rename a into normal_txs.
  inv_gen H. inv_gen H.
  pose proof (create_entities_full _ _ _ _ Ha) as Hcreated.
  pose proof (normal_txs_spec _ _ _ _ _ Ha0) as Hnormal.
  exists created, s0, normal_txs. split; [exact Ha|]. split; [exact Hnormal|].
  set (normal_ids := map id (filter (fun e => is_suspicious e = false) created)) in *.
  set (susp_ids := map id (filter (fun e => is_suspicious e = true) created)) in *.
  assert (Hpool : susp_ids ++ normal_ids ⊆ map id created).
  { intros x Hx. apply elem_of_app in Hx. unfold susp_ids, normal_ids in Hx.
    destruct Hx as [Hx|Hx]; apply list_elem_of_fmap in Hx;
      destruct Hx as (e & -> & He); apply list_elem_of_filter in He;
      apply list_elem_of_fmap_2; tauto. }
  pose (P := fun d : dataset =>
               (exists later, transactions d = normal_txs ++ later) /\
               Dataset.consistent (map id created) n_normal_tx d /\
               Forall2 Dataset.relabelled created (entity_map d)).
  assert (Hlen : length normal_txs = n_normal_tx).
  { apply Forall2_length in Hnormal. now rewrite length_seq in Hnormal. }
  assert (H0 : P {| entity_map := created; transactions := normal_txs;
                    tx_offset := n_normal_tx; assembled := [] |}).
  { split; [exists []; now rewrite app_nil_r|]. split.
    - unfold Dataset.consistent. cbn [entity_map transactions tx_offset].
      split; [|split; [|split; [|split; [|split]]]]; try lia; try reflexivity.
      + apply (numbered_by_seq 0 normal_txs n_normal_tx).
        eapply Forall2_impl; [exact Hnormal|]. intros i tx Hp. apply Hp.
      + apply Forall_forall. intros tx Htx.
        apply list_elem_of_lookup in Htx. destruct Htx as [i Hi].
        destruct (Forall2_lookup_r _ _ _ _ _ Hnormal Hi) as (j & _ & _ & _ & Hs & Hd & _).
        split; apply Hpool, elem_of_app; now right.
      + intros i tx Hi.
        destruct (Forall2_lookup_r _ _ _ _ _ Hnormal Hi) as (j & _ & _ & Hs & _).
        apply lookup_lt_Some in Hi. rewrite Hs. split; [discriminate|lia].
    - cbn [entity_map]. clear -Hcreated.
      induction Hcreated as [|i e l k (_ & Hc & _) _ IH]; constructor; [|exact IH].
      unfold Dataset.relabelled. repeat split; [tauto|].
      intros [?|Hne]; [assumption|]. now destruct Hne. }
  assert (Hstep : forall gp kind prefix,
             (forall off r txs members r',
                 gp susp_ids normal_ids off r = Ok ((txs, members), r') ->
                 Dataset.pattern_output (susp_ids ++ normal_ids) off txs members) ->
             forall n d0 r d1 r',
               P d0 ->
               pattern_loop gp kind prefix susp_ids normal_ids n d0 r = Ok (d1, r') ->
               P d1).
  { intros gp kind prefix Hgp n d0 r d1 r'.
    apply (pattern_loop_invariant gp kind prefix susp_ids normal_ids n P).
    intros d2 k r2 new_txs members r3 ([later Hlater] & Hc & Hr) Hgen.
    apply Hgp in Hgen. destruct Hgen as (Hn & Hall & Hm).
    split; [|split].
    - exists (later ++ new_txs). cbn [transactions]. now rewrite Hlater, app_assoc.
    - apply consistent_step; [exact Hc|]. split; [exact Hn|]. split.
      + eapply Forall_impl; [exact Hall|]. intros tx (? & ? & ?). auto.
      + intros x Hx. auto.
    - cbn [entity_map]. now apply label_relabelled. }
  apply (Hstep _ _ _ (smurfing_output susp_ids normal_ids)) in Ha1; [|exact H0].
  apply (Hstep _ _ _ (layering_output susp_ids normal_ids)) in Ha2; [|exact Ha1].
  apply (Hstep _ _ _ (circular_output susp_ids normal_ids)) in H; [|exact Ha2].
  exact H.
Qed.

Lemma generate_dataset_inv (n_entities n_normal_tx n_smurf n_layer n_circ : nat)
    (s : list nat) (ents : list EntityRecord) (txs : list TransactionRecord)
    (s' : list nat) :
  _generate_dataset n_entities n_normal_tx n_smurf n_layer n_circ s
  = Ok ((ents, txs), s') ->
  exists d, assemble n_entities n_normal_tx n_smurf n_layer n_circ s = Ok (d, s') /\
            ents = entity_map d /\ txs = transactions d.
Proof.
  unfold _generate_dataset. intros H. inv_gen H.
  apply gen_ret_Ok in H. destruct H as [[= <- <-] <-]. eauto.
Qed.

End DatasetInvariants.

Section PatternShapes.
Import Data Random Generator.

(** Smurfing (data_generator.py, lines 242-281).  The pattern returns one
    deposit per smurf, each from the smurf to the mule, in cash and of an
    amount between 2,500 and 9,490 (so below the reporting threshold of
    10,000), followed by one transfer from the mule to the beneficiary; the
    members are the smurfs, then the mule and the beneficiary.  There are
    at most 14 smurfs, at least 5 when there are 5 normal entities, all of
    them normal entities, and distinct when the normal ids are. *)
Theorem smurfing_fan_in (susp_ids normal_ids : list string) (off : nat)
    (s : list nat) (txs : list TransactionRecord) (members : list string)
    (s' : list nat) :
  _generate_smurfing susp_ids normal_ids off s = Ok ((txs, members), s') ->
  exists smurfs mule beneficiary deposits last,
    members = smurfs ++ [mule; beneficiary] /\
    txs = deposits ++ [last] /\
    length smurfs <= 14 /\ (5 <= length normal_ids -> 5 <= length smurfs) /\
    smurfs ⊆ normal_ids /\ (NoDup normal_ids -> NoDup smurfs) /\
    endpoints deposits = map (fun smurf => (smurf, mule)) smurfs /\
    endpoints [last] = [(mule, beneficiary)] /\
    Forall (fun tx =>
              channel tx = "cash" /\
              exists q, amount tx = Float.Fin q /\ (2500 <= q <= 9490)%Q)
           deposits.
Proof.
  intros H. apply generate_smurfing_spec in H.
  destruct H as (smurfs & mule & ben & deposits & last & Hm & Ht & H14 & _ & H5
                 & Hnd & Hsub & _ & _ & Hdep & L1 & L2 & _).
  exists smurfs, mule, ben, deposits, last.
  split; [exact Hm|]. split; [exact Ht|]. split; [exact H14|]. split; [exact H5|].
  split; [exact Hsub|]. split; [exact Hnd|]. split; [|split].
  - unfold endpoints. apply list_eq. intros i. rewrite !list_lookup_fmap.
    destruct (deposits !! i) as [tx|] eqn:Ei; cbn.
    + destruct (Forall2_lookup_r _ _ _ _ _ Hdep Ei) as ([j x] & Hp & Hs & Hd & _).
      apply list_lookup_imap_Some in Hp. destruct Hp as (y & Hy & [= -> ->]).
      cbn [snd] in Hs. now rewrite Hy, Hs, Hd.
    + apply Forall2_length in Hdep. rewrite length_imap in Hdep.
      apply lookup_ge_None in Ei. rewrite lookup_ge_None_2 by lia. reflexivity.
  - cbn. now rewrite L1, L2.
  - apply Forall_forall. intros tx Htx.
    apply list_elem_of_lookup in Htx. destruct Htx as [i Hi].
    destruct (Forall2_lookup_r _ _ _ _ _ Hdep Hi)
      as (p & _ & _ & _ & _ & _ & Hc & _ & Hq).
    auto.
Qed.

(** Layering (data_generator.py, lines 283-317).  The chain has between 4
    and 9 entities; the transactions go from each entity of the chain to
    the next, one per hop; and along the chain the amount never grows: it
    starts at 800,000 at most and stays at or above 0. *)
Theorem layering_is_a_shrinking_path (susp_ids normal_ids : list string)
    (off : nat) (s : list nat) (txs : list TransactionRecord)
    (chain : list string) (s' : list nat) :
  _generate_layering susp_ids normal_ids off s = Ok ((txs, chain), s') ->
  4 <= length chain <= 9 /\ length txs = length chain - 1 /\
  endpoints txs = zip chain (drop 1 chain) /\
  StronglySorted (fun a b => Dataset.amount_le (amount b) (amount a)) txs /\
  Forall (fun tx => Dataset.amount_le (Float.Fin 0) (amount tx) /\
                    Dataset.amount_le (amount tx) (Float.Fin 800000)) txs.
Proof.
  intros H. apply generate_layering_spec in H.
  destruct H as (Hlen & _ & Hall & Hs & Hb).
  assert (Hn : length txs = length chain - 1).
  { apply Forall2_length in Hall. now rewrite length_seq in Hall. }
  split; [exact Hlen|]. split; [exact Hn|]. split; [|split; assumption].
  unfold endpoints. apply list_eq. intros i. rewrite list_lookup_fmap.
  destruct (txs !! i) as [tx|] eqn:Ei; cbn.
  - destruct (Forall2_lookup_r _ _ _ _ _ Hall Ei) as (j & Hj & Hsrc & Hdst & _).
    apply lookup_seq in Hj. destruct Hj as [-> _]. cbn in Hsrc, Hdst.
    symmetry. apply lookup_zip_with_Some. exists (src tx), (dst tx).
    split; [reflexivity|]. split; [exact Hsrc|].
    rewrite lookup_drop. now rewrite Nat.add_comm.
  - apply lookup_ge_None in Ei. symmetry. apply lookup_ge_None_2.
    rewrite length_zip_with, length_drop. lia.
Qed.

End PatternShapes.

Lemma smurfing_example_run :
  Generator._generate_smurfing one_suspect six_normal 100 []
  = Ok (smurfing_example, []).
Proof. vm_compute. reflexivity. Qed.

Lemma layering_example_run :
  Generator._generate_layering one_suspect six_normal 100 []
  = Ok (layering_example, []).
Proof. vm_compute. reflexivity. Qed.

(** One smurfing pattern over six normal entities. *)
Lemma smurfing_fan_in_witness :
  exists smurfs mule beneficiary deposits last,
    snd smurfing_example = smurfs ++ [mule; beneficiary] /\
    fst smurfing_example = deposits ++ [last] /\
    Generator.endpoints deposits = map (fun smurf => (smurf, mule)) smurfs.
Proof.
  destruct (smurfing_fan_in one_suspect six_normal 100 []
              (fst smurfing_example) (snd smurfing_example) []
              smurfing_example_run)
    as (smurfs & mule & ben & deposits & last & H1 & H2 & _ & _ & _ & _ & H3 & _).
  exists smurfs, mule, ben, deposits, last. auto.
Defined.

(** One layering chain. *)
Lemma layering_is_a_shrinking_path_witness :
  Generator.endpoints (fst layering_example)
  = zip (snd layering_example) (drop 1 (snd layering_example)).
Proof.
  apply (layering_is_a_shrinking_path one_suspect six_normal 100 []
           (fst layering_example) (snd layering_example) []
           layering_example_run).
Defined.

Section DatasetTheorems.
Import Data Random Generator.

(** Keys of a generated dataset (data_generator.py, lines 121-193 and
    230-240).  The entities carry the ids [E0000000], [E0000001], ... in
    order, the transactions the ids [T0000000000], [T0000000001], ... in
    order, so that no id occurs twice; the background transactions come
    first. *)
Theorem dataset_keys_are_sequential
    (n_entities n_normal_tx n_smurf n_layer n_circ : nat) (s : list nat)
    (ents : list EntityRecord) (txs : list TransactionRecord) (s' : list nat) :
  _generate_dataset n_entities n_normal_tx n_smurf n_layer n_circ s
  = Ok ((ents, txs), s') ->
  map id ents = map Dataset.entity_key (seq 0 n_entities) /\
  map tx_id txs = map Dataset.tx_key (seq 0 (length txs)) /\
  NoDup (map id ents) /\ NoDup (map tx_id txs) /\
  n_normal_tx <= length txs.
Proof.
  intros H. apply generate_dataset_inv in H. destruct H as (d & H & -> & ->).
  apply assemble_consistent in H.
  destruct H as (created & r & normal_txs & Hc & _ & _ & Hcons & Hrel).
  destruct Hcons as (Hnum & _ & Hnn & Hids & _).
  assert (Hkeys : map id (entity_map d) = map Dataset.entity_key (seq 0 n_entities)).
  { rewrite Hids. apply create_entities_spec in Hc. apply Hc. }
  split; [exact Hkeys|]. split; [exact Hnum|].
  split; [rewrite Hkeys; apply ids_NoDup, NoDup_seq|].
  split; [rewrite Hnum; apply ids_NoDup, NoDup_seq|exact Hnn].
Qed.

(** Transactions of a generated dataset (data_generator.py, lines
    135-177).  Every transaction runs between two generated entities; the
    transactions flagged suspicious are exactly those after the
    [n_normal_tx] background ones; and a background transaction joins two
    different entities, neither of which was created suspicious. *)
Theorem dataset_transactions_link_entities
    (n_entities n_normal_tx n_smurf n_layer n_circ : nat) (s : list nat)
    (ents : list EntityRecord) (txs : list TransactionRecord) (s' : list nat) :
  _generate_dataset n_entities n_normal_tx n_smurf n_layer n_circ s
  = Ok ((ents, txs), s') ->
  Forall (fun tx => src tx ∈ map id ents /\ dst tx ∈ map id ents) txs /\
  (forall i tx, txs !! i = Some tx ->
     (tx_is_suspicious tx = true <-> n_normal_tx <= i)) /\
  (forall i tx, txs !! i = Some tx -> i < n_normal_tx ->
     src tx <> dst tx /\
     exists j k, Nat.max 10 (n_entities / 20) <= j /\
                 Nat.max 10 (n_entities / 20) <= k /\
                 src tx = Dataset.entity_key j /\ dst tx = Dataset.entity_key k).
Proof.
  intros H. apply generate_dataset_inv in H. destruct H as (d & H & -> & ->).
  apply assemble_consistent in H.
  destruct H as (created & r & normal_txs & Hc & Hnormal & [later Hlater]
                 & Hcons & Hrel).
  destruct Hcons as (_ & _ & _ & Hids & Hends & Hflag).
  split; [now rewrite Hids|]. split; [exact Hflag|].
  intros i tx Hi Hlt.
  assert (Hlen : length normal_txs = n_normal_tx).
  { apply Forall2_length in Hnormal. now rewrite length_seq in Hnormal. }
  rewrite Hlater, lookup_app_l in Hi by lia.
  destruct (Forall2_lookup_r _ _ _ _ _ Hnormal Hi) as (j & _ & _ & _ & Hs & Hd & Hne).
  pose proof (create_entities_full _ _ _ _ Hc) as Hfull.
  assert (Hnormal_ids : forall x,
             x ∈ map id (filter (fun e => is_suspicious e = false) created) ->
             exists k, Nat.max 10 (n_entities / 20) <= k /\ x = Dataset.entity_key k).
  { intros x Hx. apply list_elem_of_fmap in Hx. destruct Hx as (e & -> & He).
    apply list_elem_of_filter in He. destruct He as [Hsusp He].
    apply list_elem_of_lookup in He. destruct He as [k Hk].
    destruct (Forall2_lookup_r _ _ _ _ _ Hfull Hk) as (k' & Hk' & Hid & _ & Hsus & _).
    apply lookup_seq in Hk'. destruct Hk' as [-> _]. cbn in Hid, Hsus.
    exists k. split; [|exact Hid]. rewrite Hsusp in Hsus.
    symmetry in Hsus. apply Nat.ltb_ge in Hsus. exact Hsus. }
  split.
  - apply Hne. apply NoDup_map_filter.
    apply create_entities_spec in Hc. destruct Hc as [-> _].
    apply ids_NoDup, NoDup_seq.
  - destruct (Hnormal_ids _ Hs) as (j1 & Hj1 & E1).
    destruct (Hnormal_ids _ Hd) as (j2 & Hj2 & E2). eauto 8.
Qed.

(** Entities of a generated dataset (data_generator.py, lines 145-193).
    The first [max(10, n // 20)] entities are mules or shells in a
    high-risk country and are suspicious; the others are individuals or
    businesses in a normal country, and such an entity is suspicious
    exactly when it carries a cluster label; every labelled entity is
    suspicious. *)
Theorem dataset_entity_labels
    (n_entities n_normal_tx n_smurf n_layer n_circ : nat) (s : list nat)
    (ents : list EntityRecord) (txs : list TransactionRecord) (s' : list nat) :
  _generate_dataset n_entities n_normal_tx n_smurf n_layer n_circ s
  = Ok ((ents, txs), s') ->
  length ents = n_entities /\
  forall i e, ents !! i = Some e ->
    id e = Dataset.entity_key i /\
    (cluster_id e <> None -> is_suspicious e = true) /\
    (i < Nat.max 10 (n_entities / 20) ->
       is_suspicious e = true /\ entity_type e ∈ SUSPICIOUS_TYPES /\
       country e ∈ HIGH_RISK_COUNTRIES) /\
    (Nat.max 10 (n_entities / 20) <= i ->
       entity_type e ∈ ENTITY_TYPES /\ country e ∈ NORMAL_COUNTRIES /\
       (is_suspicious e = true <-> cluster_id e <> None)).
Proof.
  intros H. apply generate_dataset_inv in H. destruct H as (d & H & -> & ->).
  apply assemble_consistent in H.
  destruct H as (created & r & normal_txs & Hc & _ & _ & _ & Hrel).
  pose proof (create_entities_full _ _ _ _ Hc) as Hfull.
  split.
  { rewrite <- (Forall2_length _ _ _ Hrel), <- (Forall2_length _ _ _ Hfull).
    apply length_seq. }
  intros i e Hi.
  destruct (Forall2_lookup_r _ _ _ _ _ Hrel Hi) as (e0 & Hi0 & R1 & R2 & R3 & R4).
  destruct (Forall2_lookup_r _ _ _ _ _ Hfull Hi0) as (j & Hj & F1 & F2 & F3 & F4).
  apply lookup_seq in Hj. destruct Hj as [-> _]. cbn [Nat.add] in F1, F3, F4.
  rewrite R1, R2, R3. split; [exact F1|]. split; [|split].
  - intros Hl. apply R4. now right.
  - intros Hlt. apply Nat.ltb_lt in Hlt. rewrite Hlt in F3, F4.
    split; [apply R4; now left|exact F4].
  - intros Hge. apply Nat.ltb_ge in Hge. rewrite Hge in F3, F4.
    destruct F4 as [F4 F5]. split; [exact F4|]. split; [exact F5|].
    rewrite R4. split; [|now right]. intros [Hs|Hl]; [congruence|exact Hl].
Qed.

End DatasetTheorems.

Lemma generate_traced_demo (draws : list nat) :
  Generator.generate_traced "demo" draws
  = Generator.assemble 1000 4000 6 10 5 draws.
Proof. reflexivity. Qed.

Lemma demo_dataset_run :
  Generator._generate_dataset 1000 4000 6 10 5 overlapping_draws
  = Ok ((Generator.entity_map overlapping_dataset,
         Generator.transactions overlapping_dataset), []).
Proof.
  unfold Generator._generate_dataset, mbind, Random.gen_bind.
  rewrite <- generate_traced_demo, overlapping_run. reflexivity.
Qed.

(** The demo-size run on [overlapping_draws]. *)
Lemma dataset_keys_are_sequential_witness :
  NoDup (map Data.id (Generator.entity_map overlapping_dataset)) /\
  NoDup (map Data.tx_id (Generator.transactions overlapping_dataset)).
Proof.
  destruct (dataset_keys_are_sequential 1000 4000 6 10 5 overlapping_draws
              _ _ [] demo_dataset_run) as (_ & _ & H1 & H2 & _).
  split; [exact H1|exact H2].
Defined.

Lemma dataset_transactions_link_entities_witness :
  Forall (fun tx =>
            Data.src tx ∈ map Data.id (Generator.entity_map overlapping_dataset) /\
            Data.dst tx ∈ map Data.id (Generator.entity_map overlapping_dataset))
         (Generator.transactions overlapping_dataset).
Proof.
  exact (proj1 (dataset_transactions_link_entities 1000 4000 6 10 5
                  overlapping_draws _ _ [] demo_dataset_run)).
Defined.

Lemma dataset_entity_labels_witness :
  length (Generator.entity_map overlapping_dataset) = 1000.
Proof.
  exact (proj1 (dataset_entity_labels 1000 4000 6 10 5 overlapping_draws
                  _ _ [] demo_dataset_run)).
Defined.

(** ** Cluster ids and pattern types *)

Section ClusterIds.
Import Data Generator.











End ClusterIds.


(** ** The transaction graph *)

Section Graph.
Import Data Features.

Lemma add_node_spec (G : Nx.DiGraph) (v : string) :
  NoDup (Nx.nodes G) ->
  NoDup (Nx.nodes (Nx.add_node G v)) /\
  Nx.edges (Nx.add_node G v) = Nx.edges G /\
  (forall x, x ∈ Nx.nodes (Nx.add_node G v) <-> x ∈ Nx.nodes G \/ x = v) /\
  (v ∈ Nx.nodes G -> Nx.add_node G v = G).
Proof.
  intros Hnd. unfold Nx.add_node. case_bool_decide as Hv; cbn.
  - split; [exact Hnd|]. split; [reflexivity|]. split; [|reflexivity].
    intros x. split; [tauto|]. intros [?| ->]; assumption.
  - split; [|split; [reflexivity|split]].
    + apply NoDup_app. split; [exact Hnd|]. split; [|apply NoDup_singleton].
      intros x Hx Hx'. apply list_elem_of_singleton in Hx'. now subst.
    + intros x. rewrite elem_of_app, list_elem_of_singleton. tauto.
    + intros Hin. now destruct Hv.
Qed.

Lemma add_edge_spec (G : Nx.DiGraph) (u v : string) :
  NoDup (Nx.nodes G) -> NoDup (Nx.edges G) ->
  NoDup (Nx.nodes (Nx.add_edge G u v)) /\
  NoDup (Nx.edges (Nx.add_edge G u v)) /\
  (forall x, x ∈ Nx.nodes (Nx.add_edge G u v) <-> x ∈ Nx.nodes G \/ x = u \/ x = v) /\
  (forall e, e ∈ Nx.edges (Nx.add_edge G u v) <-> e ∈ Nx.edges G \/ e = (u, v)) /\
  (u ∈ Nx.nodes G -> v ∈ Nx.nodes G ->
   Nx.nodes (Nx.add_edge G u v) = Nx.nodes G).
Proof.
  intros Hn He. unfold Nx.add_edge.
  destruct (add_node_spec G u Hn) as (Hn1 & He1 & Hx1 & Hid1).
  destruct (add_node_spec (Nx.add_node G u) v Hn1) as (Hn2 & He2 & Hx2 & Hid2).
  assert (Hnodes : forall x, x ∈ Nx.nodes (Nx.add_node (Nx.add_node G u) v)
                             <-> x ∈ Nx.nodes G \/ x = u \/ x = v).
  { intros x. rewrite Hx2, Hx1. tauto. }
  assert (Hsame : u ∈ Nx.nodes G -> v ∈ Nx.nodes G ->
                  Nx.nodes (Nx.add_node (Nx.add_node G u) v) = Nx.nodes G).
  { intros Hu Hv. rewrite (Hid1 Hu), (proj2 (proj2 (proj2 (add_node_spec G v Hn))) Hv).
    reflexivity. }
  rewrite He1 in He2. case_bool_decide as Huv; cbn [Nx.nodes Nx.edges].
  - split; [exact Hn2|]. split; [now rewrite He2|]. split; [exact Hnodes|].
    split; [|exact Hsame]. intros e. rewrite He2 in *. split; [tauto|].
    intros [?| ->]; assumption.
  - split; [exact Hn2|]. split; [|split; [exact Hnodes|split; [|exact Hsame]]].
    + apply NoDup_app. rewrite He2. split; [exact He|].
      split; [|apply NoDup_singleton].
      intros x Hx Hx'. apply list_elem_of_singleton in Hx'. subst.
      apply Huv. now rewrite He2.
    + intros e. rewrite elem_of_app, list_elem_of_singleton, He2. tauto.
Qed.

Lemma add_nodes_spec (ents : list EntityRecord) (G : Nx.DiGraph) :
  NoDup (Nx.nodes G) ->
  let G' := foldl (fun G e => Nx.add_node G (id e)) G ents in
  NoDup (Nx.nodes G') /\ Nx.edges G' = Nx.edges G /\
  (forall x, x ∈ Nx.nodes G' <-> x ∈ Nx.nodes G \/ x ∈ map id ents).
Proof.
  revert G. induction ents as [|e ents IH]; intros G Hn; cbn zeta.
  - cbn. split; [exact Hn|]. split; [reflexivity|]. intros x.
    rewrite elem_of_nil. tauto.
  - rewrite foldl_cons.
    destruct (add_node_spec G (id e) Hn) as (Hn1 & He1 & Hx1 & _).
    destruct (IH _ Hn1) as (Hn2 & He2 & Hx2).
    split; [exact Hn2|]. split; [now rewrite He2|].
    intros x. rewrite Hx2, Hx1. cbn [map]. rewrite elem_of_cons. tauto.
Qed.

Lemma add_edges_spec (txs : list TransactionRecord) (G : Nx.DiGraph) :
  NoDup (Nx.nodes G) -> NoDup (Nx.edges G) ->
  let G' := foldl (fun G tx => Nx.add_edge G (src tx) (dst tx)) G txs in
  NoDup (Nx.nodes G') /\ NoDup (Nx.edges G') /\
  (forall x, x ∈ Nx.nodes G' <->
             x ∈ Nx.nodes G \/ x ∈ map src txs \/ x ∈ map dst txs) /\
  (forall e, e ∈ Nx.edges G' <->
             e ∈ Nx.edges G \/ e ∈ map (fun tx => (src tx, dst tx)) txs) /\
  (Forall (fun tx => src tx ∈ Nx.nodes G /\ dst tx ∈ Nx.nodes G) txs ->
   Nx.nodes G' = Nx.nodes G).
Proof.
  revert G. induction txs as [|tx txs IH]; intros G Hn He; cbn zeta.
  - cbn. split; [exact Hn|]. split; [exact He|].
    split; [|split; [|reflexivity]]; intros x; rewrite !elem_of_nil; tauto.
  - rewrite foldl_cons.
    destruct (add_edge_spec G (src tx) (dst tx) Hn He) as (Hn1 & He1 & Hx1 & Hy1 & Hs1).
    destruct (IH _ Hn1 He1) as (Hn2 & He2 & Hx2 & Hy2 & Hs2).
    split; [exact Hn2|]. split; [exact He2|]. split; [|split].
    + intros x. rewrite Hx2, Hx1. cbn [map]. rewrite !elem_of_cons. tauto.
    + intros e. rewrite Hy2, Hy1. cbn [map]. rewrite elem_of_cons. tauto.
    + intros Hall. inversion Hall as [|? ? [Hu Hv] Hrest]; subst.
      rewrite Hs2, Hs1; auto.
      rewrite Hs1 by assumption. exact Hrest.
Qed.

(** [build_networkx_graph] (data_generator.py, lines 352-365).  The
    graph has every entity id and every endpoint of a transaction as a
    node, each once, and one edge per ordered pair of endpoints that some
    transaction joins (parallel transactions share their edge).  When the
    entity ids are distinct and every transaction runs between entities,
    the nodes are the entity ids in order. *)
Theorem graph_of_transactions (entities : list EntityRecord)
    (transactions : list TransactionRecord) :
  let G := build_networkx_graph entities transactions in
  NoDup (Nx.nodes G) /\ NoDup (Nx.edges G) /\
  (forall x, x ∈ Nx.nodes G <->
             x ∈ map id entities \/ x ∈ map src transactions
             \/ x ∈ map dst transactions) /\
  (forall e, e ∈ Nx.edges G <-> e ∈ map (fun tx => (src tx, dst tx)) transactions) /\
  length (Nx.edges G) <= length transactions /\
  (NoDup (map id entities) ->
   Forall (fun tx => src tx ∈ map id entities /\ dst tx ∈ map id entities)
          transactions ->
   Nx.nodes G = map id entities).
Proof.
  cbn zeta. unfold build_networkx_graph.
  destruct (add_nodes_spec entities Nx.empty (NoDup_nil_2)) as (Hn1 & He1 & Hx1).
  cbn zeta in Hn1, He1, Hx1.
  assert (He1' : NoDup (Nx.edges (foldl (fun G e => Nx.add_node G (id e))
                                        Nx.empty entities))).
  { rewrite He1. apply NoDup_nil_2. }
  destruct (add_edges_spec transactions _ Hn1 He1') as (Hn2 & He2 & Hx2 & Hy2 & Hs2).
  cbn zeta in Hn2, He2, Hx2, Hy2, Hs2.
  split; [exact Hn2|]. split; [exact He2|]. split; [|split; [|split]].
  - intros x. rewrite Hx2, Hx1. cbn [Nx.nodes Nx.empty].
    rewrite elem_of_nil. tauto.
  - intros e. rewrite Hy2, He1. cbn [Nx.edges Nx.empty].
    rewrite elem_of_nil. tauto.
  - rewrite <- (length_map (fun tx => (src tx, dst tx)) transactions).
    apply submseteq_length, NoDup_submseteq; [exact He2|].
    intros e He. now apply Hy2 in He as [He|He]; [rewrite He1 in He;
      apply elem_of_nil in He|].
  - intros Hnd Hall.
    assert (Hnodes : Nx.nodes (foldl (fun G e => Nx.add_node G (id e))
                                     Nx.empty entities) = map id entities).
    { rewrite add_nodes_fresh by exact Hnd. reflexivity. }
    rewrite Hs2; [exact Hnodes|]. now rewrite Hnodes.
Qed.

End Graph.
